(** * Google Trends / OHLCV analysis scripts

    A shallow embedding of the four scripts under [scripts/]:
    - [fetch_plot_MA_EMA_GT.py]      (module [FetchPlot])
    - [fetch_plot_MA_EMA_GT_OOP.py]  (module [FetchPlotOOP])
    - [merge_GT_OHLCV.py]            (module [Merge])
    - [merge_GT_OHLCV_OOP.py]        (module [MergeOOP])

    Numbers.  pandas computes in IEEE binary64.  The embedding keeps the
    shape of that arithmetic (infinities and NaN, NaN-aware comparisons,
    division by zero that yields a special value and no exception) and
    replaces the finite floats by exact rationals, so a finite result below
    is the value the float computation approximates.  One function,
    [normalize_volume], is also given in binary64 itself ([PrimFloat]),
    where rounding decides the property at stake.  The one operation the
    scripts carry out on int64 scalars, the difference in
    [percentage_trend_analysis], wraps around as int64 does.

    Library calls.  [Series.rolling(..).mean()], [Series.ewm(..).mean()],
    [Series.pct_change()], [pd.merge], [DataFrame.dropna], [DataFrame.corr],
    [DataFrame.reset_index], the string methods of the column names and
    [datetime.date] are modelled after the libraries' behaviour on the
    values the scripts hand them. *)

From Stdlib Require Import ZArith QArith Qcanon List String Ascii Bool Lia.
From Stdlib Require Import Reals Lra Lqa Qreals.
From Stdlib Require Floats.PrimFloat Floats.FloatAxioms.
From Stdlib Require Uint63.
From Stdlib Require Import Sorted.
Import ListNotations.

(* ================================================================== *)
(** * Python exceptions and results *)

Module Py.

(** The exceptions the modelled calls can raise.  [AlignmentError] is the
    name the specification uses; no statement of the scripts raises it. *)
Inductive exn : Type :=
| IndexError
| KeyError
| TypeError
| ValueError
| OverflowError
| AlignmentError.

Inductive result (A : Type) : Type :=
| Ok (a : A)
| Raise (e : exn).

Arguments Ok {A} a.
Arguments Raise {A} e.

Definition bind {A B : Type} (m : result A) (k : A -> result B) : result B :=
  match m with
  | Ok a => k a
  | Raise e => Raise e
  end.

Definition returns {A : Type} (m : result A) : bool :=
  match m with
  | Ok _ => true
  | Raise _ => false
  end.

End Py.

Import Py.

Declare Scope py_scope.
Delimit Scope py_scope with py.
Notation "x <- m ;; k" := (Py.bind m (fun x => k))
  (at level 61, m at next level, right associativity) : py_scope.
Open Scope py_scope.

(* ================================================================== *)
(** * Numbers: rationals extended with the IEEE special values *)

Module Num.

Open Scope Qc_scope.

(** An integer, as a rational. *)
Definition qz (z : Z) : Qc := Q2Qc (inject_Z z).

(** A float64 cell: a finite number, an infinity, or NaN (pandas' missing
    value). *)
Inductive xnum : Type :=
| Fin (q : Qc)
| PInf
| NInf
| NaN.

Definition Qc_eqb (a b : Qc) : bool :=
  match a ?= b with
  | Eq => true
  | _ => false
  end.

Definition Qc_ltb (a b : Qc) : bool :=
  match a ?= b with
  | Lt => true
  | _ => false
  end.

Definition xneg (a : xnum) : xnum :=
  match a with
  | Fin q => Fin (- q)
  | PInf => NInf
  | NInf => PInf
  | NaN => NaN
  end.

Definition xadd (a b : xnum) : xnum :=
  match a, b with
  | NaN, _ | _, NaN => NaN
  | Fin p, Fin q => Fin (p + q)
  | PInf, NInf | NInf, PInf => NaN
  | PInf, _ | _, PInf => PInf
  | NInf, _ | _, NInf => NInf
  end.

Definition xsub (a b : xnum) : xnum := xadd a (xneg b).

(** The infinity of the sign of [s * q], NaN when [q] is zero. *)
Definition inf_times (positive : bool) (q : Qc) : xnum :=
  match q ?= 0 with
  | Eq => NaN
  | Gt => if positive then PInf else NInf
  | Lt => if positive then NInf else PInf
  end.

Definition xmul (a b : xnum) : xnum :=
  match a, b with
  | NaN, _ | _, NaN => NaN
  | Fin p, Fin q => Fin (p * q)
  | PInf, Fin q | Fin q, PInf => inf_times true q
  | NInf, Fin q | Fin q, NInf => inf_times false q
  | PInf, PInf | NInf, NInf => PInf
  | PInf, NInf | NInf, PInf => NInf
  end.

(** Division never raises: a zero divisor gives an infinity of the sign of
    the dividend, and [0 / 0] gives NaN.  (A zero is the positive zero: the
    integer columns of the scripts have no other.) *)
Definition xdiv (a b : xnum) : xnum :=
  match a, b with
  | NaN, _ | _, NaN => NaN
  | Fin p, Fin q =>
      if Qc_eqb q 0 then inf_times true p else Fin (p / q)
  | Fin _, PInf | Fin _, NInf => Fin 0
  | PInf, Fin q => if Qc_ltb q 0 then NInf else PInf
  | NInf, Fin q => if Qc_ltb q 0 then PInf else NInf
  | _, _ => NaN
  end.

(** [a < b]; false as soon as one side is NaN. *)
Definition xlt (a b : xnum) : bool :=
  match a, b with
  | NaN, _ | _, NaN => false
  | Fin p, Fin q => Qc_ltb p q
  | NInf, Fin _ | NInf, PInf | Fin _, PInf => true
  | _, _ => false
  end.

Definition xgt (a b : xnum) : bool := xlt b a.

(** [a != b] on floats: NaN differs from everything, itself included. *)
Definition xne (a b : xnum) : bool :=
  match a, b with
  | NaN, _ | _, NaN => true
  | Fin p, Fin q => negb (Qc_eqb p q)
  | PInf, PInf | NInf, NInf => false
  | _, _ => true
  end.

Definition isna (a : xnum) : bool :=
  match a with
  | NaN => true
  | _ => false
  end.

Definition is_finite (a : xnum) : bool :=
  match a with
  | Fin _ => true
  | _ => false
  end.

(** Decidable equality of cells, to evaluate statements on examples. *)
Definition xnum_eqb (a b : xnum) : bool :=
  match a, b with
  | Fin p, Fin q => Qc_eqb p q
  | PInf, PInf | NInf, NInf | NaN, NaN => true
  | _, _ => false
  end.

End Num.

Import Num.

(* ================================================================== *)
(** * pandas Series operations used by the scripts *)

Module Series.

Open Scope Qc_scope.

(** [s.iloc[0]]: the first element, [IndexError] on an empty series. *)
Definition iloc_first {A : Type} (s : list A) : result A :=
  match s with
  | [] => Raise IndexError
  | x :: _ => Ok x
  end.

(** [s.iloc[-1]]: the last element, [IndexError] on an empty series. *)
Fixpoint iloc_last {A : Type} (s : list A) : result A :=
  match s with
  | [] => Raise IndexError
  | [x] => Ok x
  | _ :: t => iloc_last t
  end.

(** [s.dropna()]: the non-missing values, in order. *)
Definition dropna (s : list xnum) : list xnum :=
  filter (fun x => negb (isna x)) s.

Definition qsum (l : list Qc) : Qc := fold_right Qcplus 0 l.

(** The [w] values that end at position [i]. *)
Definition window_at (v : list Qc) (w i : nat) : list Qc :=
  firstn w (skipn (i + 1 - w) v).

(** [s.rolling(window=w).mean()] at position [i]: [min_periods] defaults
    to the window, so the mean is missing until [w] values are there; an
    empty window (w = 0) has no mean either. *)
Definition rolling_mean_at (v : list Qc) (w i : nat) : xnum :=
  if (0 <? w)%nat && (w <=? i + 1)%nat
  then Fin (qsum (window_at v w i) / qz (Z.of_nat w))
  else NaN.

(** [s.rolling(window=w).mean()]; a negative window is refused. *)
Definition rolling_mean (v : list Qc) (window : Z) : result (list xnum) :=
  if (window <? 0)%Z then Raise ValueError
  else Ok (map (rolling_mean_at v (Z.to_nat window)) (seq 0 (List.length v))).

(** One turn of the loop of pandas' [ewm] kernel with [adjust=False] on an
    observation [cur]: the old weight 1 decays by [1 - alpha], the new
    value enters with weight [alpha], and the sum is normalised by the
    total weight; a value equal to the running mean leaves it as it is. *)
Definition ewm_step (alpha : Qc) (weighted : xnum) (cur : Qc) : xnum :=
  let old_wt_factor := 1 - alpha in
  let new_wt := alpha in
  let old_wt := 1 * old_wt_factor in
  if xne weighted (Fin cur)
  then xdiv (xadd (xmul (Fin old_wt) weighted) (xmul (Fin new_wt) (Fin cur)))
            (Fin (old_wt + new_wt))
  else weighted.

Fixpoint ewm_loop (alpha : Qc) (weighted : xnum) (vals : list Qc) : list xnum :=
  match vals with
  | [] => []
  | cur :: rest =>
      let weighted' := ewm_step alpha weighted cur in
      weighted' :: ewm_loop alpha weighted' rest
  end.

(** [s.ewm(span=span, adjust=False).mean()]: the centre of mass is
    [(span - 1) / 2] and [alpha = 1 / (1 + com)]; a span below 1 is
    refused. *)
Definition ewm_mean (vals : list Qc) (span : Z) : result (list xnum) :=
  if (span <? 1)%Z then Raise ValueError
  else
    let com := (qz span - 1) / qz 2 in
    let alpha := 1 / (1 + com) in
    match vals with
    | [] => Ok []
    | v0 :: rest => Ok (Fin v0 :: ewm_loop alpha (Fin v0) rest)
    end.

(** [s.shift(1)]: every value moves one row down, the first row is
    missing. *)
Definition shift1 (s : list xnum) : list xnum :=
  match s with
  | [] => []
  | _ :: _ => NaN :: removelast s
  end.

(** [s.pct_change()] on a column without gaps: [s / s.shift(1) - 1]. *)
Definition pct_change (v : list Qc) : list xnum :=
  let s := map Fin v in
  map (fun cp => xsub (xdiv (fst cp) (snd cp)) (Fin 1)) (combine s (shift1 s)).

(** The dtype of a column.  The counts the provider returns are whole
    numbers held as int64; a column is taken to be of that dtype when all
    its values are whole numbers of the range of int64, and of dtype
    float64 otherwise. *)
Definition is_int64 (q : Qc) : bool :=
  (Z.pos (Qden (this q)) =? 1)%Z
  && (-9223372036854775808 <=? Qnum (this q))%Z
  && (Qnum (this q) <? 9223372036854775808)%Z.

Definition int64_dtype (s : list Qc) : bool := forallb is_int64 s.

(** What an int64 operation stores of the number [z]: the number modulo
    [2^64], in the range from [-2^63] to [2^63 - 1]. *)
Definition int64_wrap (z : Z) : Z :=
  ((z + 9223372036854775808) mod 18446744073709551616
   - 9223372036854775808)%Z.

(** [a - b] on two scalars read from the column [s]: numpy.int64 scalars
    when the column is of dtype int64, whose difference wraps around and
    raises nothing; floats otherwise. *)
Definition scalar_sub (s : list Qc) (a b : Qc) : xnum :=
  if int64_dtype s
  then Fin (qz (int64_wrap (Qnum (this a) - Qnum (this b))))
  else xsub (Fin a) (Fin b).

(** The difference [a - b] of two scalars of the column [s] is a number of
    the dtype of the column. *)
Definition difference_fits (s : list Qc) (a b : Qc) : Prop :=
  int64_dtype s = true ->
  (-9223372036854775808 <= Qnum (this a) - Qnum (this b)
   < 9223372036854775808)%Z.

End Series.

(* ================================================================== *)
(** * datetime.date, as far as [get_timeframe] uses it *)

Module Date.

Open Scope Z_scope.

(** A date is held by its proleptic Gregorian ordinal ([date.toordinal()]:
    day 1 is 0001-01-01), the number [date.__sub__] computes with. *)
Definition date : Type := Z.

Definition MAXORDINAL : Z := 3652059.   (* 9999-12-31 *)
Definition DI400Y : Z := 146097.
Definition DI100Y : Z := 36524.
Definition DI4Y : Z := 1461.

Definition valid (d : date) : Prop := 1 <= d <= MAXORDINAL.

Definition DAYS_IN_MONTH (m : Z) : Z :=
  nth (Z.to_nat m) [-1; 31; 28; 31; 30; 31; 30; 31; 31; 30; 31; 30; 31] 0.

Definition DAYS_BEFORE_MONTH (m : Z) : Z :=
  nth (Z.to_nat m) [-1; 0; 31; 59; 90; 120; 151; 181; 212; 243; 273; 304; 334] 0.

Definition is_leap (year : Z) : bool :=
  (year mod 4 =? 0) && (negb (year mod 100 =? 0) || (year mod 400 =? 0)).

Definition days_before_year (year : Z) : Z :=
  let y := year - 1 in
  y * 365 + y / 4 - y / 100 + y / 400.

Definition days_before_month (year month : Z) : Z :=
  DAYS_BEFORE_MONTH month + (if (2 <? month) && is_leap year then 1 else 0).

(** [_ymd2ord]. *)
Definition ymd2ord (year month day : Z) : Z :=
  days_before_year year + days_before_month year month + day.

(** The month and day of the [n]-th day (from 0) of a year, the second
    half of [_ord2ymd]. *)
Definition month_day (n : Z) (leapyear : bool) : Z * Z :=
  let month := Z.shiftr (n + 50) 5 in
  let preceding :=
    DAYS_BEFORE_MONTH month + (if (2 <? month) && leapyear then 1 else 0) in
  if n <? preceding then
    let month' := month - 1 in
    let preceding' :=
      preceding
      - (DAYS_IN_MONTH month' + (if (month' =? 2) && leapyear then 1 else 0)) in
    (month', n - preceding' + 1)
  else (month, n - preceding + 1).

(** [_ord2ymd]: year, month and day of an ordinal. *)
Definition ord2ymd (ordinal : Z) : Z * Z * Z :=
  let n := ordinal - 1 in
  let n400 := n / DI400Y in
  let n := n mod DI400Y in
  let year := n400 * 400 + 1 in
  let n100 := n / DI100Y in
  let n := n mod DI100Y in
  let n4 := n / DI4Y in
  let n := n mod DI4Y in
  let n1 := n / 365 in
  let n := n mod 365 in
  let year := year + n100 * 100 + n4 * 4 + n1 in
  if (n1 =? 4) || (n100 =? 4) then (year - 1, 12, 31)
  else
    let leapyear := (n1 =? 3) && (negb (n4 =? 24) || (n100 =? 3)) in
    let md := month_day n leapyear in
    (year, fst md, snd md).

(** [timedelta(days=n)]: at most 999999999 days either way. *)
Definition timedelta (days : Z) : result Z :=
  if Z.abs days <=? 999999999 then Ok days else Raise OverflowError.

(** [d - timedelta]: the result has to be a date again. *)
Definition sub (d : date) (delta : Z) : result date :=
  let o := d + - delta in
  if (0 <? o) && (o <=? MAXORDINAL) then Ok o else Raise OverflowError.

Definition digit (d : Z) : ascii := ascii_of_nat (48 + Z.to_nat d).

Fixpoint digits (fuel : nat) (n : Z) (acc : string) : string :=
  match fuel with
  | O => acc
  | S fuel' =>
      let acc' := String (digit (n mod 10)) acc in
      if n / 10 =? 0 then acc' else digits fuel' (n / 10) acc'
  end.

(** The decimal numeral of a natural number. *)
Definition str (n : Z) : string :=
  digits (S (Z.to_nat (Z.log2 n))) n EmptyString.

Fixpoint zeros (k : nat) (s : string) : string :=
  match k with
  | O => s
  | S k' => String "0" (zeros k' s)
  end.

(** [s.zfill(width)]. *)
Definition zfill (width : nat) (s : string) : string :=
  zeros (width - String.length s) s.

(** [d.strftime('%Y-%m-%d')], which hands the directives to the C
    library: the year is printed as the number it is, so that a year below
    1000 has fewer than four digits; month and day are printed on two
    digits. *)
Definition strftime_Ymd (d : date) : string :=
  let '(y, m, dd) := ord2ymd d in
  (str y ++ "-" ++ zfill 2 (str m) ++ "-" ++ zfill 2 (str dd))%string.

Definition is_digit (c : ascii) : bool :=
  let n := nat_of_ascii c in (48 <=? n)%nat && (n <=? 57)%nat.

(** The shape YYYY-MM-DD: ten characters, digits around two dashes. *)
Definition is_YYYY_MM_DD (s : string) : bool :=
  match list_ascii_of_string s with
  | [y1; y2; y3; y4; d1; m1; m2; d2; a1; a2] =>
      forallb is_digit [y1; y2; y3; y4; m1; m2; a1; a2]
      && Ascii.eqb d1 "-" && Ascii.eqb d2 "-"
  | _ => false
  end.

(** The checks run over whole ranges of days and numerals. *)

Definition month_day_ok (leap : bool) (n : Z) : bool :=
  let md := month_day n leap in
  (1 <=? fst md) && (fst md <=? 12) && (1 <=? snd md) && (snd md <=? 31).

Definition month_day_inverse (leap : bool) (n : Z) : bool :=
  let md := month_day n leap in
  DAYS_BEFORE_MONTH (fst md)
  + (if (2 <? fst md) && leap then 1 else 0) + snd md =? n + 1.

(** A numeral of exactly [k] digits. *)
Definition is_numeral (k : nat) (s : string) : bool :=
  (String.length s =? k)%nat && forallb is_digit (list_ascii_of_string s).

(** The first day of the year 1000, from which on a year has four digits. *)
Definition YEAR_1000 : date := ymd2ord 1000 1 1.

End Date.

(* ================================================================== *)
(** * fetch_plot_MA_EMA_GT.py *)

Module FetchPlot.

(** [calculate_ema(trend_data, window=3)]. *)
Definition calculate_ema (trend_data : list Qc) (window : Z)
  : result (list xnum) :=
  Series.ewm_mean trend_data window.

(** [trend_analysis(trend_data, moving_average_window=3)]: the first and
    the last row of the moving average are compared as they are. *)
Definition trend_analysis (trend_data : list Qc) (moving_average_window : Z)
  : result string :=
  trend_data_ma <- Series.rolling_mean trend_data moving_average_window ;;
  start_value <- Series.iloc_first trend_data_ma ;;
  end_value <- Series.iloc_last trend_data_ma ;;
  Ok (if xgt end_value start_value then "Positive"
      else if xlt end_value start_value then "Negative"
      else "Neutral")%string.

(** [percentage_trend_analysis(trend_data)]: the two scalars are
    subtracted in the dtype of the column, the division is the true
    division of floats. *)
Definition percentage_trend_analysis (trend_data : list Qc)
  : result (xnum * string) :=
  start_value <- Series.iloc_first trend_data ;;
  end_value <- Series.iloc_last trend_data ;;
  let percentage_change :=
    xmul (xdiv (Series.scalar_sub trend_data end_value start_value)
               (Fin start_value))
         (Fin (qz 100)) in
  Ok (percentage_change,
      if xgt percentage_change (Fin (qz 0)) then "Positive"
      else if xlt percentage_change (Fin (qz 0)) then "Negative"
      else "Neutral")%string.

(** [get_timeframe(days_back)]; [today] is what [date.today()] reads. *)
Definition get_timeframe (today : Date.date) (days_back : Z) : result string :=
  let end_date := today in
  delta <- Date.timedelta days_back ;;
  start_date <- Date.sub end_date delta ;;
  Ok (Date.strftime_Ymd start_date ++ " " ++ Date.strftime_Ymd end_date)%string.

End FetchPlot.

(* ================================================================== *)
(** * fetch_plot_MA_EMA_GT_OOP.py *)

Module FetchPlotOOP.

(** The frame [interest_over_time()] returns, by column name; only the
    numeric columns are kept. *)
Definition DataFrame : Type := list (string * list Qc).

(** [df[key]]. *)
Fixpoint getitem (df : DataFrame) (key : string) : result (list Qc) :=
  match df with
  | [] => Raise KeyError
  | (name, col) :: rest =>
      if String.eqb name key then Ok col else getitem rest key
  end.

(** The object's attributes; [trend_data] is [None] until the download. *)
Record StockTrendAnalysis : Type := {
  search_term : string;
  timeframe : string;
  geo : string;
  gprop : string;
  trend_data : option DataFrame
}.

(** [self.trend_data[self.search_term]]. *)
Definition term_column (self : StockTrendAnalysis) : result (list Qc) :=
  match trend_data self with
  | None => Raise TypeError
  | Some df => getitem df (search_term self)
  end.

(** [StockTrendAnalysis.calculate_ema(self, trend_data, window=3)]. *)
Definition calculate_ema (self : StockTrendAnalysis)
    (trend_data : list Qc) (window : Z) : result (list xnum) :=
  Series.ewm_mean trend_data window.

(** [StockTrendAnalysis.trend_analysis(self, moving_average_window=3)]:
    the first and the last valid value of the moving average. *)
Definition trend_analysis (self : StockTrendAnalysis)
    (moving_average_window : Z) : result string :=
  col <- term_column self ;;
  trend_data_ma <- Series.rolling_mean col moving_average_window ;;
  start_value <- Series.iloc_first (Series.dropna trend_data_ma) ;;
  end_value <- Series.iloc_last (Series.dropna trend_data_ma) ;;
  Ok (if xgt end_value start_value then "Positive"
      else if xlt end_value start_value then "Negative"
      else "Neutral")%string.

(** [StockTrendAnalysis.percentage_trend_analysis(self)]. *)
Definition percentage_trend_analysis (self : StockTrendAnalysis)
  : result (xnum * string) :=
  col <- term_column self ;;
  start_value <- Series.iloc_first col ;;
  col' <- term_column self ;;
  end_value <- Series.iloc_last col' ;;
  let percentage_change :=
    xmul (xdiv (Series.scalar_sub col' end_value start_value)
               (Fin start_value))
         (Fin (qz 100)) in
  Ok (percentage_change,
      if xgt percentage_change (Fin (qz 0)) then "Positive"
      else if xlt percentage_change (Fin (qz 0)) then "Negative"
      else "Neutral")%string.

(** [StockTrendAnalysis.get_timeframe(days_back)], a static method. *)
Definition get_timeframe (today : Date.date) (days_back : Z) : result string :=
  let end_date := today in
  delta <- Date.timedelta days_back ;;
  start_date <- Date.sub end_date delta ;;
  Ok (Date.strftime_Ymd start_date ++ " " ++ Date.strftime_Ymd end_date)%string.

End FetchPlotOOP.

(* ================================================================== *)
(** * The tables of the merge scripts *)

Module Frames.

(** A row of the interest table as the provider returns it: the date of
    the index, the integer column of the search term and the partial-day
    flag. *)
Record TrendRow : Type := {
  tr_date : Z;
  tr_Tesla_stock : Z;
  tr_isPartial : bool
}.

(** The interest table once the column [Trend_Percentage] is added. *)
Record TrendPctRow : Type := {
  tp_date : Z;
  tp_Tesla_stock : Z;
  tp_isPartial : bool;
  tp_Trend_Percentage : xnum
}.

(** A row of the price table, its column names already on one level. *)
Record StockRow : Type := {
  s_Date : Z;
  s_Close : xnum;
  s_High : xnum;
  s_Low : xnum;
  s_Open : xnum;
  s_Volume : xnum
}.

(** A row of the merged table: the price columns, then the interest
    columns; [Date] is its index. *)
Record MergedRow : Type := {
  Date : Z;
  Close : xnum;
  High : xnum;
  Low : xnum;
  Open : xnum;
  Volume : xnum;
  Tesla_stock : Z;
  isPartial : bool;
  Trend_Percentage : xnum
}.

Definition join_rows (s : StockRow) (t : TrendPctRow) : MergedRow :=
  {| Date := s_Date s;
     Close := s_Close s; High := s_High s; Low := s_Low s;
     Open := s_Open s; Volume := s_Volume s;
     Tesla_stock := tp_Tesla_stock t;
     isPartial := tp_isPartial t;
     Trend_Percentage := tp_Trend_Percentage t |}.

(** [pd.merge(left, right, on='Date', how='inner')]: every left row with
    every right row of the same date, in the order of the left keys. *)
Definition merge (left : list StockRow) (right : list TrendPctRow)
  : list MergedRow :=
  flat_map
    (fun s => map (join_rows s)
                (filter (fun t => (tp_date t =? s_Date s)%Z) right))
    left.

Definition row_has_na (r : MergedRow) : bool :=
  isna (Close r) || isna (High r) || isna (Low r) || isna (Open r)
  || isna (Volume r) || isna (Trend_Percentage r).

(** [df.dropna()]: the rows without a missing value. *)
Definition dropna (df : list MergedRow) : list MergedRow :=
  filter (fun r => negb (row_has_na r)) df.

(** [col.min()] and [col.max()]: missing values are skipped; the result is
    missing when nothing is left. *)
Fixpoint col_min (col : list xnum) : xnum :=
  match col with
  | [] => NaN
  | x :: rest =>
      let m := col_min rest in
      if isna x then m
      else if isna m then x
      else if xlt x m then x else m
  end.

Fixpoint col_max (col : list xnum) : xnum :=
  match col with
  | [] => NaN
  | x :: rest =>
      let m := col_max rest in
      if isna x then m
      else if isna m then x
      else if xlt m x then x else m
  end.

Definition of_bool (b : bool) : xnum := Fin (qz (if b then 1 else 0)).

(** The columns [corr()] works on, in the order of the table. *)
Definition numeric_columns (df : list MergedRow) : list (string * list xnum) :=
  [ ("Close", map Close df);
    ("High", map High df);
    ("Low", map Low df);
    ("Open", map Open df);
    ("Volume", map Volume df);
    ("Tesla stock", map (fun r => Fin (qz (Tesla_stock r))) df);
    ("isPartial", map (fun r => of_bool (isPartial r)) df);
    ("Trend_Percentage", map Trend_Percentage df) ]%string.

End Frames.

(* ================================================================== *)
(** * DataFrame.corr(): pairwise Pearson correlation *)

Module Corr.

Open Scope R_scope.

(** An entry of the matrix: a real number, or [None] for NaN. *)
Definition entry : Type := option R.

Definition to_R (q : Qc) : R := Q2R (this q).

(** The rows on which both columns hold a finite value. *)
Fixpoint complete_pairs (x y : list xnum) : list (R * R) :=
  match x, y with
  | Fin p :: x', Fin q :: y' => (to_R p, to_R q) :: complete_pairs x' y'
  | _ :: x', _ :: y' => complete_pairs x' y'
  | _, _ => []
  end.

Definition rsum (l : list R) : R := fold_right Rplus 0 l.

Definition mean (l : list R) : R := rsum l / INR (List.length l).

(** Sum of the products of the deviations from the two means. *)
Definition codeviation (ps : list (R * R)) : R :=
  let mx := mean (map fst ps) in
  let my := mean (map snd ps) in
  rsum (map (fun p => (fst p - mx) * (snd p - my)) ps).

Definition swap (p : R * R) : R * R := (snd p, fst p).

(** Pearson's coefficient of two columns: with less than one complete row,
    or a zero divisor, the entry is NaN. *)
Definition pearson (x y : list xnum) : entry :=
  let ps := complete_pairs x y in
  match ps with
  | [] => None
  | _ :: _ =>
      let ssqdm_x := codeviation (map (fun p => (fst p, fst p)) ps) in
      let ssqdm_y := codeviation (map (fun p => (snd p, snd p)) ps) in
      let covxy := codeviation ps in
      let divisor := sqrt (ssqdm_x * ssqdm_y) in
      if Req_dec_T divisor 0 then None else Some (covxy / divisor)
  end.

(** The matrix, by rows. *)
Definition corr (cols : list (string * list xnum)) : list (list entry) :=
  map (fun cx => map (fun cy => pearson (snd cx) (snd cy)) cols) cols.

(** The entry of row [i] and column [j]. *)
Definition at_ (m : list (list entry)) (i j : nat) : entry :=
  nth j (nth i m []) None.

(** The finite values of a column, in order. *)
Fixpoint finite_values (col : list xnum) : list Qc :=
  match col with
  | [] => []
  | Fin q :: rest => q :: finite_values rest
  | _ :: rest => finite_values rest
  end.

(** The finite values of the column are all the same (also when there is
    none, or only one). *)
Definition all_equal (col : list xnum) : Prop :=
  forall p q, In p (finite_values col) -> In q (finite_values col) -> p = q.

End Corr.

(* ================================================================== *)
(** * merge_GT_OHLCV.py *)

Module Merge.

Import Frames.

(** [calculate_trend_percentage(trend_data)]: the new column is
    [trend_data['Tesla stock'].pct_change() * 100]. *)
Definition calculate_trend_percentage (trend_data : list TrendRow)
  : list TrendPctRow :=
  let pct :=
    map (fun p => xmul p (Fin (qz 100)))
        (Series.pct_change (map (fun r => qz (tr_Tesla_stock r)) trend_data)) in
  map (fun rp =>
         {| tp_date := tr_date (fst rp);
            tp_Tesla_stock := tr_Tesla_stock (fst rp);
            tp_isPartial := tr_isPartial (fst rp);
            tp_Trend_Percentage := snd rp |})
      (combine trend_data pct).

(** The last statements of [align_data(trend_data, stock_data)], lines 107
    to 113, on two tables that hold their date in a column [Date]: the
    inner join on it, the date back as the index, and the rows with a
    missing value dropped.  The statements before them, on the names of
    the index and of the columns, are in [MergeTables.align_data], which
    ends with this one. *)
Definition align_data (trend_data : list TrendPctRow)
    (stock_data : list StockRow) : result (list MergedRow) :=
  let merged_data := merge stock_data trend_data in
  let merged_data := dropna merged_data in
  Ok merged_data.

(** [normalize_volume(stock_data)]: the table with the column
    [VolumeNormalized] beside each row. *)
Definition normalize_volume (stock_data : list StockRow)
  : list (StockRow * xnum) :=
  let volume_min := col_min (map s_Volume stock_data) in
  let volume_max := col_max (map s_Volume stock_data) in
  map (fun r =>
         (r, xmul (xdiv (xsub (s_Volume r) volume_min)
                        (xsub volume_max volume_min))
                  (Fin (qz 100))))
      stock_data.

(** [calculate_correlation(merged_data)]. *)
Definition calculate_correlation (merged_data : list MergedRow)
  : list (list Corr.entry) :=
  Corr.corr (numeric_columns merged_data).

(** The statements of the example run up to the merged table: the
    percentage column is computed on the interest table, then the tables
    are aligned. *)
Definition main (trend_df : list TrendRow) (stock_data : list StockRow)
  : result (list MergedRow) :=
  let trend_df := calculate_trend_percentage trend_df in
  align_data trend_df stock_data.

End Merge.

(* ================================================================== *)
(** * merge_GT_OHLCV_OOP.py

    The attributes [self.trend_data], [self.stock_data] and
    [self.merged_data] a method reads are its arguments; what it assigns
    is its result. *)

Module MergeOOP.

Import Frames.

(** [StockTrendAnalysis.calculate_trend_percentage(self)]. *)
Definition calculate_trend_percentage (self_trend_data : list TrendRow)
  : list TrendPctRow :=
  let pct :=
    map (fun p => xmul p (Fin (qz 100)))
        (Series.pct_change
           (map (fun r => qz (tr_Tesla_stock r)) self_trend_data)) in
  map (fun rp =>
         {| tp_date := tr_date (fst rp);
            tp_Tesla_stock := tr_Tesla_stock (fst rp);
            tp_isPartial := tr_isPartial (fst rp);
            tp_Trend_Percentage := snd rp |})
      (combine self_trend_data pct).

(** The last statements of [StockTrendAnalysis.align_data(self)], lines
    109 to 115, on two tables that hold their date in a column [Date]; the
    statements before them are in [MergeTablesOOP.align_data]. *)
Definition align_data (self_trend_data : list TrendPctRow)
    (self_stock_data : list StockRow) : result (list MergedRow) :=
  let self_merged_data := merge self_stock_data self_trend_data in
  let self_merged_data := dropna self_merged_data in
  Ok self_merged_data.

(** [StockTrendAnalysis.normalize_volume(self)], on the merged table. *)
Definition normalize_volume (self_merged_data : list MergedRow)
  : list (MergedRow * xnum) :=
  let volume_min := col_min (map Volume self_merged_data) in
  let volume_max := col_max (map Volume self_merged_data) in
  map (fun r =>
         (r, xmul (xdiv (xsub (Volume r) volume_min)
                        (xsub volume_max volume_min))
                  (Fin (qz 100))))
      self_merged_data.

(** [StockTrendAnalysis.calculate_correlation(self)]: the merged table
    holds the column [VolumeNormalized] by then. *)
Definition calculate_correlation (self_merged_data : list (MergedRow * xnum))
  : list (list Corr.entry) :=
  Corr.corr (numeric_columns (map fst self_merged_data)
             ++ [("VolumeNormalized"%string, map snd self_merged_data)]).

(** The statements of the example run up to the merged table. *)
Definition main (trend_data : list TrendRow) (stock_data : list StockRow)
  : result (list MergedRow) :=
  let trend_data := calculate_trend_percentage trend_data in
  align_data trend_data stock_data.

End MergeOOP.

(* ================================================================== *)
(** * The volume scaling in binary64 *)

Module F64.

Import PrimFloat.

Fixpoint col_min (col : list float) : float :=
  match col with
  | [] => nan
  | x :: rest =>
      let m := col_min rest in
      if is_nan x then m
      else if is_nan m then x
      else if ltb x m then x else m
  end.

Fixpoint col_max (col : list float) : float :=
  match col with
  | [] => nan
  | x :: rest =>
      let m := col_max rest in
      if is_nan x then m
      else if is_nan m then x
      else if ltb m x then x else m
  end.

(** The column [VolumeNormalized] of [normalize_volume], every operation
    rounded as the float64 columns of pandas round it. *)
Definition normalize_volume (Volume : list float) : list float :=
  let volume_min := col_min Volume in
  let volume_max := col_max Volume in
  map (fun v => mul (div (sub v volume_min) (sub volume_max volume_min)) 100)
      Volume.

(** The whole volumes 0, 1, ..., [d], as floats. *)
Definition whole_volumes (d : nat) : list float :=
  map (fun k => of_uint63 (Uint63.of_Z (Z.of_nat k))) (seq 0 (S d)).

(** Two columns hold the same floats, cell by cell. *)
Fixpoint column_eqb (a b : list float) : bool :=
  match a, b with
  | [], [] => true
  | x :: a', y :: b' => Leibniz.eqb x y && column_eqb a' b'
  | _, _ => false
  end.

(** The scaling run on the scaled volumes 0, 1, ..., [d] returns them as
    they are. *)
Definition rescaling_unchanged (d : nat) : bool :=
  let scaled := F64.normalize_volume (whole_volumes d) in
  column_eqb (F64.normalize_volume scaled) scaled.

End F64.

(* ================================================================== *)
(** * Statements of the specification, in its own words *)

Module Spec.

Open Scope Qc_scope.

(** The recursive exponential moving average: [EMA[0] = value[0]] and
    [EMA[t] = alpha * value[t] + (1 - alpha) * EMA[t-1]]. *)
Fixpoint EMA (alpha : Qc) (value : list Qc) (t : nat) : Qc :=
  match t with
  | O => nth 0 value 0
  | S t' => alpha * nth t value 0 + (1 - alpha) * EMA alpha value t'
  end.

(** The sentiment that goes with a change: positive, negative or none. *)
Definition is_sentiment (change : Qc) (s : string) : Prop :=
  (0 < change -> s = "Positive"%string)
  /\ (change < 0 -> s = "Negative"%string)
  /\ (change = 0 -> s = "Neutral"%string).

(** What the specification says of [percentage_trend_analysis] on a series
    of at least two elements whose first element is not zero: the pair of
    [((last - first) / first) * 100] and the sentiment of its sign. *)
Definition percentage_claim (trend_data : list Qc) : Prop :=
  (2 <= List.length trend_data)%nat ->
  hd 0 trend_data <> 0 ->
  let first := hd 0 trend_data in
  let last := List.last trend_data 0 in
  let change := (last - first) / first * qz 100 in
  exists sentiment,
    FetchPlot.percentage_trend_analysis trend_data = Ok (Fin change, sentiment)
    /\ is_sentiment change sentiment.

(** [q] is the first valid (non-missing) value of the column [ma]. *)
Definition first_valid (ma : list xnum) (q : Qc) : Prop :=
  exists i, nth i ma NaN = Fin q /\ forall j, (j < i)%nat -> nth j ma NaN = NaN.

(** [q] is the last valid (non-missing) value of the column [ma]. *)
Definition last_valid (ma : list xnum) (q : Qc) : Prop :=
  exists i, nth i ma NaN = Fin q /\ forall j, (i < j)%nat -> nth j ma NaN = NaN.

(** What the specification says of [get_timeframe] at [n] days back: the
    string of the two dates, both of the shape YYYY-MM-DD, the first one
    before the second. *)
Definition timeframe_claim (today : Date.date) (n : Z) : Prop :=
  let first := (today - n)%Z in
  FetchPlot.get_timeframe today n
  = Ok (Date.strftime_Ymd first ++ " " ++ Date.strftime_Ymd today)%string
  /\ Date.is_YYYY_MM_DD (Date.strftime_Ymd first) = true
  /\ Date.is_YYYY_MM_DD (Date.strftime_Ymd today) = true
  /\ (first < today)%Z.

(** The percent change of the interest value [cur] against [prev]:
    [(cur - prev) / prev * 100]. *)
Definition percent_change (cur prev : Z) : xnum :=
  xmul (xdiv (xsub (Fin (qz cur)) (Fin (qz prev))) (Fin (qz prev)))
       (Fin (qz 100)).

(** The percent change of the row [k] of the interest table against the
    row before it in that table; absent on the first row. *)
Definition pre_join_percentage (trend : list Frames.TrendRow) (k : nat) : xnum :=
  match k with
  | O => NaN
  | S k' =>
      match nth_error trend k, nth_error trend k' with
      | Some cur, Some prev =>
          percent_change (Frames.tr_Tesla_stock cur) (Frames.tr_Tesla_stock prev)
      | _, _ => NaN
      end
  end.

(** What the specification says of [trend_percentage]: on the joined
    table, the first row has none and every other row holds the percent
    change against the joined row before it. *)
Definition percentage_over_join (trend : list Frames.TrendRow)
    (stock : list Frames.StockRow) : Prop :=
  let joined := Frames.merge stock (Merge.calculate_trend_percentage trend) in
  (forall r, nth_error joined 0 = Some r -> Frames.Trend_Percentage r = NaN)
  /\ (forall i r prev,
         nth_error joined (S i) = Some r ->
         nth_error joined i = Some prev ->
         Frames.Trend_Percentage r
         = percent_change (Frames.Tesla_stock r) (Frames.Tesla_stock prev)).

(** The rows after [prev] of the interest table, each with its percent
    change against the row before it. *)
Fixpoint percentages_after (prev : Frames.TrendRow)
    (rest : list Frames.TrendRow) : list Frames.TrendPctRow :=
  match rest with
  | [] => []
  | r :: rest' =>
      {| Frames.tp_date := Frames.tr_date r;
         Frames.tp_Tesla_stock := Frames.tr_Tesla_stock r;
         Frames.tp_isPartial := Frames.tr_isPartial r;
         Frames.tp_Trend_Percentage :=
           percent_change (Frames.tr_Tesla_stock r) (Frames.tr_Tesla_stock prev) |}
      :: percentages_after r rest'
  end.

(** The two tables share no date. *)
Definition disjoint_dates (trend : list Frames.TrendPctRow)
    (stock : list Frames.StockRow) : Prop :=
  forall s t, In s stock -> In t trend -> Frames.tp_date t <> Frames.s_Date s.

(** What the specification says of the correlation matrix of a merged
    table: symmetric over the eight numeric columns, 1.0 on the diagonal. *)
Definition correlation_claim (merged_data : list Frames.MergedRow) : Prop :=
  let m := Merge.calculate_correlation merged_data in
  (forall i j, (i < 8)%nat -> (j < 8)%nat -> Corr.at_ m i j = Corr.at_ m j i)
  /\ (forall i, (i < 8)%nat -> Corr.at_ m i i = Some 1%R).

(** The price table whose column [Volume] holds the scaled volumes of
    [normalize_volume]: the table on which the scaling is run again. *)
Definition already_scaled (stock_data : list Frames.StockRow)
  : list Frames.StockRow :=
  map (fun rv =>
         {| Frames.s_Date := Frames.s_Date (fst rv);
            Frames.s_Close := Frames.s_Close (fst rv);
            Frames.s_High := Frames.s_High (fst rv);
            Frames.s_Low := Frames.s_Low (fst rv);
            Frames.s_Open := Frames.s_Open (fst rv);
            Frames.s_Volume := snd rv |})
      (Merge.normalize_volume stock_data).

(** The same for the merged table of the class. *)
Definition already_scaled_merged (merged_data : list Frames.MergedRow)
  : list Frames.MergedRow :=
  map (fun rv =>
         {| Frames.Date := Frames.Date (fst rv);
            Frames.Close := Frames.Close (fst rv);
            Frames.High := Frames.High (fst rv);
            Frames.Low := Frames.Low (fst rv);
            Frames.Open := Frames.Open (fst rv);
            Frames.Volume := snd rv;
            Frames.Tesla_stock := Frames.Tesla_stock (fst rv);
            Frames.isPartial := Frames.isPartial (fst rv);
            Frames.Trend_Percentage := Frames.Trend_Percentage (fst rv) |})
      (MergeOOP.normalize_volume merged_data).

End Spec.

(* ================================================================== *)
(** * Inputs of the examples *)

Module Examples.

Open Scope Qc_scope.

(** The series 1, 2, 3, 4, 5. *)
Definition series_1_to_5 : list Qc := [qz 1; qz 2; qz 3; qz 4; qz 5].

(** An object of the class whose downloaded table holds the one column
    [col] under the search term. *)
Definition tesla (col : list Qc) : FetchPlotOOP.StockTrendAnalysis :=
  {| FetchPlotOOP.search_term := "Tesla stock";
     FetchPlotOOP.timeframe := "today 7-d";
     FetchPlotOOP.geo := "";
     FetchPlotOOP.gprop := "";
     FetchPlotOOP.trend_data := Some [("Tesla stock"%string, col)] |}.

(** An interest table of three days and a price table without the second
    of them. *)
Definition trend_3 : list Frames.TrendRow :=
  [ {| Frames.tr_date := 1; Frames.tr_Tesla_stock := 10;
       Frames.tr_isPartial := false |};
    {| Frames.tr_date := 2; Frames.tr_Tesla_stock := 20;
       Frames.tr_isPartial := false |};
    {| Frames.tr_date := 3; Frames.tr_Tesla_stock := 40;
       Frames.tr_isPartial := false |} ].

Definition bar (day : Z) (volume : Z) : Frames.StockRow :=
  {| Frames.s_Date := day;
     Frames.s_Close := Fin (qz 5); Frames.s_High := Fin (qz 6);
     Frames.s_Low := Fin (qz 4); Frames.s_Open := Fin (qz 5);
     Frames.s_Volume := Fin (qz volume) |}.

Definition stock_1_3 : list Frames.StockRow := [bar 1 1000; bar 3 3000].

(** A price table on days the interest table does not have. *)
Definition stock_7_8 : list Frames.StockRow := [bar 7 1000; bar 8 3000].

(** Prices of the days 2 and 3. *)
Definition stock_2_3 : list Frames.StockRow := [bar 2 1000; bar 3 3000].

(** What the example run merges from the interest table of the days 1, 2,
    3 and the prices of the days 2 and 3. *)
Definition merged_2_3 : list Frames.MergedRow :=
  match Merge.main trend_3 stock_2_3 with
  | Ok merged => merged
  | Raise _ => []
  end.

End Examples.

Import Examples.

(* ================================================================== *)
(** * The rest of the fetch-and-plot scripts: the chart and the example runs *)

Module FetchPlotRun.

Import FetchPlotOOP.

(** [visualize_trend(trend_data, moving_average_window=3, ema_window=3)]:
    the three lines handed to the chart, which are the series, its moving
    average and its exponential moving average. *)
Definition visualize_trend (trend_data : list Qc)
    (moving_average_window ema_window : Z)
  : result (list Qc * list xnum * list xnum) :=
  trend_data_ma <- Series.rolling_mean trend_data moving_average_window ;;
  trend_data_ema <- FetchPlot.calculate_ema trend_data ema_window ;;
  Ok (trend_data, trend_data_ma, trend_data_ema).

(** What an example run prints: the notice of an empty download, or the
    sentiment of the trend, the percentage and its sentiment. *)
Inductive printed : Type :=
| NoTrendData
| Report (sentiment : string) (percentage_change : xnum)
    (sentiment_percentage : string).

(** [df.empty]: no column, or no row. *)
Definition empty (df : DataFrame) : bool :=
  match df with
  | [] => true
  | (_, col) :: _ => (List.length col =? 0)%nat
  end.

(** The example run of fetch_plot_MA_EMA_GT.py on the table [trend_df]
    that the download of the last 20 days returns. *)
Definition main (today : Date.date) (trend_df : DataFrame) : result printed :=
  timeframe <- FetchPlot.get_timeframe today 20 ;;
  if empty trend_df then Ok NoTrendData
  else
    col <- getitem trend_df "Tesla stock" ;;
    sentiment <- FetchPlot.trend_analysis col 3 ;;
    col' <- getitem trend_df "Tesla stock" ;;
    ps <- FetchPlot.percentage_trend_analysis col' ;;
    col'' <- getitem trend_df "Tesla stock" ;;
    lines <- visualize_trend col'' 3 3 ;;
    Ok (Report sentiment (fst ps) (snd ps)).

(** The example run of fetch_plot_MA_EMA_GT_OOP.py, up to the chart: the
    object is built, the download assigns [trend_data], and the two
    analyses run without a look at the table. *)
Definition main_oop (today : Date.date) (downloaded : DataFrame)
  : result printed :=
  timeframe <- FetchPlotOOP.get_timeframe today 20 ;;
  let trend_analysis_obj :=
    {| search_term := "Tesla stock";
       timeframe := timeframe;
       geo := "";
       gprop := "";
       trend_data := Some downloaded |} in
  sentiment <- FetchPlotOOP.trend_analysis trend_analysis_obj 3 ;;
  ps <- FetchPlotOOP.percentage_trend_analysis trend_analysis_obj ;;
  Ok (Report sentiment (fst ps) (snd ps)).

End FetchPlotRun.

(* ================================================================== *)
(** * Reading a printed date back *)

Module DateCodec.

Open Scope Z_scope.

Definition digit_value (c : ascii) : Z := Z.of_nat (nat_of_ascii c) - 48.

(** The number a numeral stands for, digit by digit. *)
Fixpoint number (acc : Z) (s : string) : Z :=
  match s with
  | EmptyString => acc
  | String c s' => number (acc * 10 + digit_value c) s'
  end.

(** Year, month and day of a string of the shape YYYY-MM-DD, by position. *)
Definition fields (s : string) : Z * Z * Z :=
  (number 0 (substring 0 4 s),
   number 0 (substring 5 2 s),
   number 0 (substring 8 2 s)).

(** The date a string of the shape YYYY-MM-DD stands for. *)
Definition decode (s : string) : Date.date :=
  let '(y, m, d) := fields s in Date.ymd2ord y m d.

(** A numeral of [k] digits that reads back as [n]. *)
Definition reads_back (k : nat) (n : Z) : bool :=
  Date.is_numeral k (Date.zfill k (Date.str n))
  && (number 0 (Date.zfill k (Date.str n)) =? n).

End DateCodec.

(* ================================================================== *)
(** * The column names of align_data

    The price table comes with column names on two levels, the name of
    the price and the ticker symbol; the column of the dates, once the
    index is reset, has the empty string on the second level.  The
    function brings the names to one level with string operations
    (merge_GT_OHLCV.py, lines 87 to 96), the method keeps the first level
    (merge_GT_OHLCV_OOP.py, line 98).  The column of the dates of the
    interest table is renamed by a replacement inside every name in the
    function (lines 77 and 81) and by its exact name in the method
    (line 95).  [str.replace] of a column index replaces the text as it
    is written, not as a pattern. *)

Module ColumnNames.

Open Scope string_scope.

(** [s.startswith(p)]. *)
Fixpoint startswith (p s : string) : bool :=
  match p, s with
  | EmptyString, _ => true
  | String _ _, EmptyString => false
  | String a p', String b s' => Ascii.eqb a b && startswith p' s'
  end.

(** [p in s]. *)
Fixpoint contains (p s : string) : bool :=
  startswith p s
  || match s with
     | EmptyString => false
     | String _ s' => contains p s'
     end.

(** [s.replace(old, new)] for a pattern that is not empty: the
    occurrences are taken from the left and do not overlap; [skip] counts
    the characters of an occurrence still to pass. *)
Fixpoint replace_skip (old new : string) (skip : nat) (s : string) : string :=
  match s with
  | EmptyString => EmptyString
  | String c s' =>
      match skip with
      | S k => replace_skip old new k s'
      | O =>
          if startswith old s
          then new ++ replace_skip old new (String.length old - 1) s'
          else String c (replace_skip old new 0 s')
      end
  end.

(** With the empty pattern [new] goes before every character and at the
    end. *)
Fixpoint replace_empty (new s : string) : string :=
  match s with
  | EmptyString => new
  | String c s' => new ++ String c (replace_empty new s')
  end.

Definition replace (old new s : string) : string :=
  match old with
  | EmptyString => replace_empty new s
  | String _ _ => replace_skip old new 0 s
  end.

(** [s.split(sep)] for a separator of one character. *)
Fixpoint split (sep : ascii) (s : string) : list string :=
  match s with
  | EmptyString => [EmptyString]
  | String c s' =>
      if Ascii.eqb c sep then EmptyString :: split sep s'
      else match split sep s' with
           | piece :: pieces => String c piece :: pieces
           | [] => [String c EmptyString]
           end
  end.

(** [l[i]] for an index from the left. *)
Definition item {A : Type} (l : list A) (i : nat) : result A :=
  match nth_error l i with
  | Some a => Ok a
  | None => Raise IndexError
  end.

(** [l[-1]]. *)
Definition item_last {A : Type} (l : list A) : result A :=
  match rev l with
  | a :: _ => Ok a
  | [] => Raise IndexError
  end.

(** [df.rename(columns={old: new})] on one name. *)
Definition rename (old new name : string) : string :=
  if String.eqb name old then new else name.

(** The names of the price table in the function, from
    ['_'.join(col)] to the replacement of ['Date_']. *)
Definition stock_columns (columns : list (string * string))
  : result (list string) :=
  let columns := map (fun col => fst col ++ "_" ++ snd col) columns in
  last_column <- item_last columns ;;
  ticker_symbol <- item (split "_" last_column) 1 ;;
  let columns := map (replace ("_" ++ ticker_symbol) "") columns in
  let columns := map (replace "Date_" "Date") columns in
  Ok columns.

(** The names of the price table in the method:
    [columns.get_level_values(0)]. *)
Definition stock_columns_oop (columns : list (string * string)) : list string :=
  map fst columns.

(** The names of the interest table in the function. *)
Definition trend_columns (columns : list string) : list string :=
  let columns := map (rename "index" "Date") columns in
  map (replace "date" "Date") columns.

(** The names of the interest table in the method. *)
Definition trend_columns_oop (columns : list string) : list string :=
  map (rename "date" "Date") columns.

End ColumnNames.

(* ================================================================== *)
(** * align_data on whole tables

    [Merge.align_data] and [MergeOOP.align_data] above are the last
    statements of [align_data], from the join on, on two tables that hold
    their dates in a column [Date].  The statements before them work on
    the names of the index and of the columns, and raise when a name is
    not there.  Here the tables come with these names, and [align_data]
    is the whole function.

    The columns of the interest table are those of the example runs,
    ['Tesla stock'], ['isPartial'] and ['Trend_Percentage']; the price
    table has its five columns under a ticker symbol on the second
    level. *)

Module Tables.

Import Frames.

Open Scope string_scope.

(** A table as it is handed to [align_data]: the name of its index
    ([None] for an index without a name) and its rows. *)
Record TrendTable : Type := {
  trend_index_name : option string;
  trend_rows : list TrendPctRow
}.

Record StockTable : Type := {
  stock_index_name : option string;
  ticker : string;
  stock_rows : list StockRow
}.

Definition trend_column_names : list string :=
  ["Tesla stock"; "isPartial"; "Trend_Percentage"].

Definition stock_column_names (ticker : string) : list (string * string) :=
  [("Close", ticker); ("High", ticker); ("Low", ticker); ("Open", ticker);
   ("Volume", ticker)].

(** [name in columns]. *)
Definition has_column (columns : list string) (name : string) : bool :=
  existsb (String.eqb name) columns.

(** The name [df.reset_index()] gives the column of the index: the name
    of the index, or ['index'] when it has none (['level_0'] when a column
    ['index'] is there). *)
Definition index_column (index_name : option string) (columns : list string)
  : string :=
  match index_name with
  | Some name => name
  | None => if has_column columns "index" then "level_0" else "index"
  end.

(** [df.reset_index()] on the names of the columns: the index becomes the
    first column; a column of its name already there is a [ValueError]. *)
Definition reset_index (index_name : option string) (columns : list string)
  : result (list string) :=
  let name := index_column index_name columns in
  if has_column columns name then Raise ValueError
  else Ok (name :: columns).

(** The same on names of two levels: the new column has the empty string
    on the second level. *)
Definition reset_index_levels (index_name : option string)
    (columns : list (string * string)) : result (list (string * string)) :=
  let name := index_column index_name (map fst columns) in
  if existsb (fun col => String.eqb (fst col) name && String.eqb (snd col) "")
             columns
  then Raise ValueError
  else Ok ((name, "") :: columns).

(** [df['Date']], as far as the names go: a [KeyError] without a column of
    that name. *)
Definition getitem_Date (columns : list string) : result unit :=
  if has_column columns "Date" then Ok tt else Raise KeyError.

End Tables.

Module MergeTables.

Import Frames Tables.

(** [align_data(trend_data, stock_data)] of merge_GT_OHLCV.py, statement
    by statement: the two indexes become columns (lines 70 and 75), the
    column of the interest table is renamed (lines 77 and 81) and read
    (line 83), the column [Date] of the price table is read on the first
    level of its names (line 85), the names are brought to one level
    (lines 87 to 96), both columns are read again (lines 98 and 99), and
    the tables are joined (lines 107 to 113). *)
Definition align_data (trend_data : TrendTable) (stock_data : StockTable)
  : result (list MergedRow) :=
  stock_columns <- reset_index_levels (stock_index_name stock_data)
                     (stock_column_names (ticker stock_data)) ;;
  trend_columns <- reset_index (trend_index_name trend_data)
                     trend_column_names ;;
  let trend_columns := ColumnNames.trend_columns trend_columns in
  _ <- getitem_Date trend_columns ;;
  _ <- getitem_Date (map fst stock_columns) ;;
  stock_columns <- ColumnNames.stock_columns stock_columns ;;
  _ <- getitem_Date stock_columns ;;
  _ <- getitem_Date trend_columns ;;
  Merge.align_data (trend_rows trend_data) (stock_rows stock_data).

End MergeTables.

Module MergeTablesOOP.

Import Frames Tables.

(** [StockTrendAnalysis.align_data(self)] of merge_GT_OHLCV_OOP.py: the
    two indexes become columns (lines 89 and 93), the column ['date'] of
    the interest table is renamed (line 95), the names of the price table
    are cut to their first level (line 98), both columns [Date] are read
    (lines 105 and 106), and the tables are joined (lines 109 to 115). *)
Definition align_data (self_trend_data : TrendTable)
    (self_stock_data : StockTable) : result (list MergedRow) :=
  stock_columns <- reset_index_levels (stock_index_name self_stock_data)
                     (stock_column_names (ticker self_stock_data)) ;;
  trend_columns <- reset_index (trend_index_name self_trend_data)
                     trend_column_names ;;
  let trend_columns := ColumnNames.trend_columns_oop trend_columns in
  let stock_columns := ColumnNames.stock_columns_oop stock_columns in
  _ <- getitem_Date stock_columns ;;
  _ <- getitem_Date trend_columns ;;
  MergeOOP.align_data (trend_rows self_trend_data) (stock_rows self_stock_data).

End MergeTablesOOP.

Module SpecTables.

Import Frames Tables.

(** What the specification says of [align]: [AlignmentError] on tables
    without a common date, a normal return otherwise. *)
Definition alignment_claim (trend : TrendTable) (stock : StockTable) : Prop :=
  (Spec.disjoint_dates (trend_rows trend) (stock_rows stock) ->
   MergeTables.align_data trend stock = Raise AlignmentError)
  /\ (~ Spec.disjoint_dates (trend_rows trend) (stock_rows stock) ->
      exists merged, MergeTables.align_data trend stock = Ok merged).

(** The interest table of three days as the download names it, and prices
    of the ticker TSLA on the days 7 and 8. *)
Definition trend_table_3 : TrendTable :=
  {| trend_index_name := Some "date"%string;
     trend_rows := Merge.calculate_trend_percentage Examples.trend_3 |}.

Definition stock_table_7_8 : StockTable :=
  {| stock_index_name := Some "Date"%string;
     ticker := "TSLA"%string;
     stock_rows := Examples.stock_7_8 |}.

End SpecTables.

(* ================================================================== *)
(** * Arithmetic of the rationals and of the extended numbers *)

Section QcFacts.

Open Scope Qc_scope.

Lemma Qc_eqb_eq (a b : Qc) : Qc_eqb a b = true <-> a = b.
Proof.
  unfold Qc_eqb. rewrite Qceq_alt.
  destruct (a ?= b); split; intros; congruence.
Qed.

Lemma Qc_eqb_refl (a : Qc) : Qc_eqb a a = true.
Proof. apply Qc_eqb_eq. reflexivity. Qed.

Lemma Qc_eqb_neq (a b : Qc) : Qc_eqb a b = false <-> a <> b.
Proof.
  rewrite <- Qc_eqb_eq. destruct (Qc_eqb a b); split; intros; congruence.
Qed.

Lemma xnum_eqb_eq (a b : xnum) : xnum_eqb a b = true -> a = b.
Proof.
  destruct a, b; cbn [xnum_eqb]; intros H; try discriminate; try reflexivity.
  apply Qc_eqb_eq in H. congruence.
Qed.

(** Two columns are equal when their cells are, one by one. *)
Lemma column_eqb_eq (l1 l2 : list xnum) :
  List.length l1 = List.length l2 ->
  forallb (fun ab => xnum_eqb (fst ab) (snd ab)) (combine l1 l2) = true ->
  l1 = l2.
Proof.
  revert l2. induction l1 as [|a l1 IH]; intros [|b l2] Hlen H;
    try discriminate; [reflexivity|].
  cbn [combine forallb fst snd] in H. apply andb_prop in H. destruct H as [Hab H].
  f_equal; [apply xnum_eqb_eq; exact Hab | apply IH; [now inversion Hlen | exact H]].
Qed.

Lemma Qc_ltb_lt (a b : Qc) : Qc_ltb a b = true <-> a < b.
Proof.
  unfold Qc_ltb. rewrite Qclt_alt.
  destruct (a ?= b); split; intros; congruence.
Qed.

Lemma qz_pos (z : Z) : (0 < z)%Z -> 0 < qz z.
Proof.
  intros Hz. unfold qz, Qclt. cbn [this Q2Qc].
  setoid_rewrite Qred_correct. unfold Qlt. simpl. lia.
Qed.

Lemma qz_eq (a b : Z) : qz a = qz b -> a = b.
Proof.
  unfold qz. intros H.
  assert (E : (inject_Z a == inject_Z b)%Q).
  { rewrite <- (Qred_correct (inject_Z a)), <- (Qred_correct (inject_Z b)).
    change (Qred (inject_Z a)) with (this (Q2Qc (inject_Z a))).
    change (Qred (inject_Z b)) with (this (Q2Qc (inject_Z b))).
    rewrite H. reflexivity. }
  unfold Qeq in E. simpl in E. lia.
Qed.


Lemma qz_add (a b : Z) : qz (a + b) = qz a + qz b.
Proof.
  apply Qc_is_canon. unfold qz, Qcplus. cbn [this Q2Qc].
  rewrite !Qred_correct. rewrite inject_Z_plus. reflexivity.
Qed.

Lemma qz_nonzero (z : Z) : z <> 0%Z -> qz z <> 0.
Proof. intros H E. apply H. apply qz_eq. exact E. Qed.

Lemma this_plus (a b : Qc) : (this (a + b) == this a + this b)%Q.
Proof. unfold Qcplus. cbn [this Q2Qc]. apply Qred_correct. Qed.

Lemma this_opp (a : Qc) : (this (- a) == - this a)%Q.
Proof. unfold Qcopp. cbn [this Q2Qc]. apply Qred_correct. Qed.

Lemma this_minus (a b : Qc) : (this (a - b) == this a - this b)%Q.
Proof. unfold Qcminus. rewrite this_plus, this_opp. reflexivity. Qed.

Lemma Qcminus_neg (a b : Qc) : a - b < 0 <-> a < b.
Proof.
  unfold Qclt. rewrite this_minus. change (this 0) with 0%Q.
  split; intros H; Lqa.lra.
Qed.

Lemma Qcminus_pos (a b : Qc) : 0 < a - b <-> b < a.
Proof.
  unfold Qclt. rewrite this_minus. change (this 0) with 0%Q.
  split; intros H; Lqa.lra.
Qed.

Lemma Qcminus_zero (a b : Qc) : a - b = 0 <-> a = b.
Proof.
  split; intros H.
  - apply Qc_is_canon.
    assert (E : (this (a - b) == 0)%Q) by (rewrite H; reflexivity).
    rewrite this_minus in E. Lqa.lra.
  - subst. ring.
Qed.

Lemma Qc_ltb_irrefl (a : Qc) : Qc_ltb a a = false.
Proof.
  destruct (Qc_ltb a a) eqn:E; [|reflexivity].
  apply Qc_ltb_lt in E. exfalso. exact (Qclt_not_eq _ _ E eq_refl).
Qed.

Lemma Qc_ltb_asym (a b : Qc) : Qc_ltb a b = true -> Qc_ltb b a = false.
Proof.
  intros H. destruct (Qc_ltb b a) eqn:E; [|reflexivity].
  apply Qc_ltb_lt in H, E. exfalso.
  exact (Qclt_not_eq _ _ (Qclt_trans _ _ _ H E) eq_refl).
Qed.

Lemma Qc_ltb_total (a b : Qc) :
  Qc_ltb a b = false -> Qc_ltb b a = false -> a = b.
Proof.
  intros H1 H2.
  destruct (Qc_dec a b) as [[L|G]|E]; [| |exact E].
  - apply Qc_ltb_lt in L. congruence.
  - apply Qc_ltb_lt in G. congruence.
Qed.

End QcFacts.

(* ================================================================== *)
(** * Positions of a series and the choice of a sentiment *)

Section SeriesFacts.

Open Scope Qc_scope.

Lemma iloc_first_hd (A : Type) (d : A) (s : list A) :
  s <> [] -> Series.iloc_first s = Ok (hd d s).
Proof. destruct s; [congruence | reflexivity]. Qed.

Lemma iloc_last_last (A : Type) (d : A) (s : list A) :
  s <> [] -> Series.iloc_last s = Ok (last s d).
Proof.
  induction s as [|x s IH]; [congruence|]. intros _.
  destruct s as [|y s]; [reflexivity|].
  change (Series.iloc_last (x :: y :: s)) with (Series.iloc_last (y :: s)).
  change (last (x :: y :: s) d) with (last (y :: s) d).
  apply IH. discriminate.
Qed.

(** The three-way choice of the scripts between two finite values. *)
Lemma sentiment_choice (a b : Qc) :
  Spec.is_sentiment (a - b)
    (if xgt (Fin a) (Fin b) then "Positive"
     else if xlt (Fin a) (Fin b) then "Negative" else "Neutral")%string.
Proof.
  unfold xgt. cbn [xlt]. unfold Spec.is_sentiment.
  rewrite Qcminus_pos, Qcminus_neg, Qcminus_zero.
  destruct (Qc_ltb b a) eqn:E1.
  - pose proof (Qc_ltb_asym _ _ E1) as E2. apply Qc_ltb_lt in E1.
    repeat split; intros H; try reflexivity.
    + apply Qc_ltb_lt in H. congruence.
    + subst. exfalso. exact (Qclt_not_eq _ _ E1 eq_refl).
  - destruct (Qc_ltb a b) eqn:E2.
    + apply Qc_ltb_lt in E2. repeat split; intros H; try reflexivity.
      * apply Qc_ltb_lt in H. congruence.
      * subst. exfalso. exact (Qclt_not_eq _ _ E2 eq_refl).
    + repeat split; intros H; try reflexivity.
      * apply Qc_ltb_lt in H. congruence.
      * apply Qc_ltb_lt in H. congruence.
Qed.

Lemma sentiment_choice_0 (c : Qc) :
  Spec.is_sentiment c
    (if xgt (Fin c) (Fin (qz 0)) then "Positive"
     else if xlt (Fin c) (Fin (qz 0)) then "Negative" else "Neutral")%string.
Proof.
  pose proof (sentiment_choice c (qz 0)) as H.
  replace (c - qz 0) with c in H by (change (qz 0) with 0; ring).
  exact H.
Qed.

Lemma percentage_trend_analysis_oop (self : FetchPlotOOP.StockTrendAnalysis)
    (trend_data : list Qc) :
  FetchPlotOOP.term_column self = Ok trend_data ->
  FetchPlotOOP.percentage_trend_analysis self
  = FetchPlot.percentage_trend_analysis trend_data.
Proof.
  intros H. unfold FetchPlotOOP.percentage_trend_analysis. rewrite H.
  reflexivity.
Qed.

Lemma inf_times_true (q : Qc) :
  (0 < q -> inf_times true q = PInf)
  /\ (q < 0 -> inf_times true q = NInf)
  /\ (q = 0 -> inf_times true q = NaN).
Proof.
  unfold inf_times. repeat split; intros H.
  - assert (E : (q ?= 0) = Gt) by (apply Qcgt_alt; exact H).
    rewrite E. reflexivity.
  - assert (E : (q ?= 0) = Lt) by (apply Qclt_alt; exact H).
    rewrite E. reflexivity.
  - assert (E : (q ?= 0) = Eq) by (apply Qceq_alt; exact H).
    rewrite E. reflexivity.
Qed.

Lemma iloc_last_app (A : Type) (l : list A) (x : A) :
  Series.iloc_last (l ++ [x]) = Ok x.
Proof.
  induction l as [|y l IH]; [reflexivity|].
  cbn [app]. destruct (l ++ [x]) eqn:E.
  - destruct l; discriminate E.
  - rewrite <- E in *. cbn [Series.iloc_last]. rewrite E. rewrite <- E. exact IH.
Qed.

Lemma dropna_first_valid (ma : list xnum) (q : Qc) :
  Spec.first_valid ma q ->
  Series.iloc_first (Series.dropna ma) = Ok (Fin q).
Proof.
  intros [i [Hi Hbefore]]. revert ma Hi Hbefore.
  induction i as [|i IH]; intros ma Hi Hbefore.
  - destruct ma as [|x ma]; cbn [nth] in Hi; [discriminate|].
    subst x. reflexivity.
  - destruct ma as [|x ma]; cbn [nth] in Hi; [discriminate|].
    assert (Hx : x = NaN) by (apply (Hbefore 0%nat); lia).
    subst x. cbn [Series.dropna filter isna negb].
    apply IH; [exact Hi|].
    intros j Hj. apply (Hbefore (S j)). lia.
Qed.

Lemma dropna_all_missing (l : list xnum) :
  (forall j, nth j l NaN = NaN) -> Series.dropna l = [].
Proof.
  induction l as [|x l IH]; intros H; [reflexivity|].
  pose proof (H 0%nat) as H0. cbn [nth] in H0. subst x.
  cbn [Series.dropna filter isna negb]. apply IH.
  intros j. exact (H (S j)).
Qed.

Lemma dropna_last_valid (ma : list xnum) (q : Qc) :
  Spec.last_valid ma q ->
  Series.iloc_last (Series.dropna ma) = Ok (Fin q).
Proof.
  intros [i [Hi Hafter]]. revert ma Hi Hafter.
  induction i as [|i IH]; intros ma Hi Hafter.
  - destruct ma as [|x ma]; cbn [nth] in Hi; [discriminate|].
    subst x. cbn [Series.dropna filter isna negb].
    fold (Series.dropna ma).
    rewrite (dropna_all_missing ma); [reflexivity|].
    intros j. apply (Hafter (S j)). lia.
  - destruct ma as [|x ma]; cbn [nth] in Hi; [discriminate|].
    assert (IH' : Series.iloc_last (Series.dropna ma) = Ok (Fin q)).
    { apply IH; [exact Hi|]. intros j Hj. apply (Hafter (S j)). lia. }
    cbn [Series.dropna filter]. fold (Series.dropna ma).
    destruct (negb (isna x)); [|exact IH'].
    destruct (Series.dropna ma) as [|y l] eqn:E; [discriminate IH'|].
    exact IH'.
Qed.

(** The first row of a moving average over two values or more is missing. *)
Lemma rolling_mean_first_missing (v : list Qc) (w : Z) :
  (2 <= w)%Z -> v <> [] ->
  exists rest, Series.rolling_mean v w = Ok (NaN :: rest).
Proof.
  intros Hw Hv. unfold Series.rolling_mean.
  replace (w <? 0)%Z with false by (symmetry; apply Z.ltb_ge; lia).
  destruct v as [|x v]; [congruence|].
  cbn [List.length seq map]. eexists. f_equal. f_equal.
  unfold Series.rolling_mean_at.
  replace (Z.to_nat w <=? 0 + 1)%nat with false
    by (symmetry; apply Nat.leb_gt; lia).
  rewrite andb_false_r. reflexivity.
Qed.

Lemma xlt_NaN_r (a : xnum) : xlt a NaN = false.
Proof. destruct a; reflexivity. Qed.

End SeriesFacts.

(* ================================================================== *)
(** * Scalars of an int64 column *)

Section Int64.

Open Scope Qc_scope.

Lemma qz_this (z : Z) : this (qz z) = inject_Z z.
Proof.
  unfold qz. cbn [this Q2Qc]. apply Qred_identity.
  cbn [inject_Z Qnum Qden]. apply Z.gcd_1_r.
Qed.

Lemma qz_opp (z : Z) : qz (- z) = - qz z.
Proof.
  apply Qc_is_canon. rewrite this_opp, !qz_this.
  unfold Qeq. cbn [inject_Z Qopp Qnum Qden]. lia.
Qed.

Lemma qz_sub (a b : Z) : qz (a - b) = qz a - qz b.
Proof.
  unfold Z.sub, Qcminus. rewrite qz_add, qz_opp. reflexivity.
Qed.

(** A value of an int64 column is a whole number of the range. *)
Lemma is_int64_whole (q : Qc) :
  Series.is_int64 q = true ->
  q = qz (Qnum (this q))
  /\ (-9223372036854775808 <= Qnum (this q) < 9223372036854775808)%Z.
Proof.
  unfold Series.is_int64. intros H.
  apply andb_prop in H. destruct H as [H U].
  apply andb_prop in H. destruct H as [D L].
  apply Z.eqb_eq in D. apply Z.leb_le in L. apply Z.ltb_lt in U.
  split; [|lia].
  apply Qc_is_canon. rewrite qz_this.
  destruct (this q) as [n d]. cbn [Qnum Qden] in *.
  unfold Qeq. cbn [inject_Z Qnum Qden]. lia.
Qed.

Lemma int64_dtype_In (s : list Qc) (a : Qc) :
  Series.int64_dtype s = true -> In a s -> Series.is_int64 a = true.
Proof.
  unfold Series.int64_dtype. intros H Ha.
  rewrite forallb_forall in H. exact (H a Ha).
Qed.

(** A number of the range is stored as it is. *)
Lemma int64_wrap_small (z : Z) :
  (-9223372036854775808 <= z < 9223372036854775808)%Z ->
  Series.int64_wrap z = z.
Proof.
  intros H. unfold Series.int64_wrap.
  rewrite Z.mod_small by lia. lia.
Qed.

(** A difference that fits is the difference. *)
Lemma scalar_sub_fits (s : list Qc) (a b : Qc) :
  In a s -> In b s ->
  Series.difference_fits s a b ->
  Series.scalar_sub s a b = Fin (a - b).
Proof.
  intros Ha Hb F. unfold Series.scalar_sub, Series.difference_fits in *.
  destruct (Series.int64_dtype s) eqn:E; [|reflexivity].
  destruct (is_int64_whole a (int64_dtype_In s a E Ha)) as [Ea _].
  destruct (is_int64_whole b (int64_dtype_In s b E Hb)) as [Eb _].
  rewrite (int64_wrap_small _ (F eq_refl)), qz_sub, <- Ea, <- Eb. reflexivity.
Qed.

(** The difference is a finite number in every case. *)
Lemma scalar_sub_finite (s : list Qc) (a b : Qc) :
  exists d, Series.scalar_sub s a b = Fin d.
Proof.
  unfold Series.scalar_sub. destruct (Series.int64_dtype s); eexists; reflexivity.
Qed.

Lemma difference_fits_zero (s : list Qc) (a : Qc) :
  In a s -> Series.difference_fits s a 0.
Proof.
  intros Ha E.
  destruct (is_int64_whole a (int64_dtype_In s a E Ha)) as [_ R].
  change (Qnum (this 0)) with 0%Z. lia.
Qed.

(** The counts of the provider, from 0 to 100, are far from the ends of
    the range. *)
Lemma interest_fits (s : list Qc) (a b : Qc) :
  (forall x, In x s -> exists k, (0 <= k <= 100)%Z /\ x = qz k) ->
  In a s -> In b s -> Series.difference_fits s a b.
Proof.
  intros H Ha Hb _.
  destruct (H a Ha) as (ka & Ra & ->). destruct (H b Hb) as (kb & Rb & ->).
  rewrite !qz_this. cbn [inject_Z Qnum]. lia.
Qed.

Lemma hd_In (A : Type) (d : A) (l : list A) : l <> [] -> In (hd d l) l.
Proof. destruct l; [congruence | intros _; left; reflexivity]. Qed.

Lemma last_In (A : Type) (d : A) (l : list A) : l <> [] -> In (List.last l d) l.
Proof.
  induction l as [|x l IH]; [congruence|]. intros _.
  destruct l as [|y l]; [left; reflexivity|].
  right. apply IH. discriminate.
Qed.

(** [percentage_trend_analysis] on a series that is not empty. *)
Lemma percentage_trend_analysis_unfold (trend_data : list Qc) :
  trend_data <> [] ->
  FetchPlot.percentage_trend_analysis trend_data
  = let change :=
      xmul (xdiv (Series.scalar_sub trend_data (List.last trend_data 0)
                    (hd 0 trend_data))
                 (Fin (hd 0 trend_data)))
           (Fin (qz 100)) in
    Ok (change,
        if xgt change (Fin (qz 0)) then "Positive"
        else if xlt change (Fin (qz 0)) then "Negative"
        else "Neutral")%string.
Proof.
  intros Hne. unfold FetchPlot.percentage_trend_analysis.
  rewrite (iloc_first_hd _ 0 trend_data Hne), (iloc_last_last _ 0 trend_data Hne).
  reflexivity.
Qed.

(** The value and the sentiment when the first element is not zero and the
    difference fits. *)
Lemma percentage_trend_analysis_value (trend_data : list Qc) :
  trend_data <> [] ->
  hd 0 trend_data <> 0 ->
  Series.difference_fits trend_data (List.last trend_data 0) (hd 0 trend_data) ->
  FetchPlot.percentage_trend_analysis trend_data
  = let change :=
      (List.last trend_data 0 - hd 0 trend_data) / hd 0 trend_data * qz 100 in
    Ok (Fin change,
        if xgt (Fin change) (Fin (qz 0)) then "Positive"
        else if xlt (Fin change) (Fin (qz 0)) then "Negative"
        else "Neutral")%string.
Proof.
  intros Hne Hfirst F. rewrite (percentage_trend_analysis_unfold _ Hne).
  rewrite (scalar_sub_fits _ _ _ (last_In _ 0 _ Hne) (hd_In _ 0 _ Hne) F).
  cbn [xdiv]. apply Qc_eqb_neq in Hfirst. rewrite Hfirst.
  cbn [xmul]. reflexivity.
Qed.

End Int64.

(* ================================================================== *)
(** * The exponential moving average *)

Section EMA.

Open Scope Qc_scope.

Lemma ewm_alpha (span : Z) : (1 <= span)%Z ->
  1 / (1 + (qz span - 1) / qz 2) = qz 2 / (qz span + 1).
Proof.
  intros H.
  assert (H1 : qz span + 1 <> 0).
  { change 1 with (qz 1). rewrite <- qz_add. apply qz_nonzero. lia. }
  assert (H2 : 1 + 1 <> 0) by (intro E; discriminate E).
  change (qz 2) with (1 + 1).
  field. split; [exact H1 | intro E; discriminate E].
Qed.

Lemma ewm_step_fin (alpha e cur : Qc) :
  Series.ewm_step alpha (Fin e) cur = Fin (alpha * cur + (1 - alpha) * e).
Proof.
  unfold Series.ewm_step. cbn [xne].
  destruct (Qc_eqb e cur) eqn:E; cbn [negb].
  - apply Qc_eqb_eq in E. subst. f_equal. ring.
  - cbn [xmul xadd xdiv].
    assert (Hd : 1 * (1 - alpha) + alpha = 1) by ring.
    rewrite Hd. 
    replace (Qc_eqb 1 0) with false by reflexivity.
    f_equal. field. intro X; discriminate X.
Qed.

Lemma ewm_loop_spec (alpha : Qc) (rest pre : list Qc) :
  pre <> [] ->
  Series.ewm_loop alpha
    (Fin (Spec.EMA alpha (pre ++ rest) (List.length pre - 1))) rest
  = map (fun t => Fin (Spec.EMA alpha (pre ++ rest) t))
        (seq (List.length pre) (List.length rest)).
Proof.
  revert pre. induction rest as [|cur rest IH]; intros pre Hpre.
  - reflexivity.
  - cbn [Series.ewm_loop List.length seq map].
    rewrite ewm_step_fin.
    assert (Hlen : (List.length pre = S (List.length pre - 1))%nat).
    { destruct pre; [congruence|]. cbn [List.length]. lia. }
    assert (Hstep :
              alpha * cur
              + (1 - alpha)
                * Spec.EMA alpha (pre ++ cur :: rest) (List.length pre - 1)
                    = Spec.EMA alpha (pre ++ cur :: rest) (List.length pre)).
    { rewrite Hlen at 2. cbn [Spec.EMA]. rewrite <- Hlen.
      rewrite app_nth2 by lia. rewrite Nat.sub_diag. reflexivity. }
    rewrite Hstep. f_equal.
    specialize (IH (pre ++ [cur])).
    rewrite <- app_assoc in IH. cbn [app] in IH.
    rewrite length_app in IH. cbn [List.length] in IH.
    replace (List.length pre + 1 - 1)%nat with (List.length pre) in IH by lia.
    replace (List.length pre + 1)%nat with (S (List.length pre)) in IH by lia.
    apply IH. destruct pre; discriminate.
Qed.

End EMA.

(** C5.  With a span [w >= 1], [calculate_ema], the function and the
    method of the class, computes on a series without missing values the
    recursive exponential moving average without bias adjustment,
    [EMA[0] = value[0]] and
    [EMA[t] = alpha * value[t] + (1 - alpha) * EMA[t-1]] with
    [alpha = 2 / (w + 1)], at every position of the series; on
    [[10, 20, 30]] with span 3 the output of both is [[10, 15, 22.5]]. *)
Theorem calculate_ema_recursive :
  (forall (self : FetchPlotOOP.StockTrendAnalysis) (trend_data : list Qc) (w : Z),
      (1 <= w)%Z ->
      FetchPlot.calculate_ema trend_data w
      = Ok (map (fun t => Fin (Spec.EMA (qz 2 / (qz w + 1)) trend_data t))
                (seq 0 (List.length trend_data)))
      /\ FetchPlotOOP.calculate_ema self trend_data w
         = Ok (map (fun t => Fin (Spec.EMA (qz 2 / (qz w + 1)) trend_data t))
                   (seq 0 (List.length trend_data))))
  /\ FetchPlot.calculate_ema [qz 10; qz 20; qz 30] 3
     = Ok [Fin (qz 10); Fin (qz 15); Fin (qz 45 / qz 2)]
  /\ (forall self : FetchPlotOOP.StockTrendAnalysis,
         FetchPlotOOP.calculate_ema self [qz 10; qz 20; qz 30] 3
         = Ok [Fin (qz 10); Fin (qz 15); Fin (qz 45 / qz 2)]).
Proof.
  assert (G : forall (trend_data : list Qc) (w : Z),
      (1 <= w)%Z ->
      Series.ewm_mean trend_data w
      = Ok (map (fun t => Fin (Spec.EMA (qz 2 / (qz w + 1)) trend_data t))
                (seq 0 (List.length trend_data)))).
  { intros trend_data w Hw.
    unfold Series.ewm_mean.
    replace (w <? 1)%Z with false by (symmetry; apply Z.ltb_ge; exact Hw).
    rewrite (ewm_alpha w Hw).
    destruct trend_data as [|v0 rest]; [reflexivity|].
    cbn [List.length seq map]. f_equal. f_equal.
    rewrite <- seq_shift, map_map.
    pose proof (ewm_loop_spec (qz 2 / (qz w + 1)) rest [v0]) as L.
    cbn [app List.length Nat.sub] in L.
    change (Spec.EMA (qz 2 / (qz w + 1)) (v0 :: rest) 0) with v0 in L.
    rewrite L by discriminate.
    rewrite <- seq_shift, map_map. reflexivity. }
  assert (E : Series.ewm_mean [qz 10; qz 20; qz 30] 3
              = Ok [Fin (qz 10); Fin (qz 15); Fin (qz 45 / qz 2)]).
  { rewrite G by lia. cbn [List.length seq map].
    repeat f_equal; apply Qc_is_canon; vm_compute; reflexivity. }
  split; [|split].
  - intros self trend_data w Hw.
    unfold FetchPlot.calculate_ema, FetchPlotOOP.calculate_ema.
    split; apply G; exact Hw.
  - exact E.
  - intros self. exact E.
Qed.

(** The series 1, 2, 3, 4, 5 with span 1, where [alpha = 1], in an object
    of the class. *)
Lemma calculate_ema_recursive_witness :
  FetchPlotOOP.calculate_ema (tesla series_1_to_5) series_1_to_5 1%Z
  = Ok (map (fun t => Fin (Spec.EMA (qz 2 / (qz 1 + 1)) series_1_to_5 t))
            (seq 0 (List.length series_1_to_5))).
Proof.
  apply (proj2 (proj1 calculate_ema_recursive (tesla series_1_to_5)
                  series_1_to_5 1%Z ltac:(lia))).
Defined.

(* ================================================================== *)
(** * The percentage trend *)

(** C6, as the code has it.  On a series of at least two elements whose
    first element is not zero and whose difference [last - first] is a
    number of the dtype of the column, [percentage_trend_analysis] returns
    the pair of [((last - first) / first) * 100] and the sentiment of its
    sign: Positive above 0, Negative below, Neutral at 0; the method of the
    class returns the same pair.  The difference fits on every column of
    counts from 0 to 100.  [[100, 90]] gives -10 and Negative,
    [[100, 100]] gives 0 and Neutral. *)
Theorem percentage_trend_analysis_spec :
  (forall trend_data : list Qc,
      (2 <= List.length trend_data)%nat ->
      hd 0 trend_data <> 0 ->
      let first := hd 0 trend_data in
      let last := List.last trend_data 0 in
      let change := (last - first) / first * qz 100 in
      Series.difference_fits trend_data last first ->
      exists sentiment,
        FetchPlot.percentage_trend_analysis trend_data = Ok (Fin change, sentiment)
        /\ Spec.is_sentiment change sentiment
        /\ forall self,
            FetchPlotOOP.term_column self = Ok trend_data ->
            FetchPlotOOP.percentage_trend_analysis self
            = Ok (Fin change, sentiment))
  /\ (forall trend_data : list Qc,
         trend_data <> [] ->
         (forall x, In x trend_data -> exists k, (0 <= k <= 100)%Z /\ x = qz k) ->
         Series.difference_fits trend_data
           (List.last trend_data 0) (hd 0 trend_data))
  /\ FetchPlot.percentage_trend_analysis [qz 100; qz 90]
     = Ok (Fin (qz (-10)), "Negative"%string)
  /\ FetchPlot.percentage_trend_analysis [qz 100; qz 100]
     = Ok (Fin (qz 0), "Neutral"%string).
Proof.
  assert (I : forall trend_data : list Qc,
             trend_data <> [] ->
             (forall x, In x trend_data ->
                        exists k, (0 <= k <= 100)%Z /\ x = qz k) ->
             Series.difference_fits trend_data
               (List.last trend_data 0) (hd 0 trend_data)).
  { intros trend_data Hne H.
    exact (interest_fits _ _ _ H (last_In _ 0 _ Hne) (hd_In _ 0 _ Hne)). }
  assert (K : forall a b : Z,
             (0 <= a <= 100)%Z -> (0 <= b <= 100)%Z ->
             forall x, In x [qz a; qz b] ->
                       exists k, (0 <= k <= 100)%Z /\ x = qz k).
  { intros a b Ha Hb x [<- | [<- | []]]; eexists; split; try reflexivity; lia. }
  split; [|split; [exact I|split]].
  - intros trend_data Hlen Hfirst first last change F.
    assert (Hne : trend_data <> []).
    { destruct trend_data; [cbn in Hlen; lia | discriminate]. }
    eexists. split; [apply percentage_trend_analysis_value; assumption|]. split.
    + apply sentiment_choice_0.
    + intros self Hcol. unfold FetchPlotOOP.percentage_trend_analysis.
      rewrite Hcol. cbn [bind].
      exact (percentage_trend_analysis_value trend_data Hne Hfirst F).
  - rewrite percentage_trend_analysis_value;
      [|discriminate|intro E; discriminate E
       |apply I; [discriminate | apply K; lia]].
    cbn [hd List.last].
    replace ((qz 90 - qz 100) / qz 100 * qz 100) with (qz (-10))
      by (apply Qc_is_canon; vm_compute; reflexivity).
    reflexivity.
  - rewrite percentage_trend_analysis_value;
      [|discriminate|intro E; discriminate E
       |apply I; [discriminate | apply K; lia]].
    cbn [hd List.last].
    replace ((qz 100 - qz 100) / qz 100 * qz 100) with (qz 0)
      by (apply Qc_is_canon; vm_compute; reflexivity).
    reflexivity.
Qed.

(** The counts 100, 90, 110. *)
Lemma percentage_trend_analysis_witness :
  exists sentiment,
    FetchPlot.percentage_trend_analysis [qz 100; qz 90; qz 110]
    = Ok (Fin ((qz 110 - qz 100) / qz 100 * qz 100), sentiment)
    /\ Spec.is_sentiment ((qz 110 - qz 100) / qz 100 * qz 100) sentiment.
Proof.
  destruct (proj1 percentage_trend_analysis_spec [qz 100; qz 90; qz 110])
    as [s [H1 [H2 _]]].
  - cbn [List.length]. lia.
  - intro E. discriminate E.
  - intros _. split; [apply Z.leb_le | apply Z.ltb_lt]; reflexivity.
  - exists s. split; [exact H1 | exact H2].
Defined.

(** C6, as the specification has it, fails on the int64 column
    [[1, -2^63]]: the difference [-2^63 - 1] is stored as [2^63 - 1], the
    percentage is positive and the sentiment Positive, where the
    specification has a negative percentage. *)
Lemma percentage_claim_fails :
  ~ Spec.percentage_claim [qz 1; qz (-9223372036854775808)].
Proof.
  intros H. destruct H as [s [H _]].
  - cbn [List.length]. lia.
  - intro E. discriminate E.
  - apply (f_equal (fun r => match r with
                             | Ok (c, _) => xlt c (Fin (qz 0))
                             | Raise _ => false
                             end)) in H.
    vm_compute in H. discriminate H.
Qed.

(** C10.  [percentage_trend_analysis] divides by the first element of the
    series without a guard.  When that element is not zero the percentage is
    a finite number, the sentiment is that of its sign, and the number is
    [((last - first) / first) * 100] when the difference fits the dtype of
    the column.  When it is zero the division by zero is carried out:
    nothing is raised and the percentage is the infinity of the sign of the
    last element, or NaN when the last element is zero too.  The method of
    the class does the same. *)
Theorem percentage_trend_analysis_division :
  forall trend_data : list Qc,
    trend_data <> [] ->
    let first := hd 0 trend_data in
    let last := List.last trend_data 0 in
    (first <> 0 ->
     exists change sentiment,
       FetchPlot.percentage_trend_analysis trend_data
       = Ok (Fin change, sentiment)
       /\ Spec.is_sentiment change sentiment
       /\ (Series.difference_fits trend_data last first ->
           change = (last - first) / first * qz 100))
    /\ (first = 0 ->
        (0 < last ->
         FetchPlot.percentage_trend_analysis trend_data
         = Ok (PInf, "Positive"%string))
        /\ (last < 0 ->
            FetchPlot.percentage_trend_analysis trend_data
            = Ok (NInf, "Negative"%string))
        /\ (last = 0 ->
            FetchPlot.percentage_trend_analysis trend_data
            = Ok (NaN, "Neutral"%string)))
    /\ (forall self,
           FetchPlotOOP.term_column self = Ok trend_data ->
           FetchPlotOOP.percentage_trend_analysis self
           = FetchPlot.percentage_trend_analysis trend_data).
Proof.
  intros trend_data Hne first last. subst first last.
  set (first := hd 0 trend_data). set (last := List.last trend_data 0).
  pose proof (percentage_trend_analysis_unfold trend_data Hne) as U.
  fold first last in U.
  assert (Hl : In last trend_data) by (apply last_In; exact Hne).
  assert (Hh : In first trend_data) by (apply hd_In; exact Hne).
  split; [|split].
  - intros Hfirst. rewrite U.
    destruct (scalar_sub_finite trend_data last first) as [d Hd].
    pose proof Hfirst as Hf. apply Qc_eqb_neq in Hf.
    exists (d / first * qz 100). eexists. split; [|split].
    + cbv zeta. rewrite Hd. cbn [xdiv]. rewrite Hf. cbn [xmul]. reflexivity.
    + apply sentiment_choice_0.
    + intros F. rewrite (scalar_sub_fits _ _ _ Hl Hh F) in Hd.
      injection Hd as <-. reflexivity.
  - intros Hfirst. rewrite U.
    assert (D : Series.scalar_sub trend_data last first = Fin last).
    { rewrite (scalar_sub_fits _ _ _ Hl Hh).
      - rewrite Hfirst. f_equal. ring.
      - rewrite Hfirst. apply difference_fits_zero. exact Hl. }
    cbv zeta. rewrite D, Hfirst. cbn [xdiv]. rewrite Qc_eqb_refl.
    destruct (inf_times_true last) as [Hp [Hn Hz]].
    repeat split; intros H.
    + rewrite (Hp H). reflexivity.
    + rewrite (Hn H). reflexivity.
    + rewrite (Hz H). reflexivity.
  - intros self. apply percentage_trend_analysis_oop.
Qed.

(** A series that starts at 0 and ends above: the quotient is the positive
    infinity. *)
Lemma percentage_trend_analysis_division_witness :
  FetchPlot.percentage_trend_analysis [qz 0; qz 5] = Ok (PInf, "Positive"%string).
Proof.
  refine (proj1 (proj1 (proj2 (percentage_trend_analysis_division [qz 0; qz 5] _)) _) _).
  - discriminate.
  - reflexivity.
  - reflexivity.
Defined.

(* ================================================================== *)
(** * The trend sentiment *)

(** With a window of two or more, [trend_analysis] of the function-based
    script answers Neutral on every non-empty series. *)
Lemma trend_analysis_always_neutral (trend_data : list Qc) (w : Z) :
  (2 <= w)%Z -> trend_data <> [] ->
  FetchPlot.trend_analysis trend_data w = Ok "Neutral"%string.
Proof.
  intros Hw Hv. unfold FetchPlot.trend_analysis.
  destruct (rolling_mean_first_missing trend_data w Hw Hv) as [rest E].
  rewrite E. cbn [bind Series.iloc_first].
  rewrite (iloc_last_last _ NaN (NaN :: rest)) by discriminate.
  cbn [bind]. unfold xgt. cbn [xlt]. rewrite xlt_NaN_r. reflexivity.
Qed.

(** X1.  The method of the class compares the first and the last valid
    (non-missing) value of the moving average: Positive when the last one
    is greater, Negative when smaller, Neutral when they are equal. *)
Theorem class_trend_analysis_valid (self : FetchPlotOOP.StockTrendAnalysis)
    (col : list Qc) (w : Z) (ma : list xnum) (first last : Qc) :
  FetchPlotOOP.term_column self = Ok col ->
  Series.rolling_mean col w = Ok ma ->
  Spec.first_valid ma first ->
  Spec.last_valid ma last ->
  exists sentiment,
    FetchPlotOOP.trend_analysis self w = Ok sentiment
    /\ Spec.is_sentiment (last - first) sentiment.
Proof.
  intros Hcol Hma Hf Hl. unfold FetchPlotOOP.trend_analysis.
  rewrite Hcol. cbn [bind]. rewrite Hma. cbn [bind].
  rewrite (dropna_first_valid ma first Hf), (dropna_last_valid ma last Hl).
  cbn [bind]. eexists. split; [reflexivity|]. apply sentiment_choice.
Qed.

(** The class on the series 1, 2, 3, 4, 5 with a window of 3: first valid
    value 2, last valid value 4. *)
Lemma class_trend_analysis_valid_witness :
  exists sentiment,
    FetchPlotOOP.trend_analysis (tesla series_1_to_5) 3 = Ok sentiment
    /\ Spec.is_sentiment (qz 4 - qz 2) sentiment.
Proof.
  apply (class_trend_analysis_valid (tesla series_1_to_5) series_1_to_5 3
           [NaN; NaN; Fin (qz 2); Fin (qz 3); Fin (qz 4)]).
  - reflexivity.
  - unfold Series.rolling_mean.
    change (3 <? 0)%Z with false. cbv iota. f_equal.
    apply column_eqb_eq; vm_compute; reflexivity.
  - exists 2%nat. split; [reflexivity|].
    intros j Hj. destruct j as [|[|j]]; [reflexivity|reflexivity|lia].
  - exists 4%nat. split; [reflexivity|].
    intros j Hj. do 5 (destruct j as [|j]; [lia|]). destruct j; reflexivity.
Defined.

(** C3.  The two implementations of [trend_analysis] do not agree: on the
    series 1, 2, 3, 4, 5 with a window of 3 the function answers Neutral
    and the method of the class answers Positive. *)
Theorem trend_analysis_variants_differ :
  FetchPlot.trend_analysis series_1_to_5 3 = Ok "Neutral"%string
  /\ FetchPlotOOP.trend_analysis (tesla series_1_to_5) 3 = Ok "Positive"%string.
Proof. split; vm_compute; reflexivity. Qed.

Lemma rolling_mean_1_to_5 :
  Series.rolling_mean series_1_to_5 3
  = Ok [NaN; NaN; Fin (qz 2); Fin (qz 3); Fin (qz 4)].
Proof.
  unfold Series.rolling_mean.
  change (3 <? 0)%Z with false. cbv iota. f_equal.
  apply column_eqb_eq; vm_compute; reflexivity.
Qed.

(** C4.  On the series 1, 2, 3, 4, 5 with a window of 3 the moving average
    is NaN, NaN, 2, 3, 4: its first valid value is 2 and its last valid
    value is 4, and [trend_analysis] of the function-based script answers
    Neutral. *)
Theorem trend_analysis_ignores_valid_values :
  Series.rolling_mean series_1_to_5 3
  = Ok [NaN; NaN; Fin (qz 2); Fin (qz 3); Fin (qz 4)]
  /\ Spec.first_valid [NaN; NaN; Fin (qz 2); Fin (qz 3); Fin (qz 4)] (qz 2)
  /\ Spec.last_valid [NaN; NaN; Fin (qz 2); Fin (qz 3); Fin (qz 4)] (qz 4)
  /\ FetchPlot.trend_analysis series_1_to_5 3 = Ok "Neutral"%string.
Proof.
  split; [exact rolling_mean_1_to_5|]. split; [|split].
  - exists 2%nat. split; [reflexivity|].
    intros j Hj. destruct j as [|[|j]]; [reflexivity|reflexivity|lia].
  - exists 4%nat. split; [reflexivity|].
    intros j Hj. do 5 (destruct j as [|j]; [lia|]). destruct j; reflexivity.
  - apply trend_analysis_always_neutral; [lia|discriminate].
Qed.

(* ================================================================== *)
(** * Dates and the timeframe string *)

Section DateFacts.

Open Scope Z_scope.

(** A check that holds on every number of a list of consecutive integers
    holds on each of them. *)
Lemma forallb_range (f : Z -> bool) (lo : Z) (n : nat) :
  forallb f (map (fun k => lo + Z.of_nat k) (seq 0 n)) = true ->
  forall z, lo <= z < lo + Z.of_nat n -> f z = true.
Proof.
  intros H z Hz. rewrite forallb_forall in H. apply H.
  apply in_map_iff. exists (Z.to_nat (z - lo)). split; [lia|].
  apply in_seq. lia.
Qed.


Lemma month_day_bounds (n : Z) (leap : bool) :
  0 <= n < 365 ->
  1 <= fst (Date.month_day n leap) <= 12
  /\ 1 <= snd (Date.month_day n leap) <= 31.
Proof.
  intros Hn.
  assert (H : Date.month_day_ok leap n = true).
  { apply (forallb_range (Date.month_day_ok leap) 0 (Z.to_nat 365)); [|lia].
    destruct leap; vm_compute; reflexivity. }
  unfold Date.month_day_ok in H. cbv zeta in H.
  repeat (apply andb_prop in H; destruct H as [H ?]).
  lia.
Qed.

Lemma ord2ymd_bounds (d : Date.date) :
  Date.valid d ->
  let '(y, m, dd) := Date.ord2ymd d in
  1 <= y <= 9999 /\ 1 <= m <= 12 /\ 1 <= dd <= 31.
Proof.
  unfold Date.valid, Date.MAXORDINAL. intros Hd.
  unfold Date.ord2ymd, Date.DI400Y, Date.DI100Y, Date.DI4Y. cbv zeta.
  destruct (_ || _) eqn:E.
  - split; [|lia]. apply orb_prop in E.
    Z.div_mod_to_equations. lia.
  - apply orb_false_elim in E. destruct E as [E1 E2].
    apply Z.eqb_neq in E1, E2.
    split.
    + Z.div_mod_to_equations. lia.
    + apply month_day_bounds. Z.div_mod_to_equations. lia.
Qed.

(** From the year 1000 on the numeral of the year has four digits. *)
Lemma year_numeral (y : Z) :
  1000 <= y <= 9999 -> Date.is_numeral 4 (Date.str y) = true.
Proof.
  intros H.
  apply (forallb_range
           (fun y => Date.is_numeral 4 (Date.str y))
           1000 (Z.to_nat 9000));
    [vm_compute; reflexivity | lia].
Qed.

(** Before the year 1000 it has fewer. *)
Lemma year_numeral_short (y : Z) :
  1 <= y <= 999 -> (String.length (Date.str y) < 4)%nat.
Proof.
  intros H. apply Nat.ltb_lt.
  apply (forallb_range
           (fun y => (String.length (Date.str y) <? 4)%nat)
           1 (Z.to_nat 999));
    [vm_compute; reflexivity | lia].
Qed.

(** The year of a day is 1000 or later exactly from [YEAR_1000] on. *)
Lemma ord2ymd_year (d : Date.date) :
  Date.valid d ->
  let '(y, m, dd) := Date.ord2ymd d in
  (Date.YEAR_1000 <= d -> 1000 <= y) /\ (d < Date.YEAR_1000 -> y <= 999).
Proof.
  change Date.YEAR_1000 with 364878.
  unfold Date.valid, Date.MAXORDINAL. intros Hd.
  unfold Date.ord2ymd, Date.DI400Y, Date.DI100Y, Date.DI4Y. cbv zeta.
  destruct (_ || _) eqn:E.
  - apply orb_prop in E. split; intros H; Z.div_mod_to_equations; lia.
  - apply orb_false_elim in E. destruct E as [E1 E2].
    apply Z.eqb_neq in E1, E2.
    split; intros H; Z.div_mod_to_equations; lia.
Qed.

Lemma month_day_numeral (m : Z) :
  1 <= m <= 31 -> Date.is_numeral 2 (Date.zfill 2 (Date.str m)) = true.
Proof.
  intros H.
  apply (forallb_range
           (fun m => Date.is_numeral 2 (Date.zfill 2 (Date.str m)))
           1 (Z.to_nat 31));
    [vm_compute; reflexivity | lia].
Qed.

Lemma numerals_shape (y m d : string) :
  Date.is_numeral 4 y = true ->
  Date.is_numeral 2 m = true ->
  Date.is_numeral 2 d = true ->
  Date.is_YYYY_MM_DD (y ++ "-" ++ m ++ "-" ++ d) = true.
Proof.
  unfold Date.is_numeral. intros Hy Hm Hd.
  apply andb_prop in Hy, Hm, Hd.
  destruct Hy as [Ly Dy], Hm as [Lm Dm], Hd as [Ld Dd].
  apply Nat.eqb_eq in Ly, Lm, Ld.
  destruct y as [|y1 [|y2 [|y3 [|y4 [|? ?]]]]]; try discriminate Ly.
  destruct m as [|m1 [|m2 [|? ?]]]; try discriminate Lm.
  destruct d as [|d1 [|d2 [|? ?]]]; try discriminate Ld.
  cbn [list_ascii_of_string forallb] in Dy, Dm, Dd.
  repeat match goal with
         | H : _ && _ = true |- _ => apply andb_prop in H; destruct H
         end.
  unfold Date.is_YYYY_MM_DD.
  cbn [String.append list_ascii_of_string forallb].
  repeat match goal with
         | H : Date.is_digit _ = true |- _ => rewrite H; clear H
         end.
  reflexivity.
Qed.

Lemma strftime_shape (d : Date.date) :
  Date.valid d -> Date.YEAR_1000 <= d ->
  Date.is_YYYY_MM_DD (Date.strftime_Ymd d) = true.
Proof.
  intros Hd H1000. pose proof (ord2ymd_bounds d Hd) as B.
  pose proof (ord2ymd_year d Hd) as Y.
  unfold Date.strftime_Ymd.
  destruct (Date.ord2ymd d) as [[y m] dd].
  destruct B as [By [Bm Bd]]. destruct Y as [Y _]. specialize (Y H1000).
  apply numerals_shape;
    [apply year_numeral | apply month_day_numeral | apply month_day_numeral]; lia.
Qed.

Lemma month_day_inverse_ok (n : Z) (leap : bool) :
  0 <= n < 365 + (if leap then 1 else 0) ->
  Date.DAYS_BEFORE_MONTH (fst (Date.month_day n leap))
  + (if (2 <? fst (Date.month_day n leap)) && leap then 1 else 0)
  + snd (Date.month_day n leap) = n + 1.
Proof.
  intros Hn. apply Z.eqb_eq.
  change (Date.month_day_inverse leap n = true).
  apply (forallb_range (Date.month_day_inverse leap) 0 (Z.to_nat 366)).
  destruct leap; vm_compute; reflexivity.
  destruct leap; lia.
Qed.

Lemma is_leap_cycle (n400 n100 n4 n1 : Z) :
  0 <= n400 -> 0 <= n100 <= 3 -> 0 <= n4 <= 24 -> 0 <= n1 <= 3 ->
  Date.is_leap (n400 * 400 + 1 + n100 * 100 + n4 * 4 + n1)
  = (n1 =? 3) && (negb (n4 =? 24) || (n100 =? 3)).
Proof.
  intros H400 H100 H4 H1. unfold Date.is_leap.
  destruct (n1 =? 3) eqn:E1; destruct (n4 =? 24) eqn:E4;
    destruct (n100 =? 3) eqn:E100;
    repeat match goal with
           | H : (_ =? _) = true |- _ => apply Z.eqb_eq in H
           | H : (_ =? _) = false |- _ => apply Z.eqb_neq in H
           end;
    cbn [negb orb andb];
    repeat match goal with
           | |- context [?a mod ?b =? 0] =>
               let E := fresh "E" in
               destruct (a mod b =? 0) eqn:E;
               [apply Z.eqb_eq in E | apply Z.eqb_neq in E]
           end;
    cbn [negb orb andb]; try reflexivity; exfalso;
    Z.div_mod_to_equations; lia.
Qed.

Lemma days_before_year_cycle (n400 n100 n4 n1 : Z) :
  0 <= n400 -> 0 <= n100 <= 3 -> 0 <= n4 <= 24 -> 0 <= n1 <= 3 ->
  Date.days_before_year (n400 * 400 + 1 + n100 * 100 + n4 * 4 + n1)
  = 146097 * n400 + 36524 * n100 + 1461 * n4 + 365 * n1.
Proof.
  intros H400 H100 H4 H1. unfold Date.days_before_year. cbv zeta.
  Z.div_mod_to_equations. lia.
Qed.

Lemma ymd2ord_ord2ymd (d : Date.date) :
  Date.valid d ->
  let '(y, m, dd) := Date.ord2ymd d in Date.ymd2ord y m dd = d.
Proof.
  unfold Date.valid, Date.MAXORDINAL. intros Hd.
  unfold Date.ord2ymd, Date.DI400Y, Date.DI100Y, Date.DI4Y. cbv zeta.
  set (n0 := d - 1).
  set (n400 := n0 / 146097). set (r400 := n0 mod 146097).
  set (n100 := r400 / 36524). set (r100 := r400 mod 36524).
  set (n4 := r100 / 1461). set (r4 := r100 mod 1461).
  set (n1 := r4 / 365). set (n := r4 mod 365).
  assert (F : 0 <= n400 /\ 0 <= n100 <= 4 /\ 0 <= n4 <= 24 /\ 0 <= n1 <= 4
              /\ 0 <= n < 365
              /\ d = 146097 * n400 + 36524 * n100 + 1461 * n4 + 365 * n1 + n + 1
              /\ (n100 = 4 -> n4 = 0 /\ n1 = 0 /\ n = 0)
              /\ (n1 = 4 -> n = 0 /\ n4 <= 23)).
  { subst n n1 r4 n4 r100 n100 r400 n400 n0. Z.div_mod_to_equations. lia. }
  clearbody n n1 r4 n4 r100 n100 r400 n400. clear r4 r100 r400 n0.
  destruct F as (F400 & F100 & F4 & F1 & Fn & Fsum & Fc & F1c).
  destruct ((n1 =? 4) || (n100 =? 4)) eqn:E.
  - (* the last day of a cycle of four or four hundred years *)
    unfold Date.ymd2ord, Date.days_before_month.
    change (Date.DAYS_BEFORE_MONTH 12) with 334. change (2 <? 12) with true.
    cbn [andb].
    apply orb_prop in E. destruct E as [E|E]; apply Z.eqb_eq in E.
    + destruct F1c as [Fn0 F4'] ; [exact E|].
      assert (F100' : n100 <= 3).
      { destruct (Z.eq_dec n100 4) as [X|X]; [apply Fc in X; lia | lia]. }
      replace (n400 * 400 + 1 + n100 * 100 + n4 * 4 + n1 - 1)
        with (n400 * 400 + 1 + n100 * 100 + n4 * 4 + 3) by lia.
      rewrite is_leap_cycle, days_before_year_cycle by lia.
      replace (3 =? 3) with true by reflexivity.
      replace (n4 =? 24) with false by (symmetry; apply Z.eqb_neq; lia).
      cbn [negb orb andb]. lia.
    + destruct (Fc E) as (Fa & Fb & Fd).
      replace (n400 * 400 + 1 + n100 * 100 + n4 * 4 + n1 - 1)
        with (n400 * 400 + 1 + 3 * 100 + 24 * 4 + 3) by lia.
      rewrite is_leap_cycle, days_before_year_cycle by lia.
      change ((3 =? 3) && (negb (24 =? 24) || (3 =? 3))) with true.
      cbv iota. lia.
  - apply orb_false_elim in E. destruct E as [E1 E2].
    apply Z.eqb_neq in E1, E2.
    unfold Date.ymd2ord, Date.days_before_month.
    rewrite is_leap_cycle, days_before_year_cycle by lia.
    set (leap := (n1 =? 3) && (negb (n4 =? 24) || (n100 =? 3))).
    pose proof (month_day_inverse_ok n leap) as M.
    rewrite <- Z.add_assoc.
    rewrite M; [lia | destruct leap; lia].
Qed.

Lemma get_timeframe_returns (today n : Z) :
  Date.valid today -> 0 <= n < today ->
  FetchPlot.get_timeframe today n
  = Ok (Date.strftime_Ymd (today - n) ++ " " ++ Date.strftime_Ymd today)%string.
Proof.
  unfold Date.valid, Date.MAXORDINAL. intros Ht Hn.
  unfold FetchPlot.get_timeframe, Date.timedelta, Date.sub, Date.MAXORDINAL.
  replace (Z.abs n <=? 999999999) with true by (symmetry; apply Z.leb_le; lia).
  cbn [bind].
  replace (0 <? today + - n) with true by (symmetry; apply Z.ltb_lt; lia).
  replace (today + - n <=? 3652059) with true by (symmetry; apply Z.leb_le; lia).
  cbn [andb bind]. replace (today + - n) with (today - n) by lia. reflexivity.
Qed.

End DateFacts.

Section Timeframe.

Open Scope Z_scope.

(** C7, as the code has it.  For [today] a date, [0 <= n] and the day
    [today - n] not before the first day of the year 1000 (a year below
    1000 is printed on fewer than four digits), [get_timeframe(n)] returns
    the string of the date [n] days before today, a blank and the date of
    today, each of the shape YYYY-MM-DD; the first date is not after the
    second, before it when [n >= 1] and the same day when [n = 0].  The
    static method of the class returns the same. *)
Theorem get_timeframe_in_range :
  forall today n : Z,
    Date.valid today ->
    0 <= n ->
    Date.YEAR_1000 <= today - n ->
    let first := today - n in
    FetchPlot.get_timeframe today n
    = Ok (Date.strftime_Ymd first ++ " " ++ Date.strftime_Ymd today)%string
    /\ FetchPlotOOP.get_timeframe today n = FetchPlot.get_timeframe today n
    /\ Date.is_YYYY_MM_DD (Date.strftime_Ymd first) = true
    /\ Date.is_YYYY_MM_DD (Date.strftime_Ymd today) = true
    /\ (let '(y, m, d) := Date.ord2ymd first in Date.ymd2ord y m d = today - n)
    /\ first <= today
    /\ (1 <= n -> first < today)
    /\ (n = 0 -> first = today).
Proof.
  intros today n Ht Hn H1000 first.
  assert (Y : Date.YEAR_1000 = 364878) by reflexivity.
  assert (Hf : Date.valid first) by (unfold Date.valid in *; subst first; lia).
  split; [apply get_timeframe_returns; [assumption | subst first; lia]|].
  split; [reflexivity|].
  split; [apply strftime_shape; [exact Hf | exact H1000]|].
  split; [apply strftime_shape; [exact Ht | subst first; lia]|].
  split; [apply (ymd2ord_ord2ymd first Hf)|].
  subst first. repeat split; lia.
Qed.

(** Twenty days back from 2026-11-03. *)
Lemma get_timeframe_in_range_witness :
  FetchPlot.get_timeframe 739923 20 = Ok "2026-10-14 2026-11-03"%string.
Proof.
  refine (proj1 (get_timeframe_in_range 739923 20 _ _ _)).
  - unfold Date.valid, Date.MAXORDINAL. lia.
  - lia.
  - apply Z.leb_le. reflexivity.
Defined.

(** C7, as the specification has it, fails at [n = 0], where the two dates
    are the same day, at a million days back from 2026-11-03, where
    [date.__sub__] raises [OverflowError], and at 739922 days back, where
    the first date is printed as 1-01-01. *)
Lemma timeframe_claim_fails :
  ~ Spec.timeframe_claim 739923 0
  /\ ~ Spec.timeframe_claim 739923 1000000
  /\ ~ Spec.timeframe_claim 739923 739922.
Proof.
  split; [|split]; intros (H1 & H2 & H3 & H4).
  - lia.
  - vm_compute in H1. discriminate H1.
  - vm_compute in H2. discriminate H2.
Qed.

End Timeframe.

(* ================================================================== *)
(** * The merged table *)

Section MergedTable.

Import Frames.

Open Scope Qc_scope.

Lemma combine_removelast (A : Type) (a : A) (l : list A) :
  combine l (removelast (a :: l)) = combine l (a :: l).
Proof.
  revert a. induction l as [|b l IH]; intros a; [reflexivity|].
  change (removelast (a :: b :: l)) with (a :: removelast (b :: l)).
  cbn [combine]. f_equal. apply IH.
Qed.

(** The two ways to write the percent change agree. *)
Lemma percent_change_forms (cur prev : Z) :
  xmul (xsub (xdiv (Fin (qz cur)) (Fin (qz prev))) (Fin 1)) (Fin (qz 100))
  = Spec.percent_change cur prev.
Proof.
  unfold Spec.percent_change. cbn [xdiv xsub xneg xadd].
  destruct (Qc_eqb (qz prev) 0) eqn:E.
  - apply Qc_eqb_eq in E. rewrite E.
    replace (qz cur + - 0) with (qz cur) by ring.
    unfold inf_times. destruct (qz cur ?= 0); reflexivity.
  - apply Qc_eqb_neq in E. unfold xsub. cbn [xadd xneg xmul].
    f_equal. field. exact E.
Qed.

Lemma percentages_after_combine (prev : TrendRow) (rest : list TrendRow) :
  map (fun rp =>
         {| tp_date := tr_date (fst rp);
            tp_Tesla_stock := tr_Tesla_stock (fst rp);
            tp_isPartial := tr_isPartial (fst rp);
            tp_Trend_Percentage := snd rp |})
      (combine rest
         (map (fun p => xmul p (Fin (qz 100)))
            (map (fun cp => xsub (xdiv (fst cp) (snd cp)) (Fin 1))
               (combine (map Fin (map (fun r => qz (tr_Tesla_stock r)) rest))
                        (Fin (qz (tr_Tesla_stock prev))
                         :: map Fin (map (fun r => qz (tr_Tesla_stock r)) rest))))))
  = Spec.percentages_after prev rest.
Proof.
  revert prev. induction rest as [|r rest IH]; intros prev; [reflexivity|].
  cbn [map combine fst snd Spec.percentages_after].
  rewrite percent_change_forms. f_equal. apply IH.
Qed.

Lemma calculate_trend_percentage_cons (r0 : TrendRow) (rest : list TrendRow) :
  Merge.calculate_trend_percentage (r0 :: rest)
  = {| tp_date := tr_date r0;
       tp_Tesla_stock := tr_Tesla_stock r0;
       tp_isPartial := tr_isPartial r0;
       tp_Trend_Percentage := NaN |}
    :: Spec.percentages_after r0 rest.
Proof.
  unfold Merge.calculate_trend_percentage, Series.pct_change.
  cbn [map Series.shift1 combine].
  rewrite combine_removelast.
  cbn [combine map fst snd xdiv]. unfold xsub. cbn [xadd xneg xmul].
  f_equal. apply percentages_after_combine.
Qed.

Lemma percentages_after_nth (prev : TrendRow) (rest : list TrendRow)
    (k : nat) (t : TrendPctRow) :
  nth_error (Spec.percentages_after prev rest) k = Some t ->
  exists row,
    nth_error rest k = Some row
    /\ tp_date t = tr_date row
    /\ tp_Tesla_stock t = tr_Tesla_stock row
    /\ tp_isPartial t = tr_isPartial row
    /\ tp_Trend_Percentage t = Spec.pre_join_percentage (prev :: rest) (S k).
Proof.
  revert prev k. induction rest as [|r rest IH]; intros prev k H.
  - destruct k; discriminate H.
  - destruct k as [|k].
    + cbn [Spec.percentages_after nth_error] in H. injection H as <-.
      exists r. repeat split; reflexivity.
    + cbn [Spec.percentages_after nth_error] in H.
      destruct (IH r k H) as (row & H1 & H2 & H3 & H4 & H5).
      exists row. repeat split; assumption.
Qed.

(** The rows of [calculate_trend_percentage], one by one. *)
Lemma calculate_trend_percentage_nth (trend : list TrendRow) (k : nat)
    (t : TrendPctRow) :
  nth_error (Merge.calculate_trend_percentage trend) k = Some t ->
  exists row,
    nth_error trend k = Some row
    /\ tp_date t = tr_date row
    /\ tp_Tesla_stock t = tr_Tesla_stock row
    /\ tp_isPartial t = tr_isPartial row
    /\ tp_Trend_Percentage t = Spec.pre_join_percentage trend k.
Proof.
  destruct trend as [|r0 rest]; [destruct k; discriminate|].
  rewrite calculate_trend_percentage_cons.
  destruct k as [|k]; intros H.
  - cbn [nth_error] in H. injection H as <-.
    exists r0. repeat split; reflexivity.
  - cbn [nth_error] in H. apply percentages_after_nth in H. exact H.
Qed.

Lemma merge_In (stock : list StockRow) (trend : list TrendPctRow) (r : MergedRow) :
  In r (merge stock trend) <->
  exists s t, In s stock /\ In t trend /\ tp_date t = s_Date s /\ r = join_rows s t.
Proof.
  unfold merge. rewrite in_flat_map. split.
  - intros (s & Hs & Hr). apply in_map_iff in Hr. destruct Hr as (t & <- & Ht).
    apply filter_In in Ht. destruct Ht as [Ht E]. apply Z.eqb_eq in E.
    exists s, t. repeat split; assumption.
  - intros (s & t & Hs & Ht & E & ->). exists s. split; [exact Hs|].
    apply in_map. apply filter_In. split; [exact Ht|]. apply Z.eqb_eq. exact E.
Qed.

Lemma dropna_In (df : list MergedRow) (r : MergedRow) :
  In r (dropna df) <-> In r df /\ row_has_na r = false.
Proof.
  unfold dropna. rewrite filter_In. rewrite negb_true_iff. reflexivity.
Qed.

Lemma main_oop_eq (trend : list TrendRow) (stock : list StockRow) :
  MergeOOP.main trend stock = Merge.main trend stock.
Proof. reflexivity. Qed.

(** C1, as the code has it.  The column [Trend_Percentage] is computed on
    the interest table before the join: a joined row whose date is the
    [k]-th date of the interest table holds the percent change of the
    interest value against the row [k - 1] of the interest table, whether
    that row is in the join or not, and holds nothing when [k = 0].  So
    every row of the merged table, where the rows with a missing value are
    dropped, has a rank [k >= 1] and the value
    [(interest[k] - interest[k-1]) / interest[k-1] * 100]. *)
Theorem trend_percentage_before_join :
  forall (trend : list TrendRow) (stock : list StockRow),
    (forall r,
        In r (merge stock (Merge.calculate_trend_percentage trend)) ->
        exists k row,
          nth_error trend k = Some row
          /\ Date r = tr_date row
          /\ Tesla_stock r = tr_Tesla_stock row
          /\ Trend_Percentage r = Spec.pre_join_percentage trend k)
    /\ (exists merged,
          Merge.main trend stock = Ok merged
          /\ MergeOOP.main trend stock = Ok merged
          /\ forall r,
              In r merged ->
              exists k row prev,
                nth_error trend (S k) = Some row
                /\ nth_error trend k = Some prev
                /\ Date r = tr_date row
                /\ Tesla_stock r = tr_Tesla_stock row
                /\ Trend_Percentage r
                   = Spec.percent_change (tr_Tesla_stock row) (tr_Tesla_stock prev)).
Proof.
  intros trend stock.
  assert (J : forall r,
        In r (merge stock (Merge.calculate_trend_percentage trend)) ->
        exists k row,
          nth_error trend k = Some row
          /\ Date r = tr_date row
          /\ Tesla_stock r = tr_Tesla_stock row
          /\ Trend_Percentage r = Spec.pre_join_percentage trend k).
  { intros r Hr. apply merge_In in Hr.
    destruct Hr as (s & t & Hs & Ht & E & ->).
    apply In_nth_error in Ht. destruct Ht as [k Hk].
    destruct (calculate_trend_percentage_nth trend k t Hk)
      as (row & H1 & H2 & H3 & H4 & H5).
    exists k, row. cbn [join_rows Date Tesla_stock Trend_Percentage].
    repeat split; congruence. }
  split; [exact J|].
  eexists. split; [reflexivity|]. split; [reflexivity|].
  intros r Hr. apply dropna_In in Hr. destruct Hr as [Hr Hna].
  destruct (J r Hr) as (k & row & H1 & H2 & H3 & H4).
  assert (Hp : isna (Trend_Percentage r) = false).
  { unfold row_has_na in Hna.
    repeat (apply orb_false_elim in Hna; destruct Hna as [Hna ?]).
    assumption. }
  destruct k as [|k].
  - rewrite H4 in Hp. discriminate Hp.
  - cbn [Spec.pre_join_percentage] in H4. rewrite H1 in H4.
    destruct (nth_error trend k) as [prev|] eqn:E.
    + exists k, row, prev. repeat split; assumption.
    + rewrite H4 in Hp. discriminate Hp.
Qed.

(** The example run on the interest values 10, 20, 40 of the days 1, 2, 3
    and the prices of the days 1 and 3: one row is left, the day 3, with
    the change against the day 2. *)
Lemma main_days_1_3 :
  exists merged,
    Merge.main trend_3 stock_1_3 = Ok merged
    /\ map Date merged = [3%Z]
    /\ map Trend_Percentage merged = [Fin (qz 100)].
Proof.
  eexists. split; [reflexivity|]. split; [reflexivity|].
  apply column_eqb_eq; vm_compute; reflexivity.
Qed.

(** C1, as the specification has it, fails on an interest table of the
    days 1, 2, 3 with the values 10, 20, 40 and a price table of the days
    1 and 3: the joined row of day 3 holds 100, the change against day 2,
    where the change against the joined row before it, day 1, is 300. *)
Lemma percentage_over_join_fails :
  ~ Spec.percentage_over_join trend_3 stock_1_3.
Proof.
  intros [_ H].
  specialize (H 0%nat
    (join_rows (bar 3 3000)
       {| tp_date := 3; tp_Tesla_stock := 40; tp_isPartial := false;
          tp_Trend_Percentage := Fin (qz 100) |})
    (join_rows (bar 1 1000)
       {| tp_date := 1; tp_Tesla_stock := 10; tp_isPartial := false;
          tp_Trend_Percentage := NaN |})).
  assert (E : merge stock_1_3 (Merge.calculate_trend_percentage trend_3)
              = [ join_rows (bar 1 1000)
                    {| tp_date := 1; tp_Tesla_stock := 10; tp_isPartial := false;
                       tp_Trend_Percentage := NaN |};
                  join_rows (bar 3 3000)
                    {| tp_date := 3; tp_Tesla_stock := 40; tp_isPartial := false;
                       tp_Trend_Percentage := Fin (qz 100) |} ]).
  { unfold trend_3. rewrite calculate_trend_percentage_cons.
    cbn [Spec.percentages_after tr_date tr_Tesla_stock tr_isPartial].
    replace (Spec.percent_change 40 20) with (Fin (qz 100))
      by (symmetry; apply xnum_eqb_eq; vm_compute; reflexivity).
    reflexivity. }
  cbv zeta in H. rewrite E in H.
  specialize (H eq_refl eq_refl).
  cbn [join_rows Trend_Percentage Tesla_stock] in H.
  apply (f_equal (fun x => xnum_eqb x (Fin (qz 300)))) in H.
  vm_compute in H. discriminate H.
Qed.

(** The join is empty exactly on tables without a common date. *)
Lemma merge_empty (stock : list StockRow) (trend : list TrendPctRow) :
  merge stock trend = [] <-> Spec.disjoint_dates trend stock.
Proof.
  unfold Spec.disjoint_dates. split.
  - intros E s t Hs Ht Hd.
    assert (H : In (join_rows s t) (merge stock trend)).
    { apply merge_In. exists s, t. repeat split; assumption. }
    rewrite E in H. exact H.
  - intros H. destruct (merge stock trend) as [|r l] eqn:E; [reflexivity|].
    assert (Hr : In r (merge stock trend)) by (rewrite E; left; reflexivity).
    apply merge_In in Hr. destruct Hr as (s & t & Hs & Ht & Hd & _).
    exfalso. exact (H s t Hs Ht Hd).
Qed.

End MergedTable.

(* ================================================================== *)
(** * The scaling of the volume *)

Section Scaling.

Import Frames.
Import PrimFloat.

Open Scope Qc_scope.

Lemma col_max_PInf (col : list xnum) : In PInf col -> col_max col = PInf.
Proof.
  induction col as [|x col IH]; intros H; [destruct H|].
  cbn [col_max]. destruct H as [-> | H].
  - cbn [isna]. destruct (col_max col); reflexivity.
  - rewrite (IH H). destruct x; reflexivity.
Qed.

Lemma col_min_NInf (col : list xnum) : In NInf col -> col_min col = NInf.
Proof.
  induction col as [|x col IH]; intros H; [destruct H|].
  cbn [col_min]. destruct H as [-> | H].
  - cbn [isna]. destruct (col_min col); reflexivity.
  - rewrite (IH H). destruct x; reflexivity.
Qed.

(** On a column between 0 and 100 the scaling is the identity, the
    arithmetic being exact. *)
Lemma scale_0_100 (col : list xnum) :
  col_min col = Fin (qz 0) ->
  col_max col = Fin (qz 100) ->
  map (fun v => xmul (xdiv (xsub v (col_min col)) (xsub (col_max col) (col_min col)))
                     (Fin (qz 100))) col
  = col.
Proof.
  intros Hmin Hmax. rewrite Hmin, Hmax.
  rewrite <- (map_id col) at 2. apply map_ext_in. intros v Hv.
  destruct v as [q| | |].
  - unfold xsub. cbn [xneg xadd xdiv].
    replace (Qc_eqb (qz 100 + - qz 0) 0) with false by reflexivity.
    cbn [xmul]. f_equal. change (qz 0) with 0. field.
    intro E. discriminate E.
  - apply col_max_PInf in Hv. congruence.
  - apply col_min_NInf in Hv. congruence.
  - reflexivity.
Qed.

(** A column of floats between 0 and 100 that no scaling returns, the
    volumes 0, 29 and 100, is not left as it is in binary64: [29 / 100 * 100]
    is rounded to 28.999999999999996. *)
Lemma scaling_in_binary64 :
  F64.normalize_volume [0; 29; 100]%float
  = [0; 0x1.cffffffffffffp+4; 100]%float.
Proof. reflexivity. Qed.

End Scaling.

(* ================================================================== *)
(** * The correlation matrix *)

Section Correlation.

Import Frames.

Open Scope R_scope.

Lemma complete_pairs_swap (x y : list xnum) :
  Corr.complete_pairs y x = map Corr.swap (Corr.complete_pairs x y).
Proof.
  revert y. induction x as [|a x IH]; intros [|b y].
  - reflexivity.
  - destruct b; reflexivity.
  - destruct a; reflexivity.
  - destruct a, b; cbn [Corr.complete_pairs map]; rewrite ?IH; reflexivity.
Qed.

Lemma codeviation_swap (ps : list (R * R)) :
  Corr.codeviation (map Corr.swap ps) = Corr.codeviation ps.
Proof.
  unfold Corr.codeviation. rewrite !map_map. cbn [Corr.swap fst snd].
  change (map (fun x => snd x) ps) with (map snd ps).
  change (map (fun x => fst x) ps) with (map fst ps).
  f_equal. apply map_ext. intros p. ring.
Qed.

Lemma pearson_sym (x y : list xnum) : Corr.pearson y x = Corr.pearson x y.
Proof.
  unfold Corr.pearson. rewrite complete_pairs_swap.
  destruct (Corr.complete_pairs x y) as [|p ps]; [reflexivity|].
  set (l := p :: ps). change (map Corr.swap (p :: ps)) with (map Corr.swap l).
  destruct (map Corr.swap l) as [|p' ps'] eqn:E; [discriminate E|].
  rewrite <- E. rewrite codeviation_swap.
  rewrite !map_map. cbn [Corr.swap fst snd].
  rewrite (Rmult_comm (Corr.codeviation (map (fun x0 => (snd x0, snd x0)) l))).
  reflexivity.
Qed.

Lemma nth_map_error (A B : Type) (f : A -> B) (l : list A) (d : B) (i : nat) :
  nth i (map f l) d
  = match nth_error l i with
    | Some a => f a
    | None => d
    end.
Proof.
  revert i. induction l as [|a l IH]; intros [|i]; cbn [map nth nth_error];
    try reflexivity. apply IH.
Qed.

Lemma corr_at (cols : list (string * list xnum)) (i j : nat) :
  Corr.at_ (Corr.corr cols) i j
  = match nth_error cols i, nth_error cols j with
    | Some cx, Some cy => Corr.pearson (snd cx) (snd cy)
    | _, _ => None
    end.
Proof.
  unfold Corr.at_, Corr.corr. rewrite nth_map_error.
  destruct (nth_error cols i) as [cx|].
  - rewrite nth_map_error. reflexivity.
  - destruct j; reflexivity.
Qed.

Lemma corr_symmetric (cols : list (string * list xnum)) (i j : nat) :
  Corr.at_ (Corr.corr cols) i j = Corr.at_ (Corr.corr cols) j i.
Proof.
  rewrite !corr_at.
  destruct (nth_error cols i) as [cx|], (nth_error cols j) as [cy|];
    try reflexivity.
  apply pearson_sym.
Qed.

(** On the diagonal the pairs are the finite values, each with itself. *)
Lemma complete_pairs_diag (x : list xnum) :
  Corr.complete_pairs x x
  = map (fun q => (Corr.to_R q, Corr.to_R q)) (Corr.finite_values x).
Proof.
  induction x as [|a x IH]; [reflexivity|].
  destruct a; cbn [Corr.complete_pairs Corr.finite_values map]; rewrite IH; reflexivity.
Qed.

Lemma rsum_squares_nonneg (m : R) (xs : list R) :
  0 <= Corr.rsum (map (fun a => (a - m) * (a - m)) xs).
Proof.
  induction xs as [|a xs IH]; cbn [map Corr.rsum fold_right]; [Lra.lra|].
  fold (Corr.rsum (map (fun a => (a - m) * (a - m)) xs)).
  pose proof (Rle_0_sqr (a - m)) as H. unfold Rsqr in H. Lra.lra.
Qed.

Lemma rsum_squares_zero (m : R) (xs : list R) :
  Corr.rsum (map (fun a => (a - m) * (a - m)) xs) = 0 ->
  forall a, In a xs -> a = m.
Proof.
  induction xs as [|b xs IH]; intros H a Ha; [destruct Ha|].
  cbn [map Corr.rsum fold_right] in H.
  fold (Corr.rsum (map (fun a => (a - m) * (a - m)) xs)) in H.
  pose proof (rsum_squares_nonneg m xs) as Hn.
  pose proof (Rle_0_sqr (b - m)) as Hb. unfold Rsqr in Hb.
  assert (Hb0 : (b - m) * (b - m) = 0) by Lra.lra.
  destruct Ha as [<- | Ha].
  - apply Rmult_integral in Hb0. destruct Hb0; Lra.lra.
  - apply IH; [Lra.lra | exact Ha].
Qed.

Lemma rsum_constant (c : R) (xs : list R) :
  (forall a, In a xs -> a = c) -> Corr.rsum xs = INR (List.length xs) * c.
Proof.
  induction xs as [|b xs IH]; intros H.
  - cbn. Lra.lra.
  - cbn [Corr.rsum fold_right]. fold (Corr.rsum xs).
    replace (INR (List.length (b :: xs))) with (INR (List.length xs) + 1)
      by (symmetry; apply S_INR).
    rewrite IH by (intros a Ha; apply H; right; exact Ha).
    rewrite (H b (or_introl eq_refl)). Lra.lra.
Qed.

(** The sum of the squared deviations of the values [xs] from their mean. *)
Lemma codeviation_diag (xs : list R) :
  Corr.codeviation (map (fun a => (a, a)) xs)
  = Corr.rsum (map (fun a => (a - Corr.mean xs) * (a - Corr.mean xs)) xs).
Proof.
  unfold Corr.codeviation. rewrite !map_map. cbn [fst snd].
  rewrite map_id. reflexivity.
Qed.

Lemma to_R_inj (p q : Qc) : Corr.to_R p = Corr.to_R q -> p = q.
Proof.
  unfold Corr.to_R. intros H. apply Qc_is_canon. apply eqR_Qeq. exact H.
Qed.

Lemma spread_zero_iff (x : list xnum) :
  Corr.codeviation (map (fun a => (a, a)) (map Corr.to_R (Corr.finite_values x))) = 0
  <-> Corr.all_equal x.
Proof.
  rewrite codeviation_diag. unfold Corr.all_equal. split.
  - intros H p q Hp Hq. apply to_R_inj.
    rewrite (rsum_squares_zero _ _ H (Corr.to_R p)) by (apply in_map; exact Hp).
    rewrite (rsum_squares_zero _ _ H (Corr.to_R q)) by (apply in_map; exact Hq).
    reflexivity.
  - intros H. destruct (Corr.finite_values x) as [|c fs] eqn:E; [reflexivity|].
    set (xs := map Corr.to_R (c :: fs)).
    assert (Hc : forall a, In a xs -> a = Corr.to_R c).
    { intros a Ha. apply in_map_iff in Ha. destruct Ha as (p & <- & Hp).
      f_equal. apply H; [exact Hp | left; reflexivity]. }
    assert (Hm : Corr.mean xs = Corr.to_R c).
    { unfold Corr.mean. rewrite (rsum_constant _ _ Hc).
      field. apply not_0_INR. discriminate. }
    rewrite Hm.
    rewrite (rsum_constant 0).
    + ring.
    + intros a Ha. apply in_map_iff in Ha. destruct Ha as (b & <- & Hb).
      rewrite (Hc b Hb). ring.
Qed.

Lemma pearson_diag (x : list xnum) :
  (Corr.all_equal x -> Corr.pearson x x = None)
  /\ (~ Corr.all_equal x -> Corr.pearson x x = Some 1).
Proof.
  unfold Corr.pearson. rewrite complete_pairs_diag.
  pose proof (spread_zero_iff x) as Z.
  rewrite <- (map_map Corr.to_R (fun a => (a, a))).
  set (xs := map Corr.to_R (Corr.finite_values x)) in *.
  destruct (map (fun a => (a, a)) xs) as [|p ps] eqn:E.
  - split; [reflexivity|]. intros H. exfalso. apply H. apply Z.
    unfold Corr.codeviation. reflexivity.
  - rewrite <- E in *. clear E p ps. rewrite !map_map. cbn [fst snd].
    set (S := Corr.codeviation (map (fun a => (a, a)) xs)) in *.
    assert (Hn : 0 <= S).
    { unfold S. rewrite codeviation_diag. apply rsum_squares_nonneg. }
    rewrite sqrt_square by exact Hn.
    destruct (Req_dec_T S 0) as [E0|E0].
    + split; [reflexivity|]. intros H. exfalso. apply H. apply Z. exact E0.
    + split.
      * intros H. exfalso. apply E0. apply Z. exact H.
      * intros _. f_equal. field. exact E0.
Qed.

(** The diagonal of the matrix. *)
Lemma corr_diag (cols : list (string * list xnum)) (i : nat)
    (name : string) (col : list xnum) :
  nth_error cols i = Some (name, col) ->
  (Corr.all_equal col -> Corr.at_ (Corr.corr cols) i i = None)
  /\ (~ Corr.all_equal col -> Corr.at_ (Corr.corr cols) i i = Some 1).
Proof.
  intros H. rewrite corr_at, H. cbn [snd]. apply pearson_diag.
Qed.

(** C9, as the code has it.  The matrix of [calculate_correlation] is
    symmetric: the entry of the columns [i] and [j] is the entry of [j]
    and [i].  A diagonal entry is 1 when the finite values of the column
    are not all the same, and NaN when they are (a constant column, a table
    of one row, an empty table).  The same holds for the method of the
    class, on the table with the column [VolumeNormalized]. *)
Theorem correlation_symmetric_diagonal :
  forall merged_data : list MergedRow,
    let m := Merge.calculate_correlation merged_data in
    (forall i j, Corr.at_ m i j = Corr.at_ m j i)
    /\ (forall i name col,
           nth_error (numeric_columns merged_data) i = Some (name, col) ->
           (Corr.all_equal col -> Corr.at_ m i i = None)
           /\ (~ Corr.all_equal col -> Corr.at_ m i i = Some 1))
    /\ (forall normalized : list (MergedRow * xnum),
           let m' := MergeOOP.calculate_correlation normalized in
           (forall i j, Corr.at_ m' i j = Corr.at_ m' j i)
           /\ (forall i name col,
                  nth_error (numeric_columns (map fst normalized)
                             ++ [("VolumeNormalized"%string, map snd normalized)]) i
                  = Some (name, col) ->
                  (Corr.all_equal col -> Corr.at_ m' i i = None)
                  /\ (~ Corr.all_equal col -> Corr.at_ m' i i = Some 1))).
Proof.
  intros merged_data m. split; [|split].
  - intros i j. apply corr_symmetric.
  - intros i name col H. exact (corr_diag _ i name col H).
  - intros normalized m'. split.
    + intros i j. apply corr_symmetric.
    + intros i name col H. exact (corr_diag _ i name col H).
Qed.

(** C9, as the specification has it, fails on the table merged from the
    interest values 10, 20, 40 of three days and the prices of the last
    two: the column [Trend_Percentage] holds 100 twice, its spread is zero
    and its diagonal entry is NaN (and so is the entry of [isPartial]). *)
Lemma correlation_claim_fails : ~ Spec.correlation_claim merged_2_3.
Proof.
  intros [_ H]. specialize (H 7%nat). cbv zeta in H.
  assert (P : map Trend_Percentage merged_2_3 = [Fin (qz 100); Fin (qz 100)]).
  { apply column_eqb_eq; vm_compute; reflexivity. }
  assert (N : Corr.at_ (Merge.calculate_correlation merged_2_3) 7 7 = None).
  { refine (proj1 (corr_diag (numeric_columns merged_2_3) 7
                     "Trend_Percentage"%string
                     (map Trend_Percentage merged_2_3) eq_refl) _).
    unfold Corr.all_equal. rewrite P. cbn [Corr.finite_values].
    intros p q [<-|[<-|[]]] [<-|[<-|[]]]; reflexivity. }
  rewrite N in H. specialize (H ltac:(lia)). discriminate H.
Qed.

End Correlation.

(* ================================================================== *)
(** * Errors and edges of the trend sentiment *)

Section TrendEdges.

Open Scope Qc_scope.

(** Where the moving average is missing. *)
Lemma rolling_mean_at_missing (v : list Qc) (w i : nat) :
  (w = 0 \/ i + 1 < w)%nat -> Series.rolling_mean_at v w i = NaN.
Proof.
  intros H. unfold Series.rolling_mean_at.
  destruct H as [-> | H]; [reflexivity|].
  replace (w <=? i + 1)%nat with false by (symmetry; apply Nat.leb_gt; lia).
  rewrite andb_false_r. reflexivity.
Qed.

Lemma rolling_mean_at_valid (v : list Qc) (w i : nat) :
  (1 <= w <= i + 1)%nat -> exists q, Series.rolling_mean_at v w i = Fin q.
Proof.
  intros H. unfold Series.rolling_mean_at.
  replace (0 <? w)%nat with true by (symmetry; apply Nat.ltb_lt; lia).
  replace (w <=? i + 1)%nat with true by (symmetry; apply Nat.leb_le; lia).
  cbn [andb]. eexists. reflexivity.
Qed.

Lemma rolling_mean_ok (v : list Qc) (w : Z) :
  (0 <= w)%Z ->
  Series.rolling_mean v w
  = Ok (map (Series.rolling_mean_at v (Z.to_nat w)) (seq 0 (List.length v))).
Proof.
  intros H. unfold Series.rolling_mean.
  replace (w <? 0)%Z with false by (symmetry; apply Z.ltb_ge; exact H).
  reflexivity.
Qed.

Lemma rolling_mean_negative (v : list Qc) (w : Z) :
  (w < 0)%Z -> Series.rolling_mean v w = Raise ValueError.
Proof.
  intros H. unfold Series.rolling_mean.
  replace (w <? 0)%Z with true by (symmetry; apply Z.ltb_lt; exact H).
  reflexivity.
Qed.

(** X3.  [trend_analysis] of the function-based script refuses a negative
    window with [ValueError] and an empty series with [IndexError]; on
    every other input with a window other than 1 it answers Neutral,
    whatever the series does. *)
Theorem trend_analysis_function_behaviour :
  forall (trend_data : list Qc) (w : Z),
    ((w < 0)%Z -> FetchPlot.trend_analysis trend_data w = Raise ValueError)
    /\ ((0 <= w)%Z -> trend_data = [] ->
        FetchPlot.trend_analysis trend_data w = Raise IndexError)
    /\ ((0 <= w)%Z -> w <> 1%Z -> trend_data <> [] ->
        FetchPlot.trend_analysis trend_data w = Ok "Neutral"%string).
Proof.
  intros trend_data w. split; [|split].
  - intros H. unfold FetchPlot.trend_analysis.
    rewrite rolling_mean_negative by exact H. reflexivity.
  - intros H ->. unfold FetchPlot.trend_analysis.
    rewrite rolling_mean_ok by exact H. reflexivity.
  - intros H H1 Hne. unfold FetchPlot.trend_analysis.
    rewrite rolling_mean_ok by exact H.
    destruct trend_data as [|x v]; [congruence|].
    cbn [List.length seq map bind Series.iloc_first].
    rewrite rolling_mean_at_missing by lia.
    rewrite (iloc_last_last _ NaN (NaN :: _)) by discriminate.
    cbn [bind]. unfold xgt. cbn [xlt]. rewrite xlt_NaN_r. reflexivity.
Qed.

(** A falling series with a window of 2. *)
Lemma trend_analysis_function_behaviour_witness :
  FetchPlot.trend_analysis [qz 9; qz 5; qz 1] 2 = Ok "Neutral"%string.
Proof.
  apply (proj2 (proj2 (trend_analysis_function_behaviour [qz 9; qz 5; qz 1] 2)));
    [lia | lia | discriminate].
Defined.

Lemma dropna_missing_column (l : list xnum) :
  (forall x, In x l -> x = NaN) -> Series.dropna l = [].
Proof.
  induction l as [|x l IH]; intros H; [reflexivity|].
  rewrite (H x (or_introl eq_refl)). cbn [Series.dropna filter isna negb].
  apply IH. intros y Hy. apply H. right. exact Hy.
Qed.

Lemma series_dropna_In (l : list xnum) (x : xnum) :
  In x (Series.dropna l) <-> In x l /\ isna x = false.
Proof.
  unfold Series.dropna. rewrite filter_In, negb_true_iff. reflexivity.
Qed.

(** The method of the class on a column it could read. *)
Lemma class_trend_analysis_on_column (self : FetchPlotOOP.StockTrendAnalysis)
    (col : list Qc) (w : Z) :
  FetchPlotOOP.term_column self = Ok col ->
  ((w < 0)%Z -> FetchPlotOOP.trend_analysis self w = Raise ValueError)
  /\ ((w = 0 \/ Z.of_nat (List.length col) < w)%Z ->
      FetchPlotOOP.trend_analysis self w = Raise IndexError)
  /\ ((1 <= w <= Z.of_nat (List.length col))%Z ->
      exists sentiment,
        FetchPlotOOP.trend_analysis self w = Ok sentiment
        /\ In sentiment ["Positive"; "Negative"; "Neutral"]%string).
Proof.
  intros H. unfold FetchPlotOOP.trend_analysis. rewrite H. cbn [bind].
  split; [|split].
  - intros Hw. rewrite rolling_mean_negative by exact Hw. reflexivity.
  - intros Hw. rewrite rolling_mean_ok by lia. cbn [bind].
    rewrite dropna_missing_column; [reflexivity|].
    intros x Hx. apply in_map_iff in Hx. destruct Hx as (i & <- & Hi).
    apply in_seq in Hi. apply rolling_mean_at_missing. lia.
  - intros Hw. rewrite rolling_mean_ok by lia. cbn [bind].
    set (ma := map (Series.rolling_mean_at col (Z.to_nat w))
                   (seq 0 (List.length col))).
    assert (Hin : exists q, In (Fin q) (Series.dropna ma)).
    { destruct (rolling_mean_at_valid col (Z.to_nat w) (Z.to_nat w - 1))
        as [q Hq]; [lia|].
      exists q. apply series_dropna_In. split; [|reflexivity].
      rewrite <- Hq. apply in_map. apply in_seq. lia. }
    destruct Hin as [q Hq].
    assert (Hne : Series.dropna ma <> []).
    { intro E. rewrite E in Hq. destruct Hq. }
    rewrite (iloc_first_hd _ NaN _ Hne), (iloc_last_last _ NaN _ Hne).
    cbn [bind]. eexists. split; [reflexivity|].
    destruct (xgt _ _); [left; reflexivity|].
    destruct (xlt _ _);
      [right; left; reflexivity | right; right; left; reflexivity].
Qed.

(** X4.  The method [trend_analysis] of the class: an error met when the
    column of the search term is read ([TypeError] before the download,
    [KeyError] when the table has no such column) is raised as it is; a
    negative window raises [ValueError]; a window of 0, or one longer than
    the series, leaves no valid value and raises [IndexError]; with
    [1 <= w <= len] it returns a sentiment. *)
Theorem class_trend_analysis_behaviour :
  forall (self : FetchPlotOOP.StockTrendAnalysis) (w : Z),
    (forall e, FetchPlotOOP.term_column self = Raise e ->
               FetchPlotOOP.trend_analysis self w = Raise e)
    /\ (forall col,
           FetchPlotOOP.term_column self = Ok col ->
           ((w < 0)%Z -> FetchPlotOOP.trend_analysis self w = Raise ValueError)
           /\ ((w = 0 \/ Z.of_nat (List.length col) < w)%Z ->
               FetchPlotOOP.trend_analysis self w = Raise IndexError)
           /\ ((1 <= w <= Z.of_nat (List.length col))%Z ->
               exists sentiment,
                 FetchPlotOOP.trend_analysis self w = Ok sentiment
                 /\ In sentiment ["Positive"; "Negative"; "Neutral"]%string)).
Proof.
  intros self w. split.
  - intros e H. unfold FetchPlotOOP.trend_analysis. rewrite H. reflexivity.
  - intros col H. apply class_trend_analysis_on_column. exact H.
Qed.

(** Two values under a window of three: no valid moving average. *)
Lemma class_trend_analysis_behaviour_witness :
  FetchPlotOOP.trend_analysis (tesla [qz 1; qz 2]) 3 = Raise IndexError.
Proof.
  refine (proj1 (proj2 (proj2 (class_trend_analysis_behaviour
                                 (tesla [qz 1; qz 2]) 3) [qz 1; qz 2] eq_refl)) _).
  right. cbn [List.length]. lia.
Defined.

End TrendEdges.

(* ================================================================== *)
(** * The direction of the percentage sentiment *)

Section PercentageDirection.

Open Scope Qc_scope.

Lemma this_mult (a b : Qc) : (this (a * b) == this a * this b)%Q.
Proof. unfold Qcmult. cbn [this Q2Qc]. apply Qred_correct. Qed.

Lemma this_inv (a : Qc) : (this (/ a) == / this a)%Q.
Proof. unfold Qcinv. cbn [this Q2Qc]. apply Qred_correct. Qed.

Lemma this_div (a b : Qc) : (this (a / b) == this a / this b)%Q.
Proof. unfold Qcdiv. rewrite this_mult, this_inv. reflexivity. Qed.

(** Scaling by a positive factor keeps the sign. *)
Lemma Qc_scale_sign (x k : Qc) :
  0 < k ->
  (0 < x -> 0 < x * k) /\ (x < 0 -> x * k < 0) /\ (x = 0 -> x * k = 0).
Proof.
  intros Hk. repeat split; intros H.
  - unfold Qclt in *. rewrite this_mult. change (this 0) with 0%Q in *.
    apply Qmult_lt_0_compat; assumption.
  - unfold Qclt in *. rewrite this_mult. change (this 0) with 0%Q in *.
    assert (E : (0 < (- this x) * this k)%Q).
    { apply Qmult_lt_0_compat; [Lqa.lra | assumption]. }
    Lqa.nra.
  - subst. ring.
Qed.

Lemma Qcinv_pos (f : Qc) : 0 < f -> 0 < / f.
Proof.
  unfold Qclt. rewrite this_inv. change (this 0) with 0%Q.
  apply Qinv_lt_0_compat.
Qed.

Lemma is_sentiment_scaled (x k : Qc) (s : string) :
  0 < k -> Spec.is_sentiment (x * k) s -> Spec.is_sentiment x s.
Proof.
  intros Hk (P & N & Z). destruct (Qc_scale_sign x k Hk) as (P' & N' & Z').
  repeat split; intros H; auto.
Qed.

Lemma percentage_trend_analysis_nonzero (trend_data : list Qc) :
  trend_data <> [] ->
  hd 0 trend_data <> 0 ->
  Series.difference_fits trend_data (List.last trend_data 0) (hd 0 trend_data) ->
  exists s,
    FetchPlot.percentage_trend_analysis trend_data
    = Ok (Fin ((List.last trend_data 0 - hd 0 trend_data)
               / hd 0 trend_data * qz 100), s)
    /\ Spec.is_sentiment ((List.last trend_data 0 - hd 0 trend_data)
                          / hd 0 trend_data * qz 100) s.
Proof.
  intros Hne Hfirst F.
  rewrite (percentage_trend_analysis_value trend_data Hne Hfirst F).
  eexists. split; [reflexivity|]. apply sentiment_choice_0.
Qed.

(** X5.  On a series whose difference [last - first] fits the dtype of
    the column and that starts at a positive value, the sentiment of
    [percentage_trend_analysis], the function and the method alike, tells
    how the series ends: Positive when the last value is above the first,
    Negative when below, Neutral when they are the same.  On a series that
    starts at a negative value the answers Positive and Negative are the
    other way round. *)
Theorem percentage_sentiment_direction :
  forall trend_data : list Qc,
    trend_data <> [] ->
    let first := hd 0 trend_data in
    let last := List.last trend_data 0 in
    Series.difference_fits trend_data last first ->
    (0 < first ->
     exists change sentiment,
       FetchPlot.percentage_trend_analysis trend_data = Ok (Fin change, sentiment)
       /\ Spec.is_sentiment (last - first) sentiment
       /\ forall self,
           FetchPlotOOP.term_column self = Ok trend_data ->
           FetchPlotOOP.percentage_trend_analysis self
           = Ok (Fin change, sentiment))
    /\ (first < 0 ->
        exists change sentiment,
          FetchPlot.percentage_trend_analysis trend_data
          = Ok (Fin change, sentiment)
          /\ Spec.is_sentiment (first - last) sentiment
          /\ forall self,
              FetchPlotOOP.term_column self = Ok trend_data ->
              FetchPlotOOP.percentage_trend_analysis self
              = Ok (Fin change, sentiment)).
Proof.
  intros trend_data Hne first last F. split; intros Hf.
  - destruct (percentage_trend_analysis_nonzero trend_data Hne) as (s & E & S).
    { intro X. fold first in X. rewrite X in Hf. discriminate Hf. }
    { exact F. }
    fold first last in E, S. exists ((last - first) / first * qz 100), s.
    split; [exact E|]. split.
    + apply (is_sentiment_scaled _ (/ first * qz 100)).
      * apply (proj1 (Qc_scale_sign (/ first) (qz 100) eq_refl)).
        apply Qcinv_pos. exact Hf.
      * replace ((last - first) * (/ first * qz 100))
          with ((last - first) / first * qz 100) by (unfold Qcdiv; ring).
        exact S.
    + intros self Hcol.
      rewrite (percentage_trend_analysis_oop self trend_data Hcol). exact E.
  - destruct (percentage_trend_analysis_nonzero trend_data Hne) as (s & E & S).
    { intro X. fold first in X. rewrite X in Hf. discriminate Hf. }
    { exact F. }
    fold first last in E, S. exists ((last - first) / first * qz 100), s.
    split; [exact E|]. split.
    + apply (is_sentiment_scaled _ (/ (- first) * qz 100)).
      * apply (proj1 (Qc_scale_sign (/ (- first)) (qz 100) eq_refl)).
        apply Qcinv_pos. unfold Qclt in *. rewrite this_opp.
        change (this 0) with 0%Q in *. Lqa.lra.
      * replace ((first - last) * (/ - first * qz 100))
          with ((last - first) / first * qz 100).
        -- exact S.
        -- assert (Hnz : first <> 0).
           { intro X. rewrite X in Hf. discriminate Hf. }
           field. repeat split; try exact Hnz.
           intro X. apply Hnz. rewrite <- (Qcopp_involutive first), X. ring.
    + intros self Hcol.
      rewrite (percentage_trend_analysis_oop self trend_data Hcol). exact E.
Qed.

(** From 50 up to 80. *)
Lemma percentage_sentiment_direction_witness :
  exists change sentiment,
    FetchPlot.percentage_trend_analysis [qz 50; qz 20; qz 80]
    = Ok (Fin change, sentiment)
    /\ Spec.is_sentiment (qz 80 - qz 50) sentiment.
Proof.
  destruct (proj1 (percentage_sentiment_direction [qz 50; qz 20; qz 80]
                     ltac:(discriminate)
                     ltac:(intros _; split;
                           [apply Z.leb_le | apply Z.ltb_lt]; reflexivity))
                  eq_refl)
    as (change & sentiment & E & S & _).
  exists change, sentiment. split; [exact E | exact S].
Defined.

End PercentageDirection.

(* ================================================================== *)
(** * The range of the exponential moving average *)

Section EMARange.

Open Scope Qc_scope.

Lemma this_qz (z : Z) : (this (qz z) == inject_Z z)%Q.
Proof. unfold qz. cbn [this Q2Qc]. apply Qred_correct. Qed.

(** The smoothing factor of a span [w >= 1] lies in (0, 1]. *)
Lemma ewm_alpha_range (w : Z) :
  (1 <= w)%Z -> 0 < qz 2 / (qz w + 1) /\ qz 2 / (qz w + 1) <= 1.
Proof.
  intros Hw. unfold Qclt, Qcle.
  rewrite this_div, this_plus, !this_qz.
  change (this 0) with 0%Q. change (this 1) with 1%Q.
  assert (H1 : (1 <= inject_Z w)%Q).
  { unfold Qle. cbn. lia. }
  assert (Hp : (0 < inject_Z w + 1)%Q) by Lqa.lra.
  split.
  - apply Qlt_shift_div_l; [exact Hp|]. change (inject_Z 2) with 2%Q. Lqa.lra.
  - apply Qle_shift_div_r; [exact Hp|]. change (inject_Z 2) with 2%Q. Lqa.lra.
Qed.

(** A weighted mean of two values lies between any bounds of the two. *)
Lemma convex_between (alpha c e lo hi : Qc) :
  0 < alpha -> alpha <= 1 ->
  lo <= c <= hi -> lo <= e <= hi ->
  lo <= alpha * c + (1 - alpha) * e <= hi.
Proof.
  unfold Qclt, Qcle. intros Ha0 Ha1 [Hc1 Hc2] [He1 He2].
  rewrite this_plus, !this_mult, this_minus.
  change (this 0) with 0%Q in *. change (this 1) with 1%Q in *.
  split; Lqa.nra.
Qed.

Lemma ewm_loop_between (alpha lo hi e : Qc) (vals : list Qc) :
  0 < alpha -> alpha <= 1 ->
  lo <= e <= hi ->
  (forall x, In x vals -> lo <= x <= hi) ->
  List.length (Series.ewm_loop alpha (Fin e) vals) = List.length vals
  /\ forall y, In y (Series.ewm_loop alpha (Fin e) vals) ->
               exists q, y = Fin q /\ lo <= q <= hi.
Proof.
  intros Ha0 Ha1. revert e. induction vals as [|c vals IH]; intros e He Hv.
  - split; [reflexivity | intros y []].
  - cbn [Series.ewm_loop]. rewrite ewm_step_fin.
    assert (Hc : lo <= c <= hi) by (apply Hv; left; reflexivity).
    pose proof (convex_between alpha c e lo hi Ha0 Ha1 Hc He) as He'.
    destruct (IH _ He' (fun x Hx => Hv x (or_intror Hx))) as [L B].
    split; [cbn [List.length]; rewrite L; reflexivity|].
    intros y [<- | Hy]; [eexists; split; [reflexivity | exact He'] | exact (B y Hy)].
Qed.

(** X6.  For a span [w >= 1] the exponential moving average has the length
    of the series, holds no missing value, and never leaves the range of
    the series: between any two bounds of the values lie all the averages. *)
Theorem calculate_ema_within_bounds :
  forall (trend_data : list Qc) (w : Z) (lo hi : Qc),
    (1 <= w)%Z ->
    (forall x, In x trend_data -> lo <= x <= hi) ->
    exists out,
      FetchPlot.calculate_ema trend_data w = Ok out
      /\ List.length out = List.length trend_data
      /\ forall y, In y out -> exists q, y = Fin q /\ lo <= q <= hi.
Proof.
  intros trend_data w lo hi Hw Hv.
  unfold FetchPlot.calculate_ema, Series.ewm_mean.
  replace (w <? 1)%Z with false by (symmetry; apply Z.ltb_ge; exact Hw).
  rewrite (ewm_alpha w Hw).
  destruct (ewm_alpha_range w Hw) as [Ha0 Ha1].
  destruct trend_data as [|v0 rest].
  - exists []. split; [reflexivity|]. split; [reflexivity | intros y []].
  - assert (H0 : lo <= v0 <= hi) by (apply Hv; left; reflexivity).
    destruct (ewm_loop_between _ lo hi v0 rest Ha0 Ha1 H0
                (fun x Hx => Hv x (or_intror Hx))) as [L B].
    eexists. split; [reflexivity|]. split.
    + cbn [List.length]. rewrite L. reflexivity.
    + intros y [<- | Hy]; [eexists; split; [reflexivity | exact H0] | exact (B y Hy)].
Qed.

(** The series 1, 2, 3, 4, 5 with span 3 stays between 1 and 5. *)
Lemma calculate_ema_within_bounds_witness :
  exists out,
    FetchPlot.calculate_ema series_1_to_5 3 = Ok out
    /\ List.length out = 5%nat
    /\ forall y, In y out -> exists q, y = Fin q /\ qz 1 <= q <= qz 5.
Proof.
  apply (calculate_ema_within_bounds series_1_to_5 3 (qz 1) (qz 5)).
  - lia.
  - intros x Hx. unfold series_1_to_5 in Hx. cbn [In] in Hx.
    repeat (destruct Hx as [<- | Hx]; [split; discriminate|]).
    destruct Hx.
Defined.

End EMARange.

(* ================================================================== *)
(** * Edges of the exponential average and the lines of the chart *)

Section ChartLines.

Open Scope Qc_scope.

Lemma ewm_loop_alpha_1 (e : Qc) (vals : list Qc) :
  Series.ewm_loop 1 (Fin e) vals = map Fin vals.
Proof.
  revert e. induction vals as [|c vals IH]; intros e; [reflexivity|].
  cbn [Series.ewm_loop map]. rewrite ewm_step_fin.
  replace (1 * c + (1 - 1) * e) with c by ring.
  f_equal. apply IH.
Qed.

Lemma ewm_mean_refused (vals : list Qc) (span : Z) :
  (span < 1)%Z -> Series.ewm_mean vals span = Raise ValueError.
Proof.
  intros H. unfold Series.ewm_mean.
  replace (span <? 1)%Z with true by (symmetry; apply Z.ltb_lt; exact H).
  reflexivity.
Qed.

(** X7.  [calculate_ema], the function and the method alike, raises
    [ValueError] for a span below 1; with the span 1 the average is the
    series itself, and the empty series gives the empty average for every
    span from 1 on. *)
Theorem calculate_ema_edges :
  forall (self : FetchPlotOOP.StockTrendAnalysis) (trend_data : list Qc) (w : Z),
    FetchPlotOOP.calculate_ema self trend_data w
    = FetchPlot.calculate_ema trend_data w
    /\ ((w < 1)%Z -> FetchPlot.calculate_ema trend_data w = Raise ValueError)
    /\ (w = 1%Z -> FetchPlot.calculate_ema trend_data w = Ok (map Fin trend_data))
    /\ ((1 <= w)%Z -> FetchPlot.calculate_ema [] w = Ok []).
Proof.
  intros self trend_data w. split; [reflexivity|]. split; [|split].
  - intros H. apply ewm_mean_refused. exact H.
  - intros ->. unfold FetchPlot.calculate_ema, Series.ewm_mean.
    change (1 <? 1)%Z with false. cbv iota.
    replace (1 / (1 + (qz 1 - 1) / qz 2)) with 1
      by (apply Qc_is_canon; reflexivity).
    destruct trend_data as [|v0 rest]; [reflexivity|].
    rewrite ewm_loop_alpha_1. reflexivity.
  - intros H. unfold FetchPlot.calculate_ema, Series.ewm_mean.
    replace (w <? 1)%Z with false by (symmetry; apply Z.ltb_ge; exact H).
    reflexivity.
Qed.

(** The span 0. *)
Lemma calculate_ema_edges_witness :
  FetchPlot.calculate_ema series_1_to_5 0 = Raise ValueError.
Proof.
  apply (proj1 (proj2 (calculate_ema_edges (tesla []) series_1_to_5 0))).
  lia.
Defined.

Lemma rolling_mean_at_missing_iff (v : list Qc) (w i : nat) :
  Series.rolling_mean_at v w i = NaN <-> (w = 0 \/ i + 1 < w)%nat.
Proof.
  split; [|apply rolling_mean_at_missing].
  intros H. destruct (Nat.eq_dec w 0) as [E|E]; [left; exact E|].
  destruct (Nat.lt_ge_cases (i + 1) w) as [L|G]; [right; exact L|].
  destruct (rolling_mean_at_valid v w i) as [q Hq]; [lia|]. congruence.
Qed.

Lemma ewm_loop_finite (alpha e : Qc) (vals : list Qc) :
  List.length (Series.ewm_loop alpha (Fin e) vals) = List.length vals
  /\ forall y, In y (Series.ewm_loop alpha (Fin e) vals) -> isna y = false.
Proof.
  revert e. induction vals as [|c vals IH]; intros e.
  - split; [reflexivity | intros y []].
  - cbn [Series.ewm_loop]. rewrite ewm_step_fin.
    destruct (IH (alpha * c + (1 - alpha) * e)) as [L B].
    split; [cbn [List.length]; rewrite L; reflexivity|].
    intros y [<- | Hy]; [reflexivity | exact (B y Hy)].
Qed.

Lemma ewm_mean_finite (vals : list Qc) (span : Z) :
  (1 <= span)%Z ->
  exists out,
    Series.ewm_mean vals span = Ok out
    /\ List.length out = List.length vals
    /\ forall y, In y out -> isna y = false.
Proof.
  intros H. unfold Series.ewm_mean.
  replace (span <? 1)%Z with false by (symmetry; apply Z.ltb_ge; exact H).
  destruct vals as [|v0 rest].
  - exists []. repeat split. intros y [].
  - destruct (ewm_loop_finite (1 / (1 + (qz span - 1) / qz 2)) v0 rest) as [L B].
    eexists. split; [reflexivity|]. split.
    + cbn [List.length]. rewrite L. reflexivity.
    + intros y [<- | Hy]; [reflexivity | exact (B y Hy)].
Qed.

(** X8.  [visualize_trend] of the function-based script raises
    [ValueError] for a negative window of the moving average or a span of
    the exponential average below 1.  Otherwise it draws three lines of the length of the series; the
    exponential average has a value on every row, and the moving average
    misses exactly the rows before the window is full (all of them for a
    window of 0). *)
Theorem visualize_trend_lines :
  forall (trend_data : list Qc) (mw ew : Z),
    ((mw < 0 \/ ew < 1)%Z ->
     FetchPlotRun.visualize_trend trend_data mw ew = Raise ValueError)
    /\ ((0 <= mw)%Z -> (1 <= ew)%Z ->
        exists ma ema,
          FetchPlotRun.visualize_trend trend_data mw ew
          = Ok (trend_data, ma, ema)
          /\ List.length ma = List.length trend_data
          /\ List.length ema = List.length trend_data
          /\ (forall y, In y ema -> isna y = false)
          /\ (forall i, (i < List.length trend_data)%nat ->
                        (nth i ma (Fin 0) = NaN
                         <-> (mw = 0 \/ Z.of_nat i + 1 < mw)%Z))).
Proof.
  intros trend_data mw ew. split.
  - intros H. unfold FetchPlotRun.visualize_trend.
    destruct (Z.lt_ge_cases mw 0) as [L|G].
    + rewrite rolling_mean_negative by exact L. reflexivity.
    + rewrite rolling_mean_ok by exact G. cbn [bind].
      unfold FetchPlot.calculate_ema. rewrite ewm_mean_refused by lia.
      reflexivity.
  - intros Hm He. unfold FetchPlotRun.visualize_trend.
    rewrite rolling_mean_ok by exact Hm. cbn [bind].
    destruct (ewm_mean_finite trend_data ew He) as (ema & E & L & B).
    unfold FetchPlot.calculate_ema. rewrite E. cbn [bind].
    eexists. exists ema. split; [reflexivity|].
    split; [rewrite length_map, length_seq; reflexivity|].
    split; [exact L|]. split; [exact B|].
    intros i Hi.
    rewrite (nth_indep _ (Fin 0) (Series.rolling_mean_at trend_data (Z.to_nat mw) 0))
      by (rewrite length_map, length_seq; exact Hi).
    rewrite map_nth.
    rewrite seq_nth by exact Hi. cbn [Nat.add].
    rewrite rolling_mean_at_missing_iff. lia.
Qed.

(** The chart of the example run: windows of 3 on the series 1 to 5. *)
Lemma visualize_trend_lines_witness :
  exists ma ema,
    FetchPlotRun.visualize_trend series_1_to_5 3 3
    = Ok (series_1_to_5, ma, ema)
    /\ List.length ma = 5%nat
    /\ List.length ema = 5%nat.
Proof.
  destruct (proj2 (visualize_trend_lines series_1_to_5 3 3)) as (ma & ema & H).
  - lia.
  - lia.
  - exists ma, ema. destruct H as (H1 & H2 & H3 & _).
    split; [exact H1|]. split; [exact H2 | exact H3].
Defined.

End ChartLines.

(* ================================================================== *)
(** * The example runs of the fetch-and-plot scripts *)

Section ExampleRuns.

Open Scope Qc_scope.

Lemma percentage_trend_analysis_returns (trend_data : list Qc) :
  trend_data <> [] ->
  exists ps, FetchPlot.percentage_trend_analysis trend_data = Ok ps.
Proof.
  intros Hne. unfold FetchPlot.percentage_trend_analysis.
  rewrite (iloc_first_hd _ 0 trend_data Hne), (iloc_last_last _ 0 trend_data Hne).
  cbn [bind]. eexists. reflexivity.
Qed.

Lemma visualize_trend_returns (trend_data : list Qc) :
  exists lines, FetchPlotRun.visualize_trend trend_data 3 3 = Ok lines.
Proof.
  unfold FetchPlotRun.visualize_trend.
  rewrite rolling_mean_ok by lia. cbn [bind].
  destruct (ewm_mean_finite trend_data 3) as (ema & E & _); [lia|].
  unfold FetchPlot.calculate_ema. rewrite E. cbn [bind].
  eexists. reflexivity.
Qed.

Lemma get_timeframe_20 (today : Z) :
  Date.valid today -> (20 < today)%Z ->
  exists timeframe, FetchPlot.get_timeframe today 20 = Ok timeframe.
Proof.
  intros Hv H. rewrite get_timeframe_returns by (try exact Hv; lia).
  eexists. reflexivity.
Qed.

(** X9.  The example run of the function-based script, on every table the
    download may return with the column of the search term: an empty table
    is reported as such and nothing is raised; on a table with rows the
    run raises nothing either and prints Neutral as the sentiment of the
    trend, whatever the values are, beside the percentage and its
    sentiment. *)
Theorem main_prints_neutral :
  forall (today : Date.date) (trend_df : FetchPlotOOP.DataFrame),
    Date.valid today ->
    (20 < today)%Z ->
    (FetchPlotRun.empty trend_df = true ->
     FetchPlotRun.main today trend_df = Ok FetchPlotRun.NoTrendData)
    /\ (forall col,
           FetchPlotRun.empty trend_df = false ->
           FetchPlotOOP.getitem trend_df "Tesla stock" = Ok col ->
           col <> [] ->
           exists ps,
             FetchPlot.percentage_trend_analysis col = Ok ps
             /\ FetchPlotRun.main today trend_df
                = Ok (FetchPlotRun.Report "Neutral" (fst ps) (snd ps))).
Proof.
  intros today trend_df Hv H20.
  destruct (get_timeframe_20 today Hv H20) as [tf Htf].
  unfold FetchPlotRun.main. rewrite Htf. cbn [bind]. split.
  - intros ->. reflexivity.
  - intros col -> Hcol Hne. rewrite Hcol. cbn [bind].
    rewrite trend_analysis_always_neutral by (try exact Hne; lia).
    cbn [bind].
    destruct (percentage_trend_analysis_returns col Hne) as [ps Hps].
    rewrite Hps. cbn [bind].
    destruct (visualize_trend_returns col) as [lines Hl].
    rewrite Hl. cbn [bind]. exists ps. split; reflexivity.
Qed.

(** A rising series on 2026-11-03. *)
Lemma main_prints_neutral_witness :
  exists ps,
    FetchPlotRun.main 739923%Z [("Tesla stock"%string, series_1_to_5)]
    = Ok (FetchPlotRun.Report "Neutral" (fst ps) (snd ps)).
Proof.
  destruct (proj2 (main_prints_neutral 739923%Z
                     [("Tesla stock"%string, series_1_to_5)]
                     ltac:(unfold Date.valid, Date.MAXORDINAL; lia)
                     ltac:(lia))
                  series_1_to_5 eq_refl eq_refl ltac:(discriminate))
    as (ps & _ & H).
  exists ps. exact H.
Defined.

(** X10.  The example run of the class-based script does not look at the
    table before the analyses: on a download without the column of the
    search term, the empty table among them, it stops with [KeyError]; on
    a column of fewer than three rows it stops with [IndexError]; from
    three rows on it prints a sentiment of the trend and the percentage. *)
Theorem main_oop_unguarded :
  forall (today : Date.date) (downloaded : FetchPlotOOP.DataFrame),
    Date.valid today ->
    (20 < today)%Z ->
    (FetchPlotOOP.getitem downloaded "Tesla stock" = Raise KeyError ->
     FetchPlotRun.main_oop today downloaded = Raise KeyError)
    /\ (forall col,
           FetchPlotOOP.getitem downloaded "Tesla stock" = Ok col ->
           ((List.length col < 3)%nat ->
            FetchPlotRun.main_oop today downloaded = Raise IndexError)
           /\ ((3 <= List.length col)%nat ->
               exists sentiment ps,
                 FetchPlotRun.main_oop today downloaded
                 = Ok (FetchPlotRun.Report sentiment (fst ps) (snd ps)))).
Proof.
  intros today downloaded Hv H20.
  destruct (get_timeframe_20 today Hv H20) as [tf Htf].
  unfold FetchPlotRun.main_oop.
  change (FetchPlotOOP.get_timeframe today 20)
    with (FetchPlot.get_timeframe today 20).
  rewrite Htf. cbn [bind].
  set (obj := {| FetchPlotOOP.search_term := "Tesla stock";
                 FetchPlotOOP.timeframe := tf;
                 FetchPlotOOP.geo := "";
                 FetchPlotOOP.gprop := "";
                 FetchPlotOOP.trend_data := Some downloaded |}).
  split.
  - intros H. unfold FetchPlotOOP.trend_analysis.
    unfold FetchPlotOOP.term_column at 1. cbn [FetchPlotOOP.trend_data obj FetchPlotOOP.search_term].
    rewrite H. reflexivity.
  - intros col H.
    assert (Hc : FetchPlotOOP.term_column obj = Ok col) by exact H.
    destruct (class_trend_analysis_on_column obj col 3 Hc) as (_ & HI & HO).
    split.
    + intros Hl. rewrite HI by lia. reflexivity.
    + intros Hl. destruct HO as (s & Hs & _); [lia|]. rewrite Hs. cbn [bind].
      rewrite (percentage_trend_analysis_oop obj col Hc).
      destruct (percentage_trend_analysis_returns col) as [ps Hps].
      { destruct col; [cbn in Hl; lia | discriminate]. }
      rewrite Hps. cbn [bind]. exists s, ps. reflexivity.
Qed.

(** The empty table on 2026-11-03. *)
Lemma main_oop_unguarded_witness :
  FetchPlotRun.main_oop 739923%Z [] = Raise KeyError.
Proof.
  apply (proj1 (main_oop_unguarded 739923%Z []
                  ltac:(unfold Date.valid, Date.MAXORDINAL; lia) ltac:(lia))).
  reflexivity.
Defined.

End ExampleRuns.

(* ================================================================== *)
(** * The domain of the timeframe and its reading back *)

Section TimeframeCodec.

Open Scope Z_scope.

Lemma get_timeframe_any_sign (today n : Z) :
  Date.valid (today - n) ->
  Date.valid today ->
  FetchPlot.get_timeframe today n
  = Ok (Date.strftime_Ymd (today - n) ++ " " ++ Date.strftime_Ymd today)%string.
Proof.
  unfold Date.valid, Date.MAXORDINAL. intros Hf Ht.
  unfold FetchPlot.get_timeframe, Date.timedelta, Date.sub, Date.MAXORDINAL.
  replace (Z.abs n <=? 999999999) with true by (symmetry; apply Z.leb_le; lia).
  cbn [bind].
  replace (0 <? today + - n) with true by (symmetry; apply Z.ltb_lt; lia).
  replace (today + - n <=? 3652059) with true by (symmetry; apply Z.leb_le; lia).
  cbn [andb bind]. replace (today + - n) with (today - n) by lia. reflexivity.
Qed.

Lemma get_timeframe_out_of_range (today n : Z) :
  Date.valid today ->
  ~ Date.valid (today - n) ->
  FetchPlot.get_timeframe today n = Raise OverflowError.
Proof.
  unfold Date.valid, Date.MAXORDINAL. intros Ht Hf.
  unfold FetchPlot.get_timeframe, Date.timedelta, Date.sub, Date.MAXORDINAL.
  destruct (Z.abs n <=? 999999999) eqn:E; [|reflexivity].
  cbn [bind].
  destruct ((0 <? today + - n) && (today + - n <=? 3652059)) eqn:E2;
    [|reflexivity].
  apply andb_prop in E2. destruct E2 as [E2 E3].
  apply Z.ltb_lt in E2. apply Z.leb_le in E3. exfalso. apply Hf. lia.
Qed.

(** X11.  [get_timeframe], in both scripts, raises [OverflowError] exactly
    when the day [n] days before today is not a date from 0001-01-01 to
    9999-12-31, and returns the two dates otherwise; for a negative [n]
    the first date of the string is the later one. *)
Theorem get_timeframe_domain :
  forall today n : Z,
    Date.valid today ->
    FetchPlotOOP.get_timeframe today n = FetchPlot.get_timeframe today n
    /\ (~ Date.valid (today - n) ->
        FetchPlot.get_timeframe today n = Raise OverflowError)
    /\ (Date.valid (today - n) ->
        FetchPlot.get_timeframe today n
        = Ok (Date.strftime_Ymd (today - n) ++ " "
              ++ Date.strftime_Ymd today)%string
        /\ (n < 0 -> today < today - n)).
Proof.
  intros today n Ht. split; [reflexivity|]. split.
  - intros Hf. apply get_timeframe_out_of_range; assumption.
  - intros Hf. split; [apply get_timeframe_any_sign; assumption | lia].
Qed.

(** Two days ahead of 2026-11-03. *)
Lemma get_timeframe_domain_witness :
  FetchPlot.get_timeframe 739923 (-2) = Ok "2026-11-05 2026-11-03"%string.
Proof.
  refine (proj1 (proj2 (proj2 (get_timeframe_domain 739923 (-2) _)) _)).
  - unfold Date.valid, Date.MAXORDINAL. lia.
  - unfold Date.valid, Date.MAXORDINAL. lia.
Defined.

Lemma string_append_assoc (a b c : string) :
  ((a ++ b) ++ c = a ++ b ++ c)%string.
Proof.
  induction a as [|x a IH]; [reflexivity|].
  cbn [String.append]. f_equal. exact IH.
Qed.

Lemma string_append_empty (a : string) : (a ++ "" = a)%string.
Proof.
  induction a as [|x a IH]; [reflexivity|].
  cbn [String.append]. f_equal. exact IH.
Qed.

Lemma string_length_append (a b : string) :
  String.length (a ++ b) = (String.length a + String.length b)%nat.
Proof.
  induction a as [|x a IH]; [reflexivity|].
  cbn [String.append String.length]. rewrite IH. reflexivity.
Qed.

Lemma substring_prefix (a b : string) :
  substring 0 (String.length a) (a ++ b) = a.
Proof.
  induction a as [|c a IH]; cbn [String.length String.append substring].
  - destruct b; reflexivity.
  - f_equal. exact IH.
Qed.

Lemma substring_skip (a b : string) (n : nat) :
  substring (String.length a) n (a ++ b) = substring 0 n b.
Proof.
  induction a as [|c a IH]; cbn [String.length String.append substring];
    [reflexivity | exact IH].
Qed.

Lemma is_numeral_length (k : nat) (s : string) :
  Date.is_numeral k s = true -> String.length s = k.
Proof.
  unfold Date.is_numeral. intros H. apply andb_prop in H.
  destruct H as [H _]. apply Nat.eqb_eq in H. exact H.
Qed.

Lemma numeral_reads_back (k : nat) (hi n : Z) :
  forallb (DateCodec.reads_back k)
    (map (fun i => 1 + Z.of_nat i) (seq 0 (Z.to_nat hi))) = true ->
  1 <= n <= hi ->
  Date.is_numeral k (Date.zfill k (Date.str n)) = true
  /\ DateCodec.number 0 (Date.zfill k (Date.str n)) = n.
Proof.
  intros H Hn.
  assert (R : DateCodec.reads_back k n = true).
  { apply (forallb_range (DateCodec.reads_back k) 1 (Z.to_nat hi) H). lia. }
  unfold DateCodec.reads_back in R. apply andb_prop in R.
  destruct R as [R1 R2]. apply Z.eqb_eq in R2. split; assumption.
Qed.

Lemma zfill_year (y : Z) :
  1000 <= y <= 9999 -> Date.zfill 4 (Date.str y) = Date.str y.
Proof.
  intros H. pose proof (year_numeral y H) as N.
  apply is_numeral_length in N. unfold Date.zfill. rewrite N. reflexivity.
Qed.

(** The three fields of a printed date are those of the date, from the
    year 1000 on. *)
Lemma fields_strftime (d : Date.date) :
  Date.valid d -> Date.YEAR_1000 <= d ->
  DateCodec.fields (Date.strftime_Ymd d) = Date.ord2ymd d.
Proof.
  intros Hd H1000. pose proof (ord2ymd_bounds d Hd) as B.
  pose proof (ord2ymd_year d Hd) as Y1.
  unfold Date.strftime_Ymd.
  destruct (Date.ord2ymd d) as [[y m] dd].
  destruct B as [By [Bm Bd]]. destruct Y1 as [Y1 _]. specialize (Y1 H1000).
  destruct (numeral_reads_back 4 9999 y) as [Ny Ry];
    [vm_compute; reflexivity | lia |].
  rewrite zfill_year in Ny, Ry by lia.
  destruct (numeral_reads_back 2 31 m) as [Nm Rm];
    [vm_compute; reflexivity | lia |].
  destruct (numeral_reads_back 2 31 dd) as [Nd Rd];
    [vm_compute; reflexivity | lia |].
  apply is_numeral_length in Ny, Nm, Nd.
  set (Y := Date.str y) in *.
  set (M := Date.zfill 2 (Date.str m)) in *.
  set (D := Date.zfill 2 (Date.str dd)) in *.
  unfold DateCodec.fields.
  assert (E1 : substring 0 4 (Y ++ "-" ++ M ++ "-" ++ D) = Y).
  { rewrite <- Ny at 1. apply substring_prefix. }
  assert (E2 : substring 5 2 (Y ++ "-" ++ M ++ "-" ++ D) = M).
  { replace (Y ++ "-" ++ M ++ "-" ++ D)%string
      with ((Y ++ "-") ++ M ++ "-" ++ D)%string
      by (rewrite !string_append_assoc; reflexivity).
    replace 5%nat with (String.length (Y ++ "-")) at 1
      by (rewrite string_length_append, Ny; reflexivity).
    rewrite substring_skip. rewrite <- Nm at 1. apply substring_prefix. }
  assert (E3 : substring 8 2 (Y ++ "-" ++ M ++ "-" ++ D) = D).
  { replace (Y ++ "-" ++ M ++ "-" ++ D)%string
      with ((Y ++ "-" ++ M ++ "-") ++ D ++ "")%string.
    - replace 8%nat with (String.length (Y ++ "-" ++ M ++ "-")) at 1
        by (rewrite !string_length_append, Ny, Nm; reflexivity).
      rewrite substring_skip. rewrite <- Nd at 1. rewrite substring_prefix.
      reflexivity.
    - rewrite !string_append_assoc, string_append_empty. reflexivity. }
  rewrite E1, E2, E3, Ry, Rm, Rd. reflexivity.
Qed.

Lemma decode_strftime (d : Date.date) :
  Date.valid d -> Date.YEAR_1000 <= d ->
  DateCodec.decode (Date.strftime_Ymd d) = d.
Proof.
  intros Hd H1000. unfold DateCodec.decode. rewrite (fields_strftime d Hd H1000).
  pose proof (ymd2ord_ord2ymd d Hd) as R.
  destruct (Date.ord2ymd d) as [[y m] dd]. exact R.
Qed.

(** A printed date has ten characters from the year 1000 on and fewer
    before. *)
Lemma strftime_length (d : Date.date) :
  Date.valid d ->
  (Date.YEAR_1000 <= d -> String.length (Date.strftime_Ymd d) = 10%nat)
  /\ (d < Date.YEAR_1000 -> (String.length (Date.strftime_Ymd d) < 10)%nat).
Proof.
  intros Hd. pose proof (ord2ymd_bounds d Hd) as B.
  pose proof (ord2ymd_year d Hd) as Y.
  unfold Date.strftime_Ymd.
  destruct (Date.ord2ymd d) as [[y m] dd].
  destruct B as [By [Bm Bd]]. destruct Y as [Y1 Y2].
  pose proof (is_numeral_length _ _ (month_day_numeral m ltac:(lia))) as Lm.
  pose proof (is_numeral_length _ _ (month_day_numeral dd ltac:(lia))) as Ld.
  rewrite !string_length_append, Lm, Ld.
  change (String.length "-") with 1%nat.
  split; intros H.
  - rewrite (is_numeral_length _ _ (year_numeral y ltac:(specialize (Y1 H); lia))).
    reflexivity.
  - pose proof (year_numeral_short y ltac:(specialize (Y2 H); lia)). lia.
Qed.

(** X12.  The timeframe string can be read back by position when both
    dates are of the year 1000 or later: the string has 21 characters, its
    first ten decode to the day [n] days before today and the ten after the
    blank decode to today, and no other date prints as the date of today.
    When one of the two dates is of a year before 1000 the string is
    shorter. *)
Theorem get_timeframe_round_trip :
  forall (today n : Z) (timeframe : string),
    Date.valid today ->
    FetchPlot.get_timeframe today n = Ok timeframe ->
    (Date.YEAR_1000 <= today -> Date.YEAR_1000 <= today - n ->
     String.length timeframe = 21%nat
     /\ DateCodec.decode (substring 0 10 timeframe) = today - n
     /\ substring 10 1 timeframe = " "%string
     /\ DateCodec.decode (substring 11 10 timeframe) = today
     /\ (forall d, Date.valid d ->
                   Date.strftime_Ymd d = substring 11 10 timeframe -> d = today))
    /\ (today < Date.YEAR_1000 \/ today - n < Date.YEAR_1000 ->
        (String.length timeframe < 21)%nat).
Proof.
  intros today n timeframe Ht H.
  assert (Hf : Date.valid (today - n)).
  { destruct (Z_le_dec 1 (today - n)) as [L|L];
      [destruct (Z_le_dec (today - n) Date.MAXORDINAL) as [U|U]|];
      [split; assumption | |];
      rewrite get_timeframe_out_of_range in H;
      try discriminate H; try exact Ht; unfold Date.valid; lia. }
  rewrite (get_timeframe_any_sign today n Hf Ht) in H. injection H as <-.
  destruct (strftime_length _ Hf) as [L1 S1].
  destruct (strftime_length _ Ht) as [L2 S2].
  set (a := Date.strftime_Ymd (today - n)) in *.
  set (b := Date.strftime_Ymd today) in *.
  change (a ++ String " "%char b)%string with (a ++ " " ++ b)%string.
  split.
  - intros Yt Yf. specialize (L1 Yf). specialize (L2 Yt).
    assert (E1 : substring 0 10 (a ++ " " ++ b) = a).
    { rewrite <- L1 at 1. apply substring_prefix. }
    assert (E2 : substring 10 1 (a ++ " " ++ b) = " "%string).
    { rewrite <- L1 at 1. rewrite substring_skip.
      destruct b; reflexivity. }
    assert (E3 : substring 11 10 (a ++ " " ++ b) = b).
    { replace (a ++ " " ++ b)%string with ((a ++ " ") ++ b ++ "")%string.
      - replace 11%nat with (String.length (a ++ " ")) at 1
          by (rewrite string_length_append, L1; reflexivity).
        rewrite substring_skip. rewrite <- L2 at 1. apply substring_prefix.
      - rewrite string_append_assoc, string_append_empty. reflexivity. }
    rewrite E1, E2, E3.
    split; [rewrite !string_length_append, L1, L2; reflexivity|].
    split; [apply decode_strftime; assumption|].
    split; [reflexivity|].
    split; [apply decode_strftime; assumption|].
    intros d Hd E.
    assert (Yd : Date.YEAR_1000 <= d).
    { destruct (Z_le_dec Date.YEAR_1000 d) as [Y|Y]; [exact Y|].
      destruct (strftime_length d Hd) as [_ Sd].
      specialize (Sd ltac:(lia)). rewrite E, L2 in Sd. lia. }
    rewrite <- (decode_strftime d Hd Yd), E.
    apply decode_strftime; assumption.
  - intros Y. rewrite !string_length_append.
    change (String.length " ") with 1%nat.
    assert (A : (String.length a <= 10)%nat).
    { destruct (Z_le_dec Date.YEAR_1000 (today - n)) as [Q|Q];
        [rewrite (L1 Q); lia | specialize (S1 ltac:(lia)); lia]. }
    assert (B : (String.length b <= 10)%nat).
    { destruct (Z_le_dec Date.YEAR_1000 today) as [Q|Q];
        [rewrite (L2 Q); lia | specialize (S2 ltac:(lia)); lia]. }
    destruct Y as [Y|Y]; [specialize (S2 Y) | specialize (S1 Y)]; lia.
Qed.

(** Twenty days back from 2026-11-03. *)
Lemma get_timeframe_round_trip_witness :
  DateCodec.decode (substring 0 10 "2026-10-14 2026-11-03") = 739923 - 20.
Proof.
  refine (proj1 (proj2 (proj1 (get_timeframe_round_trip 739923 20
                                 "2026-10-14 2026-11-03" _ _) _ _))).
  - unfold Date.valid, Date.MAXORDINAL. lia.
  - reflexivity.
  - apply Z.leb_le. reflexivity.
  - apply Z.leb_le. reflexivity.
Defined.

End TimeframeCodec.

(* ================================================================== *)
(** * Rows and order of the merged table *)

Section MergedRows.

Import Frames.

Open Scope Z_scope.



Lemma matches_at_most_one (d : Z) (trend : list TrendPctRow) :
  NoDup (map tp_date trend) ->
  (List.length (filter (fun t => (tp_date t =? d)%Z) trend) <= 1)%nat.
Proof.
  induction trend as [|t trend IH]; intros H; [cbn; lia|].
  cbn [map] in H. inversion H as [|? ? Hnot Hrest]; subst.
  cbn [filter]. destruct (tp_date t =? d) eqn:E.
  - apply Z.eqb_eq in E. cbn [List.length].
    assert (Z0 : filter (fun t0 => tp_date t0 =? d) trend = []).
    { destruct (filter (fun t0 => tp_date t0 =? d) trend) as [|u l] eqn:F;
        [reflexivity|].
      assert (Hu : In u (filter (fun t0 => tp_date t0 =? d) trend))
        by (rewrite F; left; reflexivity).
      apply filter_In in Hu. destruct Hu as [Hu Eu]. apply Z.eqb_eq in Eu.
      exfalso. apply Hnot. rewrite E, <- Eu. apply in_map. exact Hu. }
    rewrite Z0. cbn. lia.
  - apply IH. exact Hrest.
Qed.

Lemma merge_cons (s : StockRow) (stock : list StockRow) (trend : list TrendPctRow) :
  merge (s :: stock) trend
  = map (join_rows s) (filter (fun t => tp_date t =? s_Date s) trend)
    ++ merge stock trend.
Proof. reflexivity. Qed.

Lemma merge_dates (stock : list StockRow) (trend : list TrendPctRow) (r : MergedRow) :
  In r (merge stock trend) -> In (Date r) (map s_Date stock).
Proof.
  intros H. apply merge_In in H. destruct H as (s & t & Hs & _ & _ & ->).
  cbn [join_rows Date]. apply in_map. exact Hs.
Qed.

Lemma dates_after (d : Z) (l : list Z) (x : Z) :
  StronglySorted Z.lt (d :: l) -> In x l -> d < x.
Proof.
  intros H Hx. inversion H as [|? ? _ F]; subst.
  rewrite Forall_forall in F. apply F. exact Hx.
Qed.

Lemma merge_sorted (stock : list StockRow) (trend : list TrendPctRow) :
  NoDup (map tp_date trend) ->
  StronglySorted Z.lt (map s_Date stock) ->
  StronglySorted Z.lt (map Date (merge stock trend))
  /\ (List.length (merge stock trend) <= List.length stock)%nat.
Proof.
  intros Hn. induction stock as [|s stock IH]; intros Hs.
  - split; [constructor | cbn; lia].
  - cbn [map] in Hs. pose proof Hs as Hs'.
    inversion Hs as [|? ? Hrest Hall]; subst.
    destruct (IH Hrest) as [IHs IHl].
    rewrite merge_cons.
    pose proof (matches_at_most_one (s_Date s) trend Hn) as L.
    destruct (filter (fun t => tp_date t =? s_Date s) trend) as [|t [|u l]];
      cbn [List.length] in L; try lia.
    + cbn [map app]. split; [exact IHs | cbn [List.length]; lia].
    + cbn [map app join_rows Date List.length]. split; [|lia].
      constructor; [exact IHs|].
      apply Forall_forall. intros x Hx. apply in_map_iff in Hx.
      destruct Hx as (r & <- & Hr). apply merge_dates in Hr.
      exact (dates_after _ _ _ Hs' Hr).
Qed.

Lemma filter_sorted (f : MergedRow -> bool) (df : list MergedRow) :
  StronglySorted Z.lt (map Date df) ->
  StronglySorted Z.lt (map Date (filter f df)).
Proof.
  induction df as [|r df IH]; intros H; [constructor|].
  cbn [map] in H. inversion H as [|? ? Hrest Hall]; subst.
  cbn [filter]. destruct (f r); [|exact (IH Hrest)].
  cbn [map]. constructor; [exact (IH Hrest)|].
  apply Forall_forall. intros x Hx. apply in_map_iff in Hx.
  destruct Hx as (r' & <- & Hr'). apply filter_In in Hr'.
  rewrite Forall_forall in Hall. apply Hall. apply in_map. exact (proj1 Hr').
Qed.

Lemma filter_length (A : Type) (f : A -> bool) (l : list A) :
  (List.length (filter f l) <= List.length l)%nat.
Proof.
  induction l as [|a l IH]; [cbn; lia|].
  cbn [filter]. destruct (f a); cbn [List.length]; lia.
Qed.



End MergedRows.

(* ================================================================== *)
(** * The first day of the interest table *)

Section FirstDay.

Import Frames.

Open Scope Z_scope.

(** X15.  When no date occurs twice in the interest table, the first of
    its days never reaches the merged table of the example runs: its
    percentage is missing and the row is dropped, also when the price
    table has that day. *)
Theorem first_interest_day_dropped :
  forall (first : TrendRow) (rest : list TrendRow) (stock : list StockRow)
         (merged : list MergedRow),
    NoDup (map tr_date (first :: rest)) ->
    Merge.main (first :: rest) stock = Ok merged ->
    MergeOOP.main (first :: rest) stock = Ok merged
    /\ forall r, In r merged -> Date r <> tr_date first.
Proof.
  intros first rest stock merged Hn H. split; [exact H|].
  unfold Merge.main, Merge.align_data in H. injection H as <-.
  intros r Hr. apply dropna_In in Hr. destruct Hr as [Hr Hna].
  apply merge_In in Hr. destruct Hr as (s & t & Hs & Ht & E & ->).
  cbn [join_rows Date].
  assert (Hp : isna (tp_Trend_Percentage t) = false).
  { unfold row_has_na in Hna. cbn [join_rows Trend_Percentage] in Hna.
    repeat (apply orb_false_elim in Hna; destruct Hna as [Hna ?]).
    assumption. }
  apply In_nth_error in Ht. destruct Ht as [k Hk].
  destruct (calculate_trend_percentage_nth (first :: rest) k t Hk)
    as (row & H1 & H2 & _ & _ & H5).
  destruct k as [|k].
  - rewrite H5 in Hp. discriminate Hp.
  - cbn [nth_error] in H1. apply nth_error_In in H1.
    cbn [map] in Hn. inversion Hn as [|? ? Hnot _]; subst.
    rewrite <- E, H2. intro X. apply Hnot. rewrite <- X.
    apply in_map. exact H1.
Qed.

(** Interest of the days 1, 2, 3 and prices of the days 1 and 3: the day 1
    is in both tables and not in the result. *)
Lemma first_interest_day_dropped_witness :
  exists merged,
    Merge.main trend_3 stock_1_3 = Ok merged
    /\ Forall (fun r => Date r <> 1) merged.
Proof.
  eexists. split; [reflexivity|]. apply Forall_forall.
  refine (proj2 (first_interest_day_dropped
                   {| tr_date := 1; tr_Tesla_stock := 10; tr_isPartial := false |}
                   (tl trend_3) stock_1_3 _ _ eq_refl)).
  cbn. repeat constructor; cbn; intuition lia.
Defined.

End FirstDay.

(* ================================================================== *)
(** * The range of the scaled volume *)

Section VolumeRange.

Import Frames.

Open Scope Qc_scope.

Lemma Qc_ltb_ge (a b : Qc) : Qc_ltb a b = false <-> b <= a.
Proof.
  split; intros H.
  - apply Qcnot_lt_le. intro L. apply Qc_ltb_lt in L. congruence.
  - destruct (Qc_ltb a b) eqn:E; [|reflexivity].
    apply Qc_ltb_lt in E. exfalso. exact (Qcle_not_lt _ _ H E).
Qed.

(** What is not below a value is not below a smaller one. *)
Lemma xlt_below (x y m : xnum) :
  xlt x m = true -> xlt y m = false -> isna y = false -> xlt y x = false.
Proof.
  destruct x as [a| | |], y as [b| | |], m as [c| | |];
    cbn [xlt isna]; intros H1 H2 H3; try discriminate; try reflexivity.
  apply Qc_ltb_lt in H1. apply Qc_ltb_ge in H2. apply Qc_ltb_ge.
  apply Qclt_le_weak. exact (Qclt_le_trans _ _ _ H1 H2).
Qed.

Lemma xlt_above (x y m : xnum) :
  xlt m x = true -> xlt m y = false -> isna y = false -> xlt x y = false.
Proof.
  destruct x as [a| | |], y as [b| | |], m as [c| | |];
    cbn [xlt isna]; intros H1 H2 H3; try discriminate; try reflexivity.
  apply Qc_ltb_lt in H1. apply Qc_ltb_ge in H2. apply Qc_ltb_ge.
  apply Qclt_le_weak. exact (Qcle_lt_trans _ _ _ H2 H1).
Qed.

Lemma xlt_irrefl (x : xnum) : xlt x x = false.
Proof. destruct x; cbn [xlt]; try reflexivity. apply Qc_ltb_irrefl. Qed.

(** No value of the column is below its minimum. *)
Lemma col_min_lower (col : list xnum) (y : xnum) :
  In y col -> isna y = false ->
  isna (col_min col) = false /\ xlt y (col_min col) = false.
Proof.
  induction col as [|x col IH]; intros Hy Hna; [destruct Hy|].
  cbn [col_min]. destruct (isna x) eqn:Ex.
  - destruct Hy as [-> | Hy]; [congruence | exact (IH Hy Hna)].
  - destruct (isna (col_min col)) eqn:Em.
    + destruct Hy as [-> | Hy].
      * split; [exact Ex | apply xlt_irrefl].
      * destruct (IH Hy Hna) as [C _]. congruence.
    + destruct (xlt x (col_min col)) eqn:El.
      * destruct Hy as [-> | Hy]; [split; [exact Ex | apply xlt_irrefl]|].
        split; [exact Ex|].
        destruct (IH Hy Hna) as [_ B]. exact (xlt_below _ _ _ El B Hna).
      * destruct Hy as [-> | Hy]; [split; [exact Em | exact El]|].
        split; [exact Em | exact (proj2 (IH Hy Hna))].
Qed.

Lemma col_max_upper (col : list xnum) (y : xnum) :
  In y col -> isna y = false ->
  isna (col_max col) = false /\ xlt (col_max col) y = false.
Proof.
  induction col as [|x col IH]; intros Hy Hna; [destruct Hy|].
  cbn [col_max]. destruct (isna x) eqn:Ex.
  - destruct Hy as [-> | Hy]; [congruence | exact (IH Hy Hna)].
  - destruct (isna (col_max col)) eqn:Em.
    + destruct Hy as [-> | Hy].
      * split; [exact Ex | apply xlt_irrefl].
      * destruct (IH Hy Hna) as [C _]. congruence.
    + destruct (xlt (col_max col) x) eqn:El.
      * destruct Hy as [-> | Hy]; [split; [exact Ex | apply xlt_irrefl]|].
        split; [exact Ex|].
        destruct (IH Hy Hna) as [_ B]. exact (xlt_above _ _ _ El B Hna).
      * destruct Hy as [-> | Hy]; [split; [exact Em | exact El]|].
        split; [exact Em | exact (proj2 (IH Hy Hna))].
Qed.

(** A column with a finite minimum and a finite maximum: its values are
    missing or finite, and the finite ones lie between the two. *)
Lemma between_min_max (col : list xnum) (mn mx : Qc) (y : xnum) :
  col_min col = Fin mn -> col_max col = Fin mx -> In y col ->
  y = NaN \/ exists v, y = Fin v /\ mn <= v <= mx.
Proof.
  intros Hmin Hmax Hy. destruct y as [v| | |].
  - right. exists v. split; [reflexivity|].
    destruct (col_min_lower col (Fin v) Hy eq_refl) as [_ L].
    destruct (col_max_upper col (Fin v) Hy eq_refl) as [_ U].
    rewrite Hmin in L. rewrite Hmax in U. cbn [xlt] in L, U.
    split; apply Qc_ltb_ge; assumption.
  - apply col_max_PInf in Hy. congruence.
  - apply col_min_NInf in Hy. congruence.
  - left. reflexivity.
Qed.

(** The scaling of one finite value between a minimum and a greater
    maximum. *)
Lemma scale_between (mn mx v : Qc) :
  mn < mx -> mn <= v <= mx ->
  exists q,
    xmul (xdiv (xsub (Fin v) (Fin mn)) (xsub (Fin mx) (Fin mn))) (Fin (qz 100))
    = Fin q
    /\ 0 <= q <= qz 100
    /\ (v = mn -> q = 0)
    /\ (v = mx -> q = qz 100).
Proof.
  intros Hlt [Hl Hu]. unfold xsub. cbn [xneg xadd xdiv].
  assert (Hd : mx + - mn <> 0).
  { intro E. apply (proj1 (Qcminus_zero mx mn)) in E.
    exact (Qclt_not_eq _ _ Hlt (eq_sym E)). }
  apply Qc_eqb_neq in Hd as Hd'. rewrite Hd'. cbn [xmul].
  eexists. split; [reflexivity|]. split; [|split].
  - unfold Qcle, Qclt in *. rewrite this_mult, this_div, !this_plus, !this_opp.
    change (this 0) with 0%Q. change (this (qz 100)) with 100%Q.
    assert (P : (0 < this mx + - this mn)%Q) by Lqa.lra.
    assert (T0 : (0 <= (this v + - this mn) / (this mx + - this mn))%Q).
    { apply Qle_shift_div_l; [exact P | Lqa.lra]. }
    assert (T1 : ((this v + - this mn) / (this mx + - this mn) <= 1)%Q).
    { apply Qle_shift_div_r; [exact P | Lqa.lra]. }
    split; Lqa.lra.
  - intros ->. field. exact Hd.
  - intros ->. field. exact Hd.
Qed.

(** The scaled value of one cell of such a column. *)
Lemma scale_cell (col : list xnum) (mn mx : Qc) (x : xnum) :
  col_min col = Fin mn -> col_max col = Fin mx -> mn < mx -> In x col ->
  let y := xmul (xdiv (xsub x (Fin mn)) (xsub (Fin mx) (Fin mn))) (Fin (qz 100)) in
  (x = NaN /\ y = NaN)
  \/ exists v q,
      x = Fin v /\ y = Fin q
      /\ 0 <= q <= qz 100
      /\ (v = mn -> q = 0)
      /\ (v = mx -> q = qz 100).
Proof.
  intros Hmin Hmax Hlt Hx y.
  destruct (between_min_max col mn mx x Hmin Hmax Hx) as [N | (v & Ev & B)].
  - left. subst y. rewrite N. split; reflexivity.
  - right. subst y. rewrite Ev.
    destruct (scale_between mn mx v Hlt B) as (q & Eq & Bq & Z0 & Z1).
    exists v, q. repeat split; try assumption; apply Bq.
Qed.

(** On a column whose minimum is its maximum every cell scales to NaN. *)
Lemma scale_constant (col : list xnum) (c : Qc) (x : xnum) :
  col_min col = Fin c -> col_max col = Fin c -> In x col ->
  xmul (xdiv (xsub x (Fin c)) (xsub (Fin c) (Fin c))) (Fin (qz 100)) = NaN.
Proof.
  intros Hmin Hmax Hx.
  destruct (between_min_max col c c x Hmin Hmax Hx) as [N | (v & Ev & [L U])].
  - rewrite N. reflexivity.
  - assert (E : v = c) by (apply Qcle_antisym; assumption).
    rewrite Ev, E. unfold xsub. cbn [xneg xadd xdiv].
    replace (c + - c) with 0 by ring.
    reflexivity.
Qed.

(** X16.  On a table whose volume column has a finite minimum and a
    greater finite maximum, [normalize_volume] (the method on the merged
    table and the function on the price table) gives every row with a
    volume a value from 0 to 100, 0 to the rows of the minimum and 100 to
    the rows of the maximum; a row without a volume gets no value. *)
Theorem normalize_volume_range :
  forall mn mx : Qc,
    mn < mx ->
    (forall merged_data : list MergedRow,
        col_min (map Volume merged_data) = Fin mn ->
        col_max (map Volume merged_data) = Fin mx ->
        forall r y,
          In (r, y) (MergeOOP.normalize_volume merged_data) ->
          (Volume r = NaN /\ y = NaN)
          \/ exists v q,
              Volume r = Fin v /\ y = Fin q
              /\ 0 <= q <= qz 100
              /\ (v = mn -> q = 0)
              /\ (v = mx -> q = qz 100))
    /\ (forall stock_data : list StockRow,
           col_min (map s_Volume stock_data) = Fin mn ->
           col_max (map s_Volume stock_data) = Fin mx ->
           forall r y,
             In (r, y) (Merge.normalize_volume stock_data) ->
             (s_Volume r = NaN /\ y = NaN)
             \/ exists v q,
                 s_Volume r = Fin v /\ y = Fin q
                 /\ 0 <= q <= qz 100
                 /\ (v = mn -> q = 0)
                 /\ (v = mx -> q = qz 100)).
Proof.
  intros mn mx Hlt. split.
  - intros merged_data Hmin Hmax r y H.
    unfold MergeOOP.normalize_volume in H. rewrite Hmin, Hmax in H.
    apply in_map_iff in H. destruct H as (r' & E & Hr). injection E as -> <-.
    exact (scale_cell _ mn mx (Volume r) Hmin Hmax Hlt (in_map Volume _ _ Hr)).
  - intros stock_data Hmin Hmax r y H.
    unfold Merge.normalize_volume in H. rewrite Hmin, Hmax in H.
    apply in_map_iff in H. destruct H as (r' & E & Hr). injection E as -> <-.
    exact (scale_cell _ mn mx (s_Volume r) Hmin Hmax Hlt
             (in_map s_Volume _ _ Hr)).
Qed.

(** Bars with the volumes 1000 and 3000. *)
Lemma normalize_volume_range_witness :
  Forall (fun ry =>
            (s_Volume (fst ry) = NaN /\ snd ry = NaN)
            \/ exists v q,
                s_Volume (fst ry) = Fin v /\ snd ry = Fin q
                /\ 0 <= q <= qz 100
                /\ (v = qz 1000 -> q = 0)
                /\ (v = qz 3000 -> q = qz 100))
         (Merge.normalize_volume stock_1_3).
Proof.
  apply Forall_forall. intros [r y] H.
  exact (proj2 (normalize_volume_range (qz 1000) (qz 3000) eq_refl)
           stock_1_3 eq_refl eq_refl r y H).
Defined.

(** X17.  On a table whose volume column has its minimum equal to its
    maximum (one row, or the same volume on every row) the scaling divides
    0 by 0: [normalize_volume] raises nothing and gives every row NaN. *)
Theorem normalize_volume_constant :
  forall c : Qc,
    (forall merged_data : list MergedRow,
        col_min (map Volume merged_data) = Fin c ->
        col_max (map Volume merged_data) = Fin c ->
        forall r y,
          In (r, y) (MergeOOP.normalize_volume merged_data) -> y = NaN)
    /\ (forall stock_data : list StockRow,
           col_min (map s_Volume stock_data) = Fin c ->
           col_max (map s_Volume stock_data) = Fin c ->
           forall r y,
             In (r, y) (Merge.normalize_volume stock_data) -> y = NaN).
Proof.
  intros c. split.
  - intros merged_data Hmin Hmax r y H.
    unfold MergeOOP.normalize_volume in H. rewrite Hmin, Hmax in H.
    apply in_map_iff in H. destruct H as (r' & E & Hr). injection E as -> <-.
    exact (scale_constant _ c (Volume r) Hmin Hmax (in_map Volume _ _ Hr)).
  - intros stock_data Hmin Hmax r y H.
    unfold Merge.normalize_volume in H. rewrite Hmin, Hmax in H.
    apply in_map_iff in H. destruct H as (r' & E & Hr). injection E as -> <-.
    exact (scale_constant _ c (s_Volume r) Hmin Hmax (in_map s_Volume _ _ Hr)).
Qed.

(** One bar. *)
Lemma normalize_volume_constant_witness :
  Forall (fun ry => snd ry = NaN) (Merge.normalize_volume [bar 1 1000]).
Proof.
  apply Forall_forall. intros [r y] H.
  exact (proj2 (normalize_volume_constant (qz 1000)) [bar 1 1000]
           eq_refl eq_refl r y H).
Defined.

End VolumeRange.

(* ================================================================== *)
(** * The bounds of the correlation *)

Section CorrelationBounds.

Import Frames.

Open Scope R_scope.

(** The inequality of Cauchy and Schwarz, one pair more at a time. *)
Lemma cauchy_step (A B C a b : R) :
  0 <= A -> 0 <= B -> C * C <= A * B ->
  (C + a * b) * (C + a * b) <= (A + a * a) * (B + b * b).
Proof.
  intros HA HB HC.
  set (P := A * (b * b) + B * (a * a)).
  set (T := 2 * (C * (a * b))).
  assert (HP : 0 <= P).
  { unfold P. pose proof (Rle_0_sqr a) as Ha. pose proof (Rle_0_sqr b) as Hb.
    unfold Rsqr in Ha, Hb.
    apply Rplus_le_le_0_compat; apply Rmult_le_pos; assumption. }
  assert (HPT : T * T <= P * P).
  { assert (E : P * P - T * T
                = (A * (b * b) - B * (a * a)) * (A * (b * b) - B * (a * a))
                  + 4 * ((a * b) * (a * b)) * (A * B - C * C)).
    { unfold P, T. ring. }
    pose proof (Rle_0_sqr (A * (b * b) - B * (a * a))) as H1.
    pose proof (Rle_0_sqr (a * b)) as H2. unfold Rsqr in H1, H2.
    assert (H3 : 0 <= 4 * ((a * b) * (a * b)) * (A * B - C * C)).
    { apply Rmult_le_pos; [Lra.lra | Lra.lra]. }
    Lra.lra. }
  assert (HT : T <= P).
  { destruct (Rle_lt_dec T P) as [L|G]; [exact L|].
    exfalso.
    assert (G2 : P * P < T * T).
    { apply Rle_lt_trans with (P * T).
      - apply Rmult_le_compat_l; [exact HP | Lra.lra].
      - apply Rmult_lt_compat_r; Lra.lra. }
    Lra.lra. }
  replace ((C + a * b) * (C + a * b)) with (C * C + T + (a * b) * (a * b))
    by (unfold T; ring).
  replace ((A + a * a) * (B + b * b)) with (A * B + P + (a * b) * (a * b))
    by (unfold P; ring).
  Lra.lra.
Qed.

Lemma cauchy_schwarz (mx my : R) (ps : list (R * R)) :
  let C := Corr.rsum (map (fun p => (fst p - mx) * (snd p - my)) ps) in
  let A := Corr.rsum (map (fun p => (fst p - mx) * (fst p - mx)) ps) in
  let B := Corr.rsum (map (fun p => (snd p - my) * (snd p - my)) ps) in
  0 <= A /\ 0 <= B /\ C * C <= A * B.
Proof.
  induction ps as [|p ps IH]; cbn [map Corr.rsum fold_right].
  - repeat split; Lra.lra.
  - cbv zeta in IH. destruct IH as (HA & HB & HC).
    fold (Corr.rsum (map (fun p => (fst p - mx) * (snd p - my)) ps)).
    fold (Corr.rsum (map (fun p => (fst p - mx) * (fst p - mx)) ps)).
    fold (Corr.rsum (map (fun p => (snd p - my) * (snd p - my)) ps)).
    set (C := Corr.rsum (map (fun p => (fst p - mx) * (snd p - my)) ps)) in *.
    set (A := Corr.rsum (map (fun p => (fst p - mx) * (fst p - mx)) ps)) in *.
    set (B := Corr.rsum (map (fun p => (snd p - my) * (snd p - my)) ps)) in *.
    pose proof (Rle_0_sqr (fst p - mx)) as Ha.
    pose proof (Rle_0_sqr (snd p - my)) as Hb. unfold Rsqr in Ha, Hb.
    split; [Lra.lra|]. split; [Lra.lra|].
    pose proof (cauchy_step A B C (fst p - mx) (snd p - my) HA HB HC) as S.
    Lra.lra.
Qed.

(** A quotient by the root of a product that bounds the square of the
    numerator lies between -1 and 1. *)
Lemma quotient_bounded (A B C : R) :
  0 <= A -> 0 <= B -> C * C <= A * B -> sqrt (A * B) <> 0 ->
  -1 <= C / sqrt (A * B) <= 1.
Proof.
  intros HA HB HC Hd.
  assert (HAB : 0 <= A * B) by (apply Rmult_le_pos; assumption).
  set (D := sqrt (A * B)) in *.
  assert (D0 : 0 < D).
  { pose proof (sqrt_pos (A * B)) as P. fold D in P. Lra.lra. }
  assert (DD : D * D = A * B) by (apply sqrt_sqrt; exact HAB).
  assert (U : C <= D).
  { destruct (Rle_lt_dec C D) as [L|G]; [exact L|]. exfalso.
    assert (D * D < C * C).
    { apply Rle_lt_trans with (D * C).
      - apply Rmult_le_compat_l; Lra.lra.
      - apply Rmult_lt_compat_r; Lra.lra. }
    Lra.lra. }
  assert (L : - D <= C).
  { destruct (Rle_lt_dec (- D) C) as [L|G]; [exact L|]. exfalso.
    assert (D * D < (- C) * (- C)).
    { apply Rle_lt_trans with (D * (- C)).
      - apply Rmult_le_compat_l; Lra.lra.
      - apply Rmult_lt_compat_r; Lra.lra. }
    Lra.lra. }
  split.
  - apply Rmult_le_reg_r with D; [exact D0|].
    unfold Rdiv. rewrite Rmult_assoc, Rinv_l by Lra.lra. Lra.lra.
  - apply Rmult_le_reg_r with D; [exact D0|].
    unfold Rdiv. rewrite Rmult_assoc, Rinv_l by Lra.lra. Lra.lra.
Qed.

Lemma pearson_bounded (x y : list xnum) (r : R) :
  Corr.pearson x y = Some r -> -1 <= r <= 1.
Proof.
  unfold Corr.pearson.
  destruct (Corr.complete_pairs x y) as [|p ps]; [discriminate|].
  set (l := p :: ps).
  set (mx := Corr.mean (map fst l)). set (my := Corr.mean (map snd l)).
  assert (EA : Corr.codeviation (map (fun p => (fst p, fst p)) l)
               = Corr.rsum (map (fun p => (fst p - mx) * (fst p - mx)) l)).
  { unfold Corr.codeviation. rewrite !map_map. cbn [fst snd]. reflexivity. }
  assert (EB : Corr.codeviation (map (fun p => (snd p, snd p)) l)
               = Corr.rsum (map (fun p => (snd p - my) * (snd p - my)) l)).
  { unfold Corr.codeviation. rewrite !map_map. cbn [fst snd]. reflexivity. }
  assert (EC : Corr.codeviation l
               = Corr.rsum (map (fun p => (fst p - mx) * (snd p - my)) l)).
  { reflexivity. }
  rewrite EA, EB, EC.
  destruct (cauchy_schwarz mx my l) as (HA & HB & HC).
  destruct (Req_dec_T _ 0) as [E|E]; [discriminate|].
  intros H. injection H as <-.
  apply quotient_bounded; assumption.
Qed.



End CorrelationBounds.

(* ================================================================== *)
(** * The correlation of the volume with its scaling *)

Section VolumeCorrelation.

Import Frames.

Open Scope R_scope.

Lemma to_R_plus (a b : Qc) : Corr.to_R (a + b) = Corr.to_R a + Corr.to_R b.
Proof.
  unfold Corr.to_R. rewrite <- Q2R_plus. apply Qeq_eqR. apply this_plus.
Qed.

Lemma to_R_opp (a : Qc) : Corr.to_R (- a) = - Corr.to_R a.
Proof.
  unfold Corr.to_R. rewrite <- Q2R_opp. apply Qeq_eqR. apply this_opp.
Qed.

Lemma to_R_mult (a b : Qc) : Corr.to_R (a * b) = Corr.to_R a * Corr.to_R b.
Proof.
  unfold Corr.to_R. rewrite <- Q2R_mult. apply Qeq_eqR. apply this_mult.
Qed.

Lemma to_R_div (a b : Qc) :
  b <> 0%Qc -> Corr.to_R (a / b) = Corr.to_R a / Corr.to_R b.
Proof.
  intros Hb. unfold Corr.to_R. rewrite <- Q2R_div.
  - apply Qeq_eqR. apply this_div.
  - intro E. apply Hb. apply Qc_is_canon. exact E.
Qed.

Lemma to_R_lt (a b : Qc) : (a < b)%Qc -> Corr.to_R a < Corr.to_R b.
Proof. unfold Corr.to_R, Qclt. apply Qlt_Rlt. Qed.

Lemma rsum_affine (c d : R) (xs : list R) :
  Corr.rsum (map (fun x => c * x + d) xs)
  = c * Corr.rsum xs + INR (List.length xs) * d.
Proof.
  induction xs as [|x xs IH].
  - cbn. Lra.lra.
  - cbn [map Corr.rsum fold_right].
    fold (Corr.rsum (map (fun x => c * x + d) xs)). fold (Corr.rsum xs).
    replace (INR (List.length (x :: xs))) with (INR (List.length xs) + 1)
      by (symmetry; apply S_INR).
    rewrite IH. Lra.lra.
Qed.

Lemma rsum_scaled (c : R) (f : R -> R) (xs : list R) :
  Corr.rsum (map (fun x => c * f x) xs) = c * Corr.rsum (map f xs).
Proof.
  induction xs as [|x xs IH]; cbn [map Corr.rsum fold_right]; [Lra.lra|].
  fold (Corr.rsum (map (fun x => c * f x) xs)). fold (Corr.rsum (map f xs)).
  rewrite IH. Lra.lra.
Qed.

(** The coefficient of a column with a rising line through it is 1. *)
Lemma pearson_affine (c d : R) (xs : list R) :
  0 < c ->
  let S := Corr.codeviation (map (fun a => (a, a)) xs) in
  let ps := map (fun x => (x, c * x + d)) xs in
  S <> 0 ->
  Corr.codeviation ps / sqrt (Corr.codeviation (map (fun p => (fst p, fst p)) ps)
                              * Corr.codeviation (map (fun p => (snd p, snd p)) ps))
  = 1
  /\ sqrt (Corr.codeviation (map (fun p => (fst p, fst p)) ps)
           * Corr.codeviation (map (fun p => (snd p, snd p)) ps)) <> 0.
Proof.
  intros Hc S ps HS.
  assert (Hn : xs <> []).
  { intro E. apply HS. unfold S. rewrite E. reflexivity. }
  assert (Hlen : INR (List.length xs) <> 0).
  { apply not_0_INR. destruct xs; [congruence | discriminate]. }
  set (m := Corr.mean xs).
  assert (Emy : Corr.mean (map (fun x => c * x + d) xs) = c * m + d).
  { unfold Corr.mean. rewrite rsum_affine, length_map. unfold m, Corr.mean.
    field. exact Hlen. }
  assert (ES : S = Corr.rsum (map (fun a => (a - m) * (a - m)) xs)).
  { unfold S. apply codeviation_diag. }
  assert (E1 : Corr.codeviation (map (fun p => (fst p, fst p)) ps) = S).
  { unfold ps. rewrite map_map. cbn [fst]. reflexivity. }
  assert (E2 : Corr.codeviation (map (fun p => (snd p, snd p)) ps) = c * c * S).
  { unfold ps. rewrite map_map. cbn [snd].
    rewrite <- (map_map (fun x => c * x + d) (fun y => (y, y))).
    rewrite codeviation_diag, Emy, map_map, ES, <- rsum_scaled.
    f_equal. apply map_ext. intros a. ring. }
  assert (E3 : Corr.codeviation ps = c * S).
  { unfold Corr.codeviation, ps. rewrite !map_map. cbn [fst snd].
    rewrite map_id. fold m.
    rewrite Emy, ES, <- rsum_scaled.
    f_equal. apply map_ext. intros a. ring. }
  rewrite E1, E2, E3.
  assert (HS0 : 0 <= S) by (rewrite ES; apply rsum_squares_nonneg).
  replace (S * (c * c * S)) with ((c * S) * (c * S)) by ring.
  rewrite sqrt_square by (apply Rmult_le_pos; Lra.lra).
  assert (Hcs : c * S <> 0).
  { intro E. apply Rmult_integral in E. destruct E; Lra.lra. }
  split; [field; split; Lra.lra | exact Hcs].
Qed.

(** The minimum and the maximum of a column are values of it. *)
Lemma col_min_attained (col : list xnum) (mn : Qc) :
  col_min col = Fin mn -> In (Fin mn) col.
Proof.
  induction col as [|x col IH]; cbn [col_min]; [discriminate|].
  destruct (isna x); [intros H; right; exact (IH H)|].
  destruct (isna (col_min col)); [intros H; left; exact H|].
  destruct (xlt x (col_min col)); intros H; [left; exact H | right; exact (IH H)].
Qed.

Lemma col_max_attained (col : list xnum) (mx : Qc) :
  col_max col = Fin mx -> In (Fin mx) col.
Proof.
  induction col as [|x col IH]; cbn [col_max]; [discriminate|].
  destruct (isna x); [intros H; right; exact (IH H)|].
  destruct (isna (col_max col)); [intros H; left; exact H|].
  destruct (xlt (col_max col) x); intros H; [left; exact H | right; exact (IH H)].
Qed.

Lemma finite_values_In (col : list xnum) (q : Qc) :
  In (Fin q) col -> In q (Corr.finite_values col).
Proof.
  induction col as [|x col IH]; intros H; [destruct H|].
  destruct H as [-> | H].
  - left. reflexivity.
  - destruct x; cbn [Corr.finite_values]; try (apply IH; exact H).
    right. apply IH. exact H.
Qed.

(** The complete rows of a column and of a cell by cell image of it that
    keeps the missing values missing. *)
Lemma complete_pairs_image (f : xnum -> xnum) (g : Qc -> Qc) (col : list xnum) :
  (forall x, In x col ->
     (x = NaN /\ f x = NaN) \/ exists v, x = Fin v /\ f x = Fin (g v)) ->
  Corr.complete_pairs col (map f col)
  = map (fun v => (Corr.to_R v, Corr.to_R (g v))) (Corr.finite_values col).
Proof.
  induction col as [|x col IH]; intros H; [reflexivity|].
  assert (IH' := IH (fun y Hy => H y (or_intror Hy))).
  destruct (H x (or_introl eq_refl)) as [[Ex Ef] | (v & Ex & Ef)].
  - cbn [map]. rewrite Ef, Ex. cbn [Corr.complete_pairs Corr.finite_values].
    exact IH'.
  - cbn [map]. rewrite Ef, Ex. cbn [Corr.complete_pairs Corr.finite_values map].
    rewrite IH'. reflexivity.
Qed.

(** The scaled value of a finite cell, as a real number. *)
Lemma scale_to_R (mn mx v : Qc) :
  (mn < mx)%Qc ->
  xmul (xdiv (xsub (Fin v) (Fin mn)) (xsub (Fin mx) (Fin mn))) (Fin (qz 100))
  = Fin ((v + - mn) / (mx + - mn) * qz 100)%Qc
  /\ Corr.to_R ((v + - mn) / (mx + - mn) * qz 100)%Qc
     = 100 / (Corr.to_R mx - Corr.to_R mn) * Corr.to_R v
       + - (100 / (Corr.to_R mx - Corr.to_R mn) * Corr.to_R mn).
Proof.
  intros Hlt.
  assert (Hd : (mx + - mn)%Qc <> 0%Qc).
  { intro E. apply (proj1 (Qcminus_zero mx mn)) in E.
    exact (Qclt_not_eq _ _ Hlt (eq_sym E)). }
  split.
  - unfold xsub. cbn [xneg xadd xdiv].
    apply Qc_eqb_neq in Hd. rewrite Hd. reflexivity.
  - rewrite to_R_mult, (to_R_div _ _ Hd), !to_R_plus, !to_R_opp.
    assert (E100 : Corr.to_R (qz 100) = 100).
    { unfold Corr.to_R. change (this (qz 100)) with (100 # 1)%Q.
      unfold Q2R. cbn [Qnum Qden]. change (IZR (Z.pos 1)) with 1. field. }
    rewrite E100. pose proof (to_R_lt _ _ Hlt) as L.
    field. Lra.lra.
Qed.

(** X19.  In the run of the class, on a merged table whose volume column
    has a finite minimum and a greater finite maximum, the correlation
    matrix holds 1 between [Volume] and [VolumeNormalized]. *)
Theorem correlation_volume_normalized :
  forall (merged_data : list MergedRow) (mn mx : Qc),
    col_min (map Volume merged_data) = Fin mn ->
    col_max (map Volume merged_data) = Fin mx ->
    (mn < mx)%Qc ->
    Corr.at_ (MergeOOP.calculate_correlation
                (MergeOOP.normalize_volume merged_data)) 4 8 = Some 1.
Proof.
  intros merged_data mn mx Hmin Hmax Hlt.
  unfold MergeOOP.calculate_correlation. rewrite corr_at.
  unfold numeric_columns. cbn [app nth_error snd].
  unfold MergeOOP.normalize_volume. rewrite Hmin, Hmax, !map_map. cbn [fst snd].
  set (f := fun x : xnum =>
              xmul (xdiv (xsub x (Fin mn)) (xsub (Fin mx) (Fin mn))) (Fin (qz 100))).
  rewrite <- (map_map Volume f).
  set (col := map Volume merged_data) in *.
  set (c := 100 / (Corr.to_R mx - Corr.to_R mn)).
  set (d := - (c * Corr.to_R mn)).
  assert (Hc : 0 < c).
  { unfold c. pose proof (to_R_lt _ _ Hlt). apply Rdiv_lt_0_compat; Lra.lra. }
  assert (Hps : Corr.complete_pairs col (map f col)
                = map (fun x => (x, c * x + d))
                      (map Corr.to_R (Corr.finite_values col))).
  { rewrite (complete_pairs_image f
               (fun v => ((v + - mn) / (mx + - mn) * qz 100)%Qc)).
    - rewrite map_map. apply map_ext. intros v.
      rewrite (proj2 (scale_to_R mn mx v Hlt)). reflexivity.
    - intros x Hx.
      destruct (between_min_max col mn mx x Hmin Hmax Hx) as [N | (v & Ev & _)].
      + left. rewrite N. split; reflexivity.
      + right. exists v. split; [exact Ev|]. rewrite Ev.
        exact (proj1 (scale_to_R mn mx v Hlt)). }
  assert (HS : Corr.codeviation
                 (map (fun a => (a, a)) (map Corr.to_R (Corr.finite_values col)))
               <> 0).
  { intro E. apply spread_zero_iff in E.
    assert (Emn : mn = mx).
    { apply E; apply finite_values_In;
        [exact (col_min_attained _ _ Hmin) | exact (col_max_attained _ _ Hmax)]. }
    rewrite Emn in Hlt. exact (Qclt_not_eq _ _ Hlt eq_refl). }
  unfold Corr.pearson. rewrite Hps. clear Hps.
  destruct (map (fun x => (x, c * x + d)) (map Corr.to_R (Corr.finite_values col)))
    as [|p ps] eqn:E.
  - exfalso. apply HS. apply map_eq_nil in E. rewrite E. reflexivity.
  - rewrite <- E. clear E p ps. cbv zeta.
    destruct (pearson_affine c d _ Hc HS) as [Q D].
    destruct (Req_dec_T _ 0) as [Z | _]; [exfalso; exact (D Z)|].
    f_equal. exact Q.
Qed.

(** The merged table of the days 2 and 3, with the volumes 1000 and 3000. *)
Lemma correlation_volume_normalized_witness :
  Corr.at_ (MergeOOP.calculate_correlation
              (MergeOOP.normalize_volume merged_2_3)) 4 8 = Some 1.
Proof.
  exact (correlation_volume_normalized merged_2_3 (qz 1000) (qz 3000)
           eq_refl eq_refl eq_refl).
Defined.

End VolumeCorrelation.

(* ================================================================== *)
(** * The column names of the two tables *)

Section ColumnNamesFacts.

Import ColumnNames.

Open Scope string_scope.

Lemma startswith_refl (p s : string) : startswith p (p ++ s) = true.
Proof.
  induction p as [|a p IH]; cbn [startswith String.append]; [reflexivity|].
  rewrite Ascii.eqb_refl. exact IH.
Qed.

Lemma contains_cons (p : string) (c : ascii) (s : string) :
  contains p (String c s) = startswith p (String c s) || contains p s.
Proof. reflexivity. Qed.

(** The underscore: a name has one when a text with one stands in it. *)
Lemma startswith_underscore (p s : string) :
  startswith p s = true -> contains "_" p = true -> contains "_" s = true.
Proof.
  revert s. induction p as [|a p IH]; intros s H U; [discriminate U|].
  destruct s as [|b s]; [discriminate H|].
  cbn [startswith] in H. apply andb_true_iff in H. destruct H as [E H].
  apply Ascii.eqb_eq in E. subst b.
  rewrite contains_cons in U |- *. apply orb_true_iff in U.
  apply orb_true_iff. destruct U as [U | U]; [left; exact U|].
  right. exact (IH s H U).
Qed.

Lemma contains_underscore (p s : string) :
  contains p s = true -> contains "_" p = true -> contains "_" s = true.
Proof.
  intros H U. induction s as [|c s IH].
  - cbn [contains] in H. rewrite orb_false_r in H.
    exact (startswith_underscore p "" H U).
  - rewrite contains_cons in H. apply orb_true_iff in H.
    destruct H as [H | H]; [exact (startswith_underscore p _ H U)|].
    rewrite contains_cons. apply orb_true_iff. right. exact (IH H).
Qed.

Lemma underscore_free_cons (c : ascii) (s : string) :
  contains "_" (String c s) = false ->
  Ascii.eqb "_" c = false /\ contains "_" s = false.
Proof.
  rewrite contains_cons. intros H. apply orb_false_iff in H.
  destruct H as [H1 H2]. split; [|exact H2].
  cbn [startswith] in H1. rewrite andb_true_r in H1. exact H1.
Qed.

(** A text that does not stand in the name leaves it as it is. *)
Lemma replace_skip_absent (old new s : string) :
  contains old s = false -> replace_skip old new 0 s = s.
Proof.
  induction s as [|c s IH]; intros H; [reflexivity|].
  rewrite contains_cons in H. apply orb_false_iff in H. destruct H as [H1 H2].
  cbn [replace_skip]. rewrite H1, (IH H2). reflexivity.
Qed.

Lemma replace_absent (old new s : string) :
  contains old s = false -> replace old new s = s.
Proof.
  intros H. destruct old as [|a old].
  - destruct s; discriminate H.
  - exact (replace_skip_absent _ new s H).
Qed.

Lemma replace_skip_all (old new t : string) :
  replace_skip old new (String.length t) t = "".
Proof. induction t as [|c t IH]; [reflexivity | exact IH]. Qed.

(** The ticker symbol after the name is taken away. *)
Lemma replace_ticker (name ticker : string) :
  contains "_" name = false ->
  replace ("_" ++ ticker) "" (name ++ "_" ++ ticker) = name.
Proof.
  intros U. change ("_" ++ ticker) with (String "_" ticker).
  unfold replace. induction name as [|c name IH].
  - change ("" ++ String "_" ticker) with (String "_" ticker).
    cbn [replace_skip].
    change (startswith (String "_" ticker) (String "_" ticker))
      with (Ascii.eqb "_" "_" && startswith ticker ticker).
    rewrite <- (string_append_empty ticker) at 2.
    rewrite startswith_refl. cbn [Ascii.eqb andb String.length Nat.sub].
    rewrite Nat.sub_0_r, replace_skip_all. reflexivity.
  - apply underscore_free_cons in U. destruct U as [Uc U].
    change (String c name ++ String "_" ticker)
      with (String c (name ++ String "_" ticker)).
    cbn [replace_skip startswith]. rewrite Uc. cbn [andb].
    rewrite (IH U). reflexivity.
Qed.

(** A name that ends with its only underscore has no ticker symbol in it. *)
Lemma ticker_absent (name ticker : string) :
  contains "_" name = false -> ticker <> "" ->
  contains ("_" ++ ticker) (name ++ "_") = false.
Proof.
  intros U T. change ("_" ++ ticker) with (String "_" ticker).
  induction name as [|c name IH].
  - destruct ticker as [|t ticker]; [congruence | reflexivity].
  - apply underscore_free_cons in U. destruct U as [Uc U].
    change (String c name ++ "_") with (String c (name ++ "_")).
    rewrite contains_cons. cbn [startswith]. rewrite Uc. cbn [andb orb].
    exact (IH U).
Qed.

Lemma split_nonempty (sep : ascii) (s : string) : split sep s <> [].
Proof.
  destruct s as [|c s]; cbn [split]; [discriminate|].
  destruct (Ascii.eqb c sep); [discriminate|].
  destruct (split sep s); discriminate.
Qed.

Lemma split_free (s : string) : contains "_" s = false -> split "_" s = [s].
Proof.
  induction s as [|c s IH]; intros U; [reflexivity|].
  apply underscore_free_cons in U. destruct U as [Uc U].
  cbn [split]. rewrite Ascii.eqb_sym, Uc, (IH U). reflexivity.
Qed.

Lemma split_name (name rest : string) :
  contains "_" name = false ->
  split "_" (name ++ "_" ++ rest) = name :: split "_" rest.
Proof.
  induction name as [|c name IH]; intros U; [reflexivity|].
  apply underscore_free_cons in U. destruct U as [Uc U].
  change (String c name ++ "_" ++ rest) with (String c (name ++ "_" ++ rest)).
  cbn [split]. rewrite Ascii.eqb_sym, Uc, (IH U). reflexivity.
Qed.

(** A joined name has at least two pieces. *)
Lemma split_joined (a b : string) :
  (2 <= List.length (split "_" (a ++ "_" ++ b)))%nat.
Proof.
  induction a as [|c a IH].
  - change ("" ++ "_" ++ b) with (String "_" b). cbn [split].
    rewrite Ascii.eqb_refl.
    pose proof (split_nonempty "_" b) as N.
    destruct (split "_" b); [congruence | cbn [List.length]; lia].
  - change (String c a ++ "_" ++ b) with (String c (a ++ "_" ++ b)).
    cbn [split]. destruct (Ascii.eqb c "_").
    + cbn [List.length]. lia.
    + revert IH. destruct (split "_" (a ++ "_" ++ b)); cbn [List.length]; lia.
Qed.

Lemma item_last_map (A B : Type) (f : A -> B) (l : list A) :
  item_last (map f l)
  = match item_last l with
    | Ok a => Ok (f a)
    | Raise e => Raise e
    end.
Proof.
  unfold item_last. rewrite <- map_rev. destruct (rev l); reflexivity.
Qed.

Lemma item_last_In (A : Type) (l : list A) (a : A) :
  item_last l = Ok a -> In a l.
Proof.
  unfold item_last. intros H. apply in_rev.
  destruct (rev l) as [|b r]; [discriminate|].
  injection H as ->. left. reflexivity.
Qed.

Lemma item_last_empty (A : Type) (l : list A) (e : exn) :
  item_last l = Raise e -> l = [] /\ e = IndexError.
Proof.
  unfold item_last. intros H. destruct (rev l) as [|b r] eqn:E; [|discriminate].
  injection H as <-. split; [|reflexivity].
  rewrite <- (rev_involutive l), E. reflexivity.
Qed.

(** X20.  On the price table of one ticker, whose symbol is not empty and
    holds no underscore, with the column of the dates and price names
    without an underscore, the string operations of the function raise
    nothing and give the names of the first level, those the method
    takes. *)
Theorem stock_columns_first_level :
  forall (ticker : string) (columns : list (string * string)) (name : string),
    ticker <> "" ->
    contains "_" ticker = false ->
    item_last columns = Ok (name, ticker) ->
    Forall (fun col => col = ("Date", "")
                       \/ (snd col = ticker /\ contains "_" (fst col) = false))
           columns ->
    stock_columns columns = Ok (stock_columns_oop columns).
Proof.
  intros ticker columns name T U L F.
  assert (Un : contains "_" name = false).
  { apply item_last_In in L. rewrite Forall_forall in F.
    destruct (F _ L) as [E | [_ H]]; [|exact H].
    injection E as _ E. congruence. }
  unfold stock_columns, stock_columns_oop.
  rewrite item_last_map, L. cbn [fst snd bind].
  rewrite (split_name name ticker Un), (split_free ticker U).
  unfold item. cbn [nth_error bind].
  rewrite !map_map. f_equal. apply map_ext_in. intros [n t] Hc.
  rewrite Forall_forall in F. cbn [fst snd].
  destruct (F _ Hc) as [E | [Et Uc]].
  - injection E as -> ->. change ("Date" ++ "_" ++ "") with ("Date" ++ "_").
    rewrite (replace_absent _ "" _ (ticker_absent "Date" ticker eq_refl T)).
    reflexivity.
  - cbn [fst snd] in Et, Uc. subst t. rewrite (replace_ticker n ticker Uc).
    apply replace_absent.
    destruct (contains "Date_" n) eqn:C; [|reflexivity].
    rewrite (contains_underscore "Date_" n C eq_refl) in Uc. discriminate Uc.
Qed.

(** The dates and the five columns of one ticker. *)
Lemma stock_columns_first_level_witness :
  stock_columns [("Date", ""); ("Close", "TSLA"); ("High", "TSLA");
                 ("Low", "TSLA"); ("Open", "TSLA"); ("Volume", "TSLA")]
  = Ok ["Date"; "Close"; "High"; "Low"; "Open"; "Volume"].
Proof.
  refine (stock_columns_first_level "TSLA"
            [("Date", ""); ("Close", "TSLA"); ("High", "TSLA");
             ("Low", "TSLA"); ("Open", "TSLA"); ("Volume", "TSLA")]
            "Volume" _ eq_refl eq_refl _).
  - discriminate.
  - repeat first [apply Forall_nil | apply Forall_cons];
      first [left; reflexivity | right; split; reflexivity].
Defined.

(** X21.  The string operations of the function raise on the table
    without columns only, an IndexError at its last column; on every other
    table a joined name has an underscore, so that the second piece of the
    last one is there, and as many names as columns come out. *)
Theorem stock_columns_raises :
  forall columns : list (string * string),
    (columns = [] -> stock_columns columns = Raise IndexError)
    /\ (columns <> [] ->
        exists names, stock_columns columns = Ok names
                      /\ List.length names = List.length columns).
Proof.
  intros columns. split.
  - intros ->. reflexivity.
  - intros N. unfold stock_columns. rewrite item_last_map.
    destruct (item_last columns) as [[a b] | e] eqn:L.
    + cbn [fst snd bind]. pose proof (split_joined a b) as S. unfold item.
      destruct (split "_" (a ++ "_" ++ b)) as [|p [|t ps]];
        cbn [List.length] in S; try lia.
      cbn [nth_error bind]. eexists. split; [reflexivity|].
      rewrite !length_map. reflexivity.
    + apply item_last_empty in L. destruct L as [E _]. congruence.
Qed.

(** A ticker symbol with an underscore. *)
Lemma stock_columns_raises_witness :
  exists names,
    stock_columns [("Close", "BRK_B")] = Ok names
    /\ List.length names = List.length [("Close", "BRK_B")].
Proof.
  apply (proj2 (stock_columns_raises [("Close", "BRK_B")])). discriminate.
Defined.

(** X22.  The function renames the column ['index'] and replaces the
    text ['date'] inside every name, the method renames the column
    ['date'] only: on a table without a column ['index'], where ['date']
    stands in no other name than ['date'] itself, both give the same
    names. *)
Theorem trend_columns_agree :
  forall columns : list string,
    Forall (fun name => name = "date"
                        \/ (name <> "index" /\ contains "date" name = false))
           columns ->
    trend_columns columns = trend_columns_oop columns.
Proof.
  intros columns F. unfold trend_columns, trend_columns_oop.
  rewrite map_map. apply map_ext_in. intros name H.
  rewrite Forall_forall in F. destruct (F _ H) as [-> | [I C]].
  - reflexivity.
  - unfold rename. apply String.eqb_neq in I. rewrite I.
    rewrite (replace_absent _ _ _ C).
    destruct (String.eqb name "date") eqn:E; [|reflexivity].
    apply String.eqb_eq in E. subst name. discriminate C.
Qed.

(** The interest table of the example run. *)
Lemma trend_columns_agree_witness :
  trend_columns ["date"; "Tesla stock"; "isPartial"; "Trend_Percentage"]
  = trend_columns_oop ["date"; "Tesla stock"; "isPartial"; "Trend_Percentage"].
Proof.
  apply trend_columns_agree.
  repeat first [apply Forall_nil | apply Forall_cons];
    first [left; reflexivity | right; split; [discriminate | reflexivity]].
Defined.

End ColumnNamesFacts.

(* ================================================================== *)
(** * align_data on whole tables *)

Section WholeTables.

Import Frames ColumnNames Tables.

Open Scope string_scope.

Lemma reset_index_raises (index_name : option string) (columns : list string)
    (e : exn) :
  reset_index index_name columns = Raise e -> e = ValueError.
Proof.
  unfold reset_index. destruct (has_column _ _); [|discriminate].
  intros H. injection H as <-. reflexivity.
Qed.

Lemma reset_index_levels_raises (index_name : option string)
    (columns : list (string * string)) (e : exn) :
  reset_index_levels index_name columns = Raise e -> e = ValueError.
Proof.
  unfold reset_index_levels. destruct (existsb _ _); [|discriminate].
  intros H. injection H as <-. reflexivity.
Qed.

Lemma getitem_Date_raises (columns : list string) (e : exn) :
  getitem_Date columns = Raise e -> e = KeyError.
Proof.
  unfold getitem_Date. destruct (has_column _ _); [discriminate|].
  intros H. injection H as <-. reflexivity.
Qed.

Lemma stock_columns_raises_IndexError (columns : list (string * string)) (e : exn) :
  stock_columns columns = Raise e -> e = IndexError.
Proof.
  unfold stock_columns, item_last, item.
  destruct (rev (map _ columns)) as [|last_column rest]; cbn [bind].
  - intros H. injection H as <-. reflexivity.
  - destruct (nth_error _ 1); cbn [bind]; [discriminate|].
    intros H. injection H as <-. reflexivity.
Qed.

(** Whatever [align_data] raises is a [ValueError], a [KeyError] or an
    [IndexError]. *)
Lemma align_data_raises (trend : TrendTable) (stock : StockTable) (e : exn) :
  (MergeTables.align_data trend stock = Raise e ->
   e = ValueError \/ e = KeyError \/ e = IndexError)
  /\ (MergeTablesOOP.align_data trend stock = Raise e ->
      e = ValueError \/ e = KeyError).
Proof.
  split.
  - unfold MergeTables.align_data.
    destruct (reset_index_levels _ _) as [sc|e1] eqn:E1; cbn [bind];
      [|intros H; injection H as <-; left;
        exact (reset_index_levels_raises _ _ _ E1)].
    destruct (reset_index _ _) as [tc|e2] eqn:E2; cbn [bind];
      [|intros H; injection H as <-; left; exact (reset_index_raises _ _ _ E2)].
    destruct (getitem_Date (trend_columns tc)) as [[]|e3] eqn:E3; cbn [bind];
      [|intros H; injection H as <-; right; left;
        exact (getitem_Date_raises _ _ E3)].
    destruct (getitem_Date (map fst sc)) as [[]|e4] eqn:E4; cbn [bind];
      [|intros H; injection H as <-; right; left;
        exact (getitem_Date_raises _ _ E4)].
    destruct (stock_columns sc) as [names|e5] eqn:E5; cbn [bind];
      [|intros H; injection H as <-; right; right;
        exact (stock_columns_raises_IndexError _ _ E5)].
    destruct (getitem_Date names) as [[]|e6] eqn:E6; cbn [bind];
      [|intros H; injection H as <-; right; left;
        exact (getitem_Date_raises _ _ E6)].
    unfold Merge.align_data. discriminate.
  - unfold MergeTablesOOP.align_data.
    destruct (reset_index_levels _ _) as [sc|e1] eqn:E1; cbn [bind];
      [|intros H; injection H as <-; left;
        exact (reset_index_levels_raises _ _ _ E1)].
    destruct (reset_index _ _) as [tc|e2] eqn:E2; cbn [bind];
      [|intros H; injection H as <-; left; exact (reset_index_raises _ _ _ E2)].
    destruct (getitem_Date (stock_columns_oop sc)) as [[]|e3] eqn:E3; cbn [bind];
      [|intros H; injection H as <-; right;
        exact (getitem_Date_raises _ _ E3)].
    destruct (getitem_Date (trend_columns_oop tc)) as [[]|e4] eqn:E4; cbn [bind];
      [|intros H; injection H as <-; right;
        exact (getitem_Date_raises _ _ E4)].
    unfold MergeOOP.align_data. discriminate.
Qed.

Lemma reset_index_levels_Date (t : string) :
  reset_index_levels (Some "Date") (stock_column_names t)
  = Ok (("Date", "") :: stock_column_names t).
Proof. reflexivity. Qed.

(** The names of the price table come to one level for every ticker
    symbol, and the column [Date] is among them. *)
Lemma stock_columns_Date (t : string) :
  exists names,
    stock_columns (("Date", "") :: stock_column_names t) = Ok names
    /\ getitem_Date names = Ok tt.
Proof.
  unfold stock_columns, stock_column_names.
  cbn [map fst snd]. unfold item_last. cbn [rev app bind].
  rewrite (split_name "Volume" t eq_refl).
  pose proof (split_nonempty "_" t) as N.
  destruct (split "_" t) as [|sym rest]; [congruence|].
  unfold item. cbn [nth_error bind]. eexists. split; [reflexivity|].
  unfold getitem_Date, has_column. cbn [map existsb].
  change ("Date" ++ "_" ++ "") with ("Date" ++ "_").
  assert (E : replace "Date_" "Date" (replace ("_" ++ sym) "" ("Date" ++ "_"))
              = "Date").
  { destruct sym as [|c sym]; [reflexivity|].
    rewrite (replace_absent _ "" _
               (ticker_absent "Date" (String c sym) eq_refl ltac:(discriminate))).
    reflexivity. }
  rewrite E. reflexivity.
Qed.

(** C2, as the code has it.  [align_data], the function and the method,
    never raises [AlignmentError], whatever the names and the dates of the
    two tables; what it raises is a [ValueError], a [KeyError] or an
    [IndexError] of a statement on the names.  On a price table whose
    index is named ['Date'] and an interest table whose index is named
    ['date'], as the downloads name them, both return the joined rows
    without a missing value; on tables without a common date, where the
    join has no row, that is the empty table.  On an interest table whose
    index has no name the function still returns and the method raises
    [KeyError].  The join is empty exactly on tables without a common
    date. *)
Theorem align_data_never_raises :
  forall (trend : TrendTable) (stock : StockTable),
    let merged := dropna (merge (stock_rows stock) (trend_rows trend)) in
    MergeTables.align_data trend stock <> Raise AlignmentError
    /\ MergeTablesOOP.align_data trend stock <> Raise AlignmentError
    /\ (stock_index_name stock = Some "Date" ->
        (trend_index_name trend = Some "date" ->
         MergeTables.align_data trend stock = Ok merged
         /\ MergeTablesOOP.align_data trend stock = Ok merged)
        /\ (trend_index_name trend = None ->
            MergeTables.align_data trend stock = Ok merged
            /\ MergeTablesOOP.align_data trend stock = Raise KeyError))
    /\ (Spec.disjoint_dates (trend_rows trend) (stock_rows stock) ->
        merged = [])
    /\ (merge (stock_rows stock) (trend_rows trend) = []
        <-> Spec.disjoint_dates (trend_rows trend) (stock_rows stock)).
Proof.
  intros trend stock merged.
  split; [|split; [|split; [|split]]].
  - intros H. destruct (proj1 (align_data_raises _ _ _) H) as [E|[E|E]];
      discriminate E.
  - intros H. destruct (proj2 (align_data_raises _ _ _) H) as [E|E];
      discriminate E.
  - intros Hs.
    assert (F : forall tn,
               tn = "date" \/ tn = "index" ->
               reset_index (trend_index_name trend) trend_column_names
               = Ok (tn :: trend_column_names) ->
               MergeTables.align_data trend stock = Ok merged).
    { intros tn Htn R. unfold MergeTables.align_data.
      rewrite Hs, R, reset_index_levels_Date. cbn [bind].
      replace (getitem_Date (trend_columns (tn :: trend_column_names)))
        with (Ok tt) by (destruct Htn as [-> | ->]; reflexivity).
      cbn [bind map fst].
      replace (getitem_Date ("Date" :: map fst (stock_column_names (ticker stock))))
        with (Ok tt) by reflexivity.
      cbn [bind].
      destruct (stock_columns_Date (ticker stock)) as (names & E1 & E2).
      rewrite E1. cbn [bind]. rewrite E2. cbn [bind]. reflexivity. }
    split.
    + intros Ht. split.
      * apply (F "date"); [left; reflexivity|]. rewrite Ht. reflexivity.
      * unfold MergeTablesOOP.align_data.
        rewrite Hs, Ht, reset_index_levels_Date. reflexivity.
    + intros Ht. split.
      * apply (F "index"); [right; reflexivity|]. rewrite Ht. reflexivity.
      * unfold MergeTablesOOP.align_data.
        rewrite Hs, Ht, reset_index_levels_Date. reflexivity.
  - intros D. apply merge_empty in D. unfold merged. rewrite D. reflexivity.
  - apply merge_empty.
Qed.

(** The interest table of the days 1, 2, 3 against prices of the days 7
    and 8, both named as the downloads name them. *)
Lemma align_data_example_disjoint :
  MergeTables.align_data SpecTables.trend_table_3 SpecTables.stock_table_7_8
  = Ok []
  /\ MergeTablesOOP.align_data SpecTables.trend_table_3 SpecTables.stock_table_7_8
     = Ok [].
Proof.
  exact (proj1 (proj1 (proj2 (proj2 (align_data_never_raises
                                       SpecTables.trend_table_3
                                       SpecTables.stock_table_7_8)))
                         eq_refl) eq_refl).
Defined.

(** C2, as the specification has it, fails on these two tables: no
    [AlignmentError], the empty table is returned. *)
Lemma alignment_claim_fails :
  ~ SpecTables.alignment_claim SpecTables.trend_table_3 SpecTables.stock_table_7_8.
Proof.
  intros [H _].
  assert (D : Spec.disjoint_dates (trend_rows SpecTables.trend_table_3)
                                  (stock_rows SpecTables.stock_table_7_8)).
  { apply merge_empty. reflexivity. }
  specialize (H D).
  destruct (proj1 (align_data_raises _ _ _) H) as [E|[E|E]]; discriminate E.
Qed.

End WholeTables.

(* ================================================================== *)
(** * The scaling run again on a scaled column *)

Section Rescaling.

Import Frames.

Open Scope Qc_scope.

(** The minimum of a column is one of its values, unless it is missing. *)
Lemma col_min_In (col : list xnum) :
  isna (col_min col) = false -> In (col_min col) col.
Proof.
  induction col as [|x col IH]; cbn [col_min]; [discriminate|].
  destruct (isna x) eqn:Ex; [intros H; right; exact (IH H)|].
  destruct (isna (col_min col)) eqn:Em; [intros _; left; reflexivity|].
  destruct (xlt x (col_min col)); intros _;
    [left; reflexivity | right; exact (IH eq_refl)].
Qed.

Lemma col_max_In (col : list xnum) :
  isna (col_max col) = false -> In (col_max col) col.
Proof.
  induction col as [|x col IH]; cbn [col_max]; [discriminate|].
  destruct (isna x) eqn:Ex; [intros H; right; exact (IH H)|].
  destruct (isna (col_max col)) eqn:Em; [intros _; left; reflexivity|].
  destruct (xlt (col_max col) x); intros _;
    [left; reflexivity | right; exact (IH eq_refl)].
Qed.

(** A value of the column that no other value is below is its minimum. *)
Lemma col_min_floor (col : list xnum) (lo : Qc) :
  In (Fin lo) col ->
  (forall y, In y col -> y = NaN \/ exists q, y = Fin q /\ lo <= q) ->
  col_min col = Fin lo.
Proof.
  intros Hlo B.
  destruct (col_min_lower col (Fin lo) Hlo eq_refl) as [N L].
  destruct (B _ (col_min_In col N)) as [E | (q & E & Hq)].
  - rewrite E in N. discriminate N.
  - rewrite E in L |- *. cbn [xlt] in L. apply Qc_ltb_ge in L.
    f_equal. apply Qcle_antisym; assumption.
Qed.

Lemma col_max_ceiling (col : list xnum) (hi : Qc) :
  In (Fin hi) col ->
  (forall y, In y col -> y = NaN \/ exists q, y = Fin q /\ q <= hi) ->
  col_max col = Fin hi.
Proof.
  intros Hhi B.
  destruct (col_max_upper col (Fin hi) Hhi eq_refl) as [N U].
  destruct (B _ (col_max_In col N)) as [E | (q & E & Hq)].
  - rewrite E in N. discriminate N.
  - rewrite E in U |- *. cbn [xlt] in U. apply Qc_ltb_ge in U.
    f_equal. apply Qcle_antisym; assumption.
Qed.

(** The scaled column of a column with a finite minimum below a finite
    maximum has the minimum 0 and the maximum 100, and the scaling leaves
    it as it is. *)
Lemma scaled_column_fixed (col : list xnum) (mn mx : Qc) :
  col_min col = Fin mn -> col_max col = Fin mx -> mn < mx ->
  let scaled :=
    map (fun v => xmul (xdiv (xsub v (col_min col))
                             (xsub (col_max col) (col_min col)))
                       (Fin (qz 100))) col in
  col_min scaled = Fin (qz 0)
  /\ col_max scaled = Fin (qz 100)
  /\ map (fun v => xmul (xdiv (xsub v (col_min scaled))
                              (xsub (col_max scaled) (col_min scaled)))
                        (Fin (qz 100))) scaled
     = scaled.
Proof.
  intros Hmin Hmax Hlt scaled.
  assert (B : forall y, In y scaled ->
                y = NaN \/ exists q, y = Fin q /\ 0 <= q <= qz 100).
  { intros y Hy. unfold scaled in Hy. rewrite Hmin, Hmax in Hy.
    apply in_map_iff in Hy. destruct Hy as (x & <- & Hx).
    destruct (scale_cell col mn mx x Hmin Hmax Hlt Hx)
      as [[_ E] | (v & q & _ & E & R & _)].
    - left. exact E.
    - right. exists q. split; [exact E | exact R]. }
  assert (I0 : In (Fin (qz 0)) scaled).
  { unfold scaled. rewrite Hmin, Hmax.
    apply in_map_iff. exists (Fin mn). split; [|exact (col_min_attained _ _ Hmin)].
    destruct (scale_between mn mx mn Hlt) as (q & E & _ & Z & _).
    { split; [apply Qcle_refl | apply Qclt_le_weak; exact Hlt]. }
    rewrite E, (Z eq_refl). reflexivity. }
  assert (I1 : In (Fin (qz 100)) scaled).
  { unfold scaled. rewrite Hmin, Hmax.
    apply in_map_iff. exists (Fin mx). split; [|exact (col_max_attained _ _ Hmax)].
    destruct (scale_between mn mx mx Hlt) as (q & E & _ & _ & Z).
    { split; [apply Qclt_le_weak; exact Hlt | apply Qcle_refl]. }
    rewrite E, (Z eq_refl). reflexivity. }
  assert (M0 : col_min scaled = Fin (qz 0)).
  { apply col_min_floor; [exact I0|]. intros y Hy.
    destruct (B y Hy) as [E | (q & E & R)]; [left; exact E|].
    right. exists q. split; [exact E | apply R]. }
  assert (M1 : col_max scaled = Fin (qz 100)).
  { apply col_max_ceiling; [exact I1|]. intros y Hy.
    destruct (B y Hy) as [E | (q & E & R)]; [left; exact E|].
    right. exists q. split; [exact E | apply R]. }
  split; [exact M0|]. split; [exact M1|].
  exact (scale_0_100 scaled M0 M1).
Qed.

Lemma float_column_eqb_eq (a b : list PrimFloat.float) :
  F64.column_eqb a b = true -> a = b.
Proof.
  revert b. induction a as [|x a IH]; intros [|y b] H;
    try discriminate H; [reflexivity|].
  cbn [F64.column_eqb] in H. apply andb_prop in H. destruct H as [H1 H2].
  apply FloatAxioms.Leibniz.eqb_spec in H1. subst y. f_equal. apply IH. exact H2.
Qed.



End Rescaling.
